(** * SkillScout.ai: the agent pipeline of [services/geminiService.ts] and [App.tsx]

    A shallow embedding of the helper functions ([normalizeUrl], [cleanTitle],
    [getYouTubeThumbnail]), the retry wrapper ([retryWithBackoff]), the two
    agents ([runPlannerAgent], [runCuratorAgent]), the controller
    ([startGeneration]) and the state logic of the components ([App],
    [InputForm], [CurriculumView]), followed by the properties proved about
    them.

    Conventions.
    - A JavaScript string is the list of its UTF-16 code units ([jsstring]);
      [lit] turns an ASCII literal into one.
    - [toLowerCase] maps the ASCII letters A-Z; the case mapping of the other
      code units is left out of the model (they are unchanged).
    - A thrown exception is a value of [exn]; a function that can throw
      returns [exn + T].
    - What the JavaScript platform provides and the code only calls
      ([JSON.parse], [new URL(..).hostname], the coercing comparison [v < 100],
      the floating-point rounding of the progress percentage) is the class
      [Platform]; every general theorem holds for every platform. *)

From Stdlib Require Import NArith ZArith QArith Ascii String DecimalString DecimalNat.
From stdpp Require Import base option list gmap.

Local Set Warnings "-register-all".
Local Set Warnings "-clear-no-such-hyp".
Local Open Scope N_scope.
Local Open Scope list_scope.

(** ** JavaScript strings *)

Definition jsstring : Type := list N.

Definition lit (s : string) : jsstring :=
  List.map N_of_ascii (list_ascii_of_string s).

Fixpoint jseq (a b : jsstring) : bool :=
  match a, b with
  | [], [] => true
  | x :: a', y :: b' => N.eqb x y && jseq a' b'
  | _, _ => false
  end.

(** [stripPrefix p s]: the rest of [s] after the literal prefix [p], if [s]
    starts with [p]. *)
Fixpoint stripPrefix (p s : jsstring) : option jsstring :=
  match p, s with
  | [], _ => Some s
  | x :: p', y :: s' => if N.eqb x y then stripPrefix p' s' else None
  | _ :: _, [] => None
  end.

Definition startsWith (p s : jsstring) : bool :=
  match stripPrefix p s with Some _ => true | None => false end.

(** [s.includes(sub)] *)
Fixpoint includes (sub s : jsstring) : bool :=
  startsWith sub s ||
  match s with
  | [] => false
  | _ :: s' => includes sub s'
  end.

Definition lowerUnit (c : N) : N :=
  if (65 <=? c) && (c <=? 90) then c + 32 else c.

Definition toLowerCase (s : jsstring) : jsstring := List.map lowerUnit s.

(** ECMAScript WhiteSpace and LineTerminator code units, as [String.prototype.trim]
    removes them. *)
Definition isWhiteSpace (c : N) : bool :=
  ((9 <=? c) && (c <=? 13)) || (c =? 32) || (c =? 160) || (c =? 5760) ||
  ((8192 <=? c) && (c <=? 8202)) || (c =? 8232) || (c =? 8233) ||
  (c =? 8239) || (c =? 8287) || (c =? 12288) || (c =? 65279).

Fixpoint trimStart (s : jsstring) : jsstring :=
  match s with
  | [] => []
  | c :: s' => if isWhiteSpace c then trimStart s' else s
  end.

Definition trimEnd (s : jsstring) : jsstring := rev (trimStart (rev s)).

Definition trim (s : jsstring) : jsstring := trimEnd (trimStart s).

(** [s.replace(/suffix$/, '')] for a literal [suffix]: the pattern can only
    match at the end of the input. *)
Definition stripSuffix (suffix s : jsstring) : jsstring :=
  match stripPrefix (rev suffix) (rev s) with
  | Some r => rev r
  | None => s
  end.

(** [s.replace(sub, '')] with a string pattern: the first occurrence only. *)
Fixpoint removeFirst (sub s : jsstring) : jsstring :=
  match stripPrefix sub s with
  | Some r => r
  | None => match s with
            | [] => []
            | c :: s' => c :: removeFirst sub s'
            end
  end.

(** [text.replace(/```json|```/g, '')]: every match is removed, scanning left
    to right; at each position the longer alternative is tried first.  [skip]
    counts the code units of the current match still to be dropped. *)
Fixpoint removeFences (skip : nat) (s : jsstring) : jsstring :=
  match s with
  | [] => []
  | c :: s' =>
      match skip with
      | S k => removeFences k s'
      | O =>
          if startsWith (lit "```json") s then removeFences 6 s'
          else if startsWith (lit "```") s then removeFences 2 s'
          else c :: removeFences 0 s'
      end
  end.

Definition stripFences (text : jsstring) : jsstring := trim (removeFences 0 text).

(** The decimal rendering of an array length inside a template literal. *)
Definition decimal (n : nat) : jsstring :=
  lit (NilEmpty.string_of_uint (Nat.to_uint n)).

(** ** Helper functions of [geminiService.ts] *)

(** [url.replace(/^(https?:\/\/)?(www\.)?/, '')]: both groups are optional,
    greedy and case-sensitive. *)
Definition stripScheme (url : jsstring) : jsstring :=
  match stripPrefix (lit "https://") url with
  | Some r => r
  | None => match stripPrefix (lit "http://") url with
            | Some r => r
            | None => url
            end
  end.

Definition stripWww (url : jsstring) : jsstring :=
  match stripPrefix (lit "www.") url with
  | Some r => r
  | None => url
  end.

(** [.replace(/\/$/, '')] *)
Definition stripTrailingSlash (url : jsstring) : jsstring :=
  stripSuffix (lit "/") url.

(** [normalizeUrl] on a string argument (no operation of its body throws on a
    string, so the [catch] branch is only reached for a non-string argument;
    see [enrichItem]). *)
Definition normalizeUrl (url : jsstring) : jsstring :=
  toLowerCase (stripTrailingSlash (stripWww (stripScheme url))).

(** The rule as the specification words it: lower-case the URI, strip a
    leading [http://] or [https://], strip a leading [www.], strip one
    trailing [/]. *)
Definition normalizeUrl_spec (url : jsstring) : jsstring :=
  stripTrailingSlash (stripWww (stripScheme (toLowerCase url))).

Definition fallbackTitle (isVideo : bool) (topicTitle : jsstring) : jsstring :=
  if isVideo then topicTitle ++ lit " (Video)" else topicTitle ++ lit " Guide".

Definition stripSiteSuffixes (clean : jsstring) : jsstring :=
  stripSuffix (lit " - Wikipedia")
    (stripSuffix (lit " - GeeksforGeeks")
       (stripSuffix (lit " | Coursera")
          (stripSuffix (lit " - YouTube") clean))).

Definition isGenericTitle (lower : jsstring) : bool :=
  jseq lower (lit "youtube") ||
  jseq lower (lit "youtube.com") ||
  startsWith (lit "http") lower ||
  jseq lower (lit "video") ||
  jseq lower (lit "article") ||
  jseq lower (lit "home") ||
  jseq lower (lit "index").

(** [!title || !title.trim()] for [title : string | undefined]. *)
Definition isBlankTitle (title : option jsstring) : bool :=
  match title with
  | None => true
  | Some t => match trim t with [] => true | _ => false end
  end.

Definition cleanTitle (title : option jsstring) (uri topicTitle : jsstring) : jsstring :=
  let cleanUri := normalizeUrl uri in
  if isBlankTitle title then
    fallbackTitle (includes (lit "youtube") cleanUri ||
                   includes (lit "youtu.be") cleanUri ||
                   includes (lit "vimeo") cleanUri) topicTitle
  else
    let clean := stripSiteSuffixes (trim (default [] title)) in
    let lower := toLowerCase clean in
    if isGenericTitle lower then
      fallbackTitle (includes (lit "youtube") cleanUri ||
                     includes (lit "youtu.be") cleanUri) topicTitle
    else clean.

(** *** The YouTube video id

    The pattern is: start of input, any run of code units ( .* ), then group 1,
    one of the alternatives  youtu.be/  v/  u/\w/  embed/  watch?v=  &v=  shorts/ ,
    then group 2, a run of code units other than # & ? , then any run ( .* ).
    The dot matches every code unit but a line terminator (also the dot of
    youtu.be); \w is a letter, a digit or an underscore. *)

Definition isLineTerminator (c : N) : bool :=
  (c =? 10) || (c =? 13) || (c =? 8232) || (c =? 8233).

Definition isWordChar (c : N) : bool :=
  ((65 <=? c) && (c <=? 90)) || ((97 <=? c) && (c <=? 122)) ||
  ((48 <=? c) && (c <=? 57)) || (c =? 95).

(** One code unit accepted by [ok], then the rest. *)
Definition oneUnit (ok : N -> bool) (s : jsstring) : option jsstring :=
  match s with
  | c :: s' => if ok c then Some s' else None
  | [] => None
  end.

(** [p], then one code unit accepted by [ok], then [q]. *)
Definition aroundUnit (p : jsstring) (ok : N -> bool) (q s : jsstring) : option jsstring :=
  match stripPrefix p s with
  | Some r => match oneUnit ok r with
              | Some r' => stripPrefix q r'
              | None => None
              end
  | None => None
  end.

(** The seven alternatives of group 1, in the order the pattern lists them;
    each returns the input that follows the alternative. *)
Definition videoAlternatives : list (jsstring -> option jsstring) :=
  [ aroundUnit (lit "youtu") (fun c => negb (isLineTerminator c)) (lit "be/");
    stripPrefix (lit "v/");
    aroundUnit (lit "u/") isWordChar (lit "/");
    stripPrefix (lit "embed/");
    stripPrefix (lit "watch?v=");
    stripPrefix (lit "&v=");
    stripPrefix (lit "shorts/") ].

Fixpoint firstMatch (alts : list (jsstring -> option jsstring)) (s : jsstring) : option jsstring :=
  match alts with
  | [] => None
  | alt :: alts' => match alt s with
                    | Some r => Some r
                    | None => firstMatch alts' s
                    end
  end.

(** The greedy [^.*] gives up one code unit at a time, so group 1 is tried at
    the rightmost position first; a position is reachable only while the code
    units before it are not line terminators.  What follows group 1 always
    matches, so the first success is the match. *)
Fixpoint afterVideoMarker (s : jsstring) : option jsstring :=
  match s with
  | [] => None
  | c :: s' =>
      match (if isLineTerminator c then None else afterVideoMarker s') with
      | Some r => Some r
      | None => firstMatch videoAlternatives s
      end
  end.

(** Group 2: the longest run of code units other than #, & and ?. *)
Definition isIdUnit (c : N) : bool :=
  negb ((c =? 35) || (c =? 38) || (c =? 63)).

Fixpoint takeRun (ok : N -> bool) (s : jsstring) : jsstring :=
  match s with
  | [] => []
  | c :: s' => if ok c then c :: takeRun ok s' else []
  end.

Definition getYouTubeVideoId (url : jsstring) : option jsstring :=
  match url with
  | [] => None
  | _ =>
      match afterVideoMarker url with
      | Some rest =>
          let id := takeRun isIdUnit rest in
          if Nat.eqb (length id) 11 then Some id else None
      | None => None
      end
  end.

Definition getYouTubeThumbnail (url : jsstring) : option jsstring :=
  match getYouTubeVideoId url with
  | Some id => Some (lit "https://img.youtube.com/vi/" ++ id ++ lit "/hqdefault.jpg")
  | None => None
  end.

(** *** [encodeURIComponent]

    The unreserved code units are kept; every other code point is written as
    the percent-escaped bytes of its UTF-8 encoding; an unpaired surrogate
    throws a [URIError] ([None]). *)

Definition isUriUnreserved (c : N) : bool :=
  ((65 <=? c) && (c <=? 90)) || ((97 <=? c) && (c <=? 122)) ||
  ((48 <=? c) && (c <=? 57)) ||
  (c =? 45) || (c =? 95) || (c =? 46) || (c =? 33) || (c =? 126) ||
  (c =? 42) || (c =? 39) || (c =? 40) || (c =? 41).

Definition isHighSurrogate (c : N) : bool := (55296 <=? c) && (c <=? 56319).
Definition isLowSurrogate (c : N) : bool := (56320 <=? c) && (c <=? 57343).

Definition hexDigit (d : N) : N := if d <? 10 then 48 + d else 55 + d.

Definition percentByte (b : N) : jsstring :=
  [37; hexDigit (b / 16); hexDigit (b mod 16)].

Definition utf8 (cp : N) : list N :=
  if cp <? 128 then [cp]
  else if cp <? 2048 then [192 + cp / 64; 128 + cp mod 64]
  else if cp <? 65536 then
    [224 + cp / 4096; 128 + (cp / 64) mod 64; 128 + cp mod 64]
  else
    [240 + cp / 262144; 128 + (cp / 4096) mod 64; 128 + (cp / 64) mod 64;
     128 + cp mod 64].

Definition percentEncode (cp : N) : jsstring :=
  List.concat (List.map percentByte (utf8 cp)).

Definition surrogatePair (hi lo : N) : N :=
  (hi - 55296) * 1024 + (lo - 56320) + 65536.

Fixpoint encodeURIComponent (s : jsstring) : option jsstring :=
  match s with
  | [] => Some []
  | c :: s' =>
      if isUriUnreserved c then cons c <$> encodeURIComponent s'
      else if isLowSurrogate c then None
      else if isHighSurrogate c then
        match s' with
        | d :: s'' =>
            if isLowSurrogate d
            then app (percentEncode (surrogatePair c d)) <$> encodeURIComponent s''
            else None
        | [] => None
        end
      else app (percentEncode c) <$> encodeURIComponent s'
  end.

(** ** Exceptions and the retry wrapper *)

(** The fields of a thrown value that [retryWithBackoff] reads: [status] and
    [code] hold a number, a string or nothing; [message] a string or nothing. *)
Inductive jsprim : Type :=
  | PUndefined
  | PNum (n : Z)
  | PStr (s : jsstring).

Record jserror : Type := mkError {
  err_status : jsprim;
  err_code : jsprim;
  err_message : option jsstring
}.

(** What an agent can throw: the value the generation call threw, an error
    the platform raised (its message is engine specific and not modelled), or
    [new Error(message)]. *)
Inductive exn : Type :=
  | Thrown (e : jserror)
  | TypeError
  | SyntaxError
  | URIError
  | Error (message : jsstring).

(** [v === 429] *)
Definition is429 (v : jsprim) : bool :=
  match v with
  | PNum n => Z.eqb n 429
  | _ => false
  end.

(** [error?.status === 429 || error?.code === 429 ||
     error?.message?.includes('429') || error?.status === 'RESOURCE_EXHAUSTED'] *)
Definition isRateLimit (error : jserror) : bool :=
  is429 (err_status error) ||
  is429 (err_code error) ||
  match err_message error with
  | Some m => includes (lit "429") m
  | None => false
  end ||
  match err_status error with
  | PStr s => jseq s (lit "RESOURCE_EXHAUSTED")
  | _ => false
  end.

(** A run of the wrapper: what it returns or throws, the delays it waited for
    (milliseconds, in order) and how many times it called [fn]. *)
Record RetryRun (T : Type) : Type := mkRun {
  outcome : jserror + T;
  waits : list Z;
  calls : nat
}.
Arguments mkRun {T} _ _ _.
Arguments outcome {T} _.
Arguments waits {T} _.
Arguments calls {T} _.

Definition afterWait {T : Type} (delay : Z) (r : RetryRun T) : RetryRun T :=
  mkRun (outcome r) (delay :: waits r) (S (calls r)).

(** [fn] is the operation: [fn i] is what its call number [i] (from 0) does,
    [inl e] when it throws [e].  [attempt] is the number of calls made so far. *)
Fixpoint retryFrom {T : Type} (fn : nat -> jserror + T) (attempt retries : nat)
    (delay : Z) : RetryRun T :=
  match fn attempt with
  | inr v => mkRun (inr v) [] 1
  | inl error =>
      match retries with
      | S retries' =>
          if isRateLimit error
          then afterWait delay (retryFrom fn (S attempt) retries' (delay * 2))
          else mkRun (inl error) [] 1
      | O => mkRun (inl error) [] 1
      end
  end.

Definition retryWithBackoff {T : Type} (fn : nat -> jserror + T)
    (retries : nat) (delay : Z) : RetryRun T :=
  retryFrom fn 0 retries delay.

(** The defaults [retries = 3], [delay = 2000]. *)
Definition retryWithBackoff_default {T : Type} (fn : nat -> jserror + T) : RetryRun T :=
  retryWithBackoff fn 3 2000.

(** ** Parsed JSON and the platform *)

Inductive json : Type :=
  | JNull
  | JBool (b : bool)
  | JNum (q : Q)
  | JStr (s : jsstring)
  | JArr (items : list json)
  | JObj (fields : list (jsstring * json)).

(** [obj.key] on an object: the value of the first field of that name. *)
Fixpoint getField (key : jsstring) (fields : list (jsstring * json)) : option json :=
  match fields with
  | [] => None
  | (k, v) :: fields' => if jseq k key then Some v else getField key fields'
  end.

(** [{...obj, key: v}]: the field is overwritten in place, or added last. *)
Fixpoint setField (key : jsstring) (v : json) (fields : list (jsstring * json))
    : list (jsstring * json) :=
  match fields with
  | [] => [(key, v)]
  | (k, w) :: fields' =>
      if jseq k key then (k, v) :: fields' else (k, w) :: setField key v fields'
  end.

(** The own enumerable properties [{...v}] copies from a parsed value: the
    fields of an object, the indexed elements of an array, the indexed code
    units of a string, and nothing otherwise. *)
Definition indexed {A : Type} (f : A -> json) (l : list A) : list (jsstring * json) :=
  imap (fun i x => (decimal i, f x)) l.

Definition spreadOf (v : json) : list (jsstring * json) :=
  match v with
  | JObj fields => fields
  | JArr items => indexed id items
  | JStr s => indexed (fun c => JStr [c]) s
  | _ => []
  end.

(** [!!v] *)
Definition truthy (v : json) : bool :=
  match v with
  | JNull => false
  | JBool b => b
  | JNum q => negb (Z.eqb (Qnum q) 0)
  | JStr s => match s with [] => false | _ => true end
  | JArr _ | JObj _ => true
  end.

Class Platform : Type := {
  (** [JSON.parse(text)]; [None] when it throws a [SyntaxError]. *)
  JSON_parse : jsstring -> option json;
  (** [new URL(uri).hostname]; [None] when the constructor throws a [TypeError]. *)
  URL_hostname : jsstring -> option jsstring;
  (** [v < 100] for a parsed value [v], with ECMAScript's coercions. *)
  lessThan100 : json -> bool;
  (** [Math.round((i / total) * 100)], computed in binary64. *)
  roundPercent : nat -> nat -> Z
}.

(** [v.key] for a key that no prototype defines: the field of an object,
    [undefined] ([None]) on every other value.  ([null.key] throws; the
    callers test for [JNull] first.) *)
Definition getProp (key : jsstring) (v : json) : option json :=
  match v with
  | JObj fields => getField key fields
  | _ => None
  end.

(** ** The response of a generation call *)

Record WebSource : Type := mkWeb {
  web_uri : option jsstring;
  web_title : option jsstring
}.

Record GroundingChunk : Type := mkChunk { web : option WebSource }.

Record GroundingMetadata : Type := mkMetadata {
  groundingChunks : option (list GroundingChunk)
}.

Record Candidate : Type := mkCandidate {
  groundingMetadata : option GroundingMetadata
}.

Record GenerateContentResponse : Type := mkResponse {
  text : option jsstring;
  candidates : option (list Candidate)
}.

(** The generation call as [retryWithBackoff] sees it: call number [i] either
    throws or returns a response. *)
Definition generation : Type := nat -> jserror + GenerateContentResponse.

(** ** Planner agent *)

Section Planner.
Context `{Platform}.

(** [{ ...top, id: `m${mIdx}-t${tIdx}` }] *)
Definition processTopic (mIdx tIdx : nat) (top : json) : json :=
  JObj (setField (lit "id")
          (JStr (lit "m" ++ decimal mIdx ++ lit "-t" ++ decimal tIdx))
          (spreadOf top)).

(** [{ ...mod, topics: mod.topics.map(..) }]: a [TypeError] when [mod] is
    [null] or [mod.topics] has no [map] method (is not an array). *)
Definition processModule (mIdx : nat) (mdl : json) : exn + json :=
  match mdl with
  | JNull => inl TypeError
  | _ =>
      match getProp (lit "topics") mdl with
      | Some (JArr topics) =>
          inr (JObj (setField (lit "topics")
                       (JArr (imap (processTopic mIdx) topics))
                       (spreadOf mdl)))
      | _ => inl TypeError
      end
  end.

(** [modules.map((mod, mIdx) => ..)] from index [mIdx] on: the first
    callback that throws ends the map. *)
Fixpoint processModules (mIdx : nat) (mods : list json) : exn + list json :=
  match mods with
  | [] => inr []
  | mdl :: mods' =>
      match processModule mIdx mdl with
      | inl e => inl e
      | inr m =>
          match processModules (S mIdx) mods' with
          | inl e => inl e
          | inr ms => inr (m :: ms)
          end
      end
  end.

(** Lines 147-171: from the response to the curriculum object.  [uuid] is
    what [crypto.randomUUID()] returns and [now] what [Date.now()] returns. *)
Definition planFromResponse (uuid : jsstring) (now : Z)
    (response : GenerateContentResponse) : exn + json :=
  match text response with
  | None | Some [] => inl (Error (lit "No response from Planner Agent"))
  | Some t =>
      match JSON_parse (stripFences t) with
      | None => inl SyntaxError
      | Some JNull => inl TypeError
      | Some data =>
          match getProp (lit "modules") data with
          | Some (JArr mods) =>
              match processModules 0 mods with
              | inl e => inl e
              | inr processedModules =>
                  inr (JObj (setField (lit "modules") (JArr processedModules)
                               (setField (lit "createdAt") (JNum (inject_Z now))
                                  (setField (lit "id") (JStr uuid)
                                     (spreadOf data)))))
              end
          | _ => inl TypeError
          end
      end
  end.

(** The [catch] logs and rethrows. *)
Definition runPlannerAgent (uuid : jsstring) (now : Z) (gen : generation) : exn + json :=
  match outcome (retryWithBackoff_default gen) with
  | inl error => inl (Thrown error)
  | inr response => planFromResponse uuid now response
  end.

End Planner.







(** ** Curator agent *)

Record ResourceLink : Type := mkResource {
  res_title : jsstring;
  res_uri : jsstring;
  res_source : option jsstring;
  res_thumbnail : option jsstring;
  (** a string in every resource the code builds; the enrichment step stores
      whatever truthy value the model's JSON holds *)
  res_description : json
}.

Record CuratedContent : Type := mkContent {
  summary : jsstring;
  resources : list ResourceLink
}.

Definition setDescription (d : json) (r : ResourceLink) : ResourceLink :=
  mkResource (res_title r) (res_uri r) (res_source r) (res_thumbnail r) d.

Definition setTitle (t : jsstring) (r : ResourceLink) : ResourceLink :=
  mkResource t (res_uri r) (res_source r) (res_thumbnail r) (res_description r).

(** [candidates?.[0]?.groundingMetadata?.groundingChunks || []] *)
Definition chunksOf (response : GenerateContentResponse) : list GroundingChunk :=
  match candidates response with
  | Some (c :: _) =>
      match groundingMetadata c with
      | Some meta => default [] (groundingChunks meta)
      | None => []
      end
  | _ => []
  end.

(** [chunk.web?.uri && chunk.web?.title]: the citation's URI and title when
    both are non-empty strings. *)
Definition cited (chunk : GroundingChunk) : option (jsstring * jsstring) :=
  match web chunk with
  | Some w =>
      match web_uri w, web_title w with
      | Some (c :: u), Some (d :: t) => Some (c :: u, d :: t)
      | _, _ => None
      end
  | None => None
  end.

(** [resources.find(r => normalizeUrl(r.uri) === key)]: the position of the
    first resource with that normalized URI. *)
Fixpoint findMatch (key : jsstring) (rs : list ResourceLink) : option nat :=
  match rs with
  | [] => None
  | r :: rs' =>
      if jseq (normalizeUrl (res_uri r)) key then Some 0%nat
      else S <$> findMatch key rs'
  end.

(** The test of [resources.filter(r => .. !isRoot)] on [r.uri]. *)
Definition isRootUri (uri : jsstring) : bool :=
  let lower := toLowerCase uri in
  jseq lower (lit "https://www.youtube.com/") ||
  jseq lower (lit "https://www.google.com/") ||
  jseq lower (lit "https://youtube.com/").

Definition isRoot (r : ResourceLink) : bool := isRootUri (res_uri r).

(** What [if (item.title && item.title.length < 100) match.title = cleanTitle(item.title, ..)]
    does for each value of [item.title]. *)
Inductive titleAction : Type :=
  | KeepTitle
  | NewTitle (t : jsstring)
  | TitleThrows.

Section Curator.
Context `{Platform}.

(** The callback of [groundingChunks.filter(..).map(..)]; [new URL(uri)]
    throws on a URI it cannot parse. *)
Definition toResource (topicTitle : jsstring) (c : jsstring * jsstring)
    : exn + ResourceLink :=
  let (uri, rawTitle) := c in
  match URL_hostname uri with
  | None => inl TypeError
  | Some hostname =>
      inr (mkResource (cleanTitle (Some rawTitle) uri topicTitle)
             uri
             (Some (removeFirst (lit "www.") hostname))
             (getYouTubeThumbnail uri)
             (JStr (lit "Recommended resource found via Google Search.")))
  end.

Fixpoint toResources (topicTitle : jsstring) (cs : list (jsstring * jsstring))
    : exn + list ResourceLink :=
  match cs with
  | [] => inr []
  | c :: cs' =>
      match toResource topicTitle c with
      | inl e => inl e
      | inr r =>
          match toResources topicTitle cs' with
          | inl e => inl e
          | inr rs => inr (r :: rs)
          end
      end
  end.

(** A string shorter than 100 code units is cleaned; on an array or an
    object that passes the length test [cleanTitle] throws ([title.trim] is
    not a function); numbers and booleans have no [length]. *)
Definition titleActionOf (title : option json) : titleAction :=
  match title with
  | Some (JStr t) =>
      if truthy (JStr t) && (length t <? 100)%nat then NewTitle t else KeepTitle
  | Some (JArr items) =>
      if (length items <? 100)%nat then TitleThrows else KeepTitle
  | Some (JObj fields) =>
      match getField (lit "length") fields with
      | Some len => if lessThan100 len then TitleThrows else KeepTitle
      | None => KeepTitle
      end
  | _ => KeepTitle
  end.

(** The body of [parsed.forEach((item) => ..)].  The second component is
    [true] when the body throws; what it assigned before stays assigned. *)
Definition enrichItem (topicTitle : jsstring) (rs : list ResourceLink) (item : json)
    : list ResourceLink * bool :=
  match item with
  | JNull => (rs, true)
  | JObj fields =>
      match getField (lit "uri") fields, getField (lit "description") fields with
      | Some (JStr u), Some description =>
          if truthy (JStr u) && truthy description then
            match findMatch (normalizeUrl u) rs with
            | Some i =>
                let rs1 := alter (setDescription description) i rs in
                match titleActionOf (getField (lit "title") fields) with
                | KeepTitle => (rs1, false)
                | NewTitle t =>
                    (alter (setTitle (cleanTitle (Some t) u topicTitle)) i rs1, false)
                | TitleThrows => (rs1, true)
                end
            | None => (rs, false)
            end
          else (rs, false)
      | _, _ =>
          (* a URI that is not a string is returned unchanged by
             [normalizeUrl] (its [catch]) and equals no normalized string *)
          (rs, false)
      end
  | _ => (rs, false)
  end.

Fixpoint enrichAll (topicTitle : jsstring) (rs : list ResourceLink) (items : list json)
    : list ResourceLink :=
  match items with
  | [] => rs
  | item :: items' =>
      let (rs', thrown) := enrichItem topicTitle rs item in
      if thrown then rs' else enrichAll topicTitle rs' items'
  end.

(** Step 2, inside its own [try]: any exception leaves the resources as they
    are at that point. *)
Definition enrich (topicTitle : jsstring) (response : GenerateContentResponse)
    (rs : list ResourceLink) : list ResourceLink :=
  match text response with
  | None | Some [] => rs
  | Some t =>
      match JSON_parse (stripFences t) with
      | Some (JArr items) => enrichAll topicTitle rs items
      | _ => rs
      end
  end.

(** Step 3: the two search links, when no resource was found. *)
Definition withFallback (topicTitle context : jsstring) (rs : list ResourceLink)
    : exn + list ResourceLink :=
  match rs with
  | _ :: _ => inr rs
  | [] =>
      match encodeURIComponent (topicTitle ++ lit " " ++ context ++ lit " tutorial") with
      | None => inl URIError
      | Some q =>
          match encodeURIComponent (topicTitle ++ lit " tutorial") with
          | None => inl URIError
          | Some qYt =>
              inr [ mkResource
                      (lit "Search Google for " ++ [34] ++ topicTitle ++ [34])
                      (lit "https://www.google.com/search?q=" ++ q)
                      (Some (lit "google.com"))
                      None
                      (JStr (lit "No specific verified links found. Click to search manually."));
                    mkResource
                      (lit "Search YouTube for " ++ [34] ++ topicTitle ++ [34])
                      (lit "https://www.youtube.com/results?search_query=" ++ qYt)
                      (Some (lit "youtube.com"))
                      None
                      (JStr (lit "Find video tutorials on YouTube.")) ]
          end
      end
  end.

(** Step 4 *)
Definition dropRoots (rs : list ResourceLink) : list ResourceLink :=
  if (2 <? length rs)%nat then List.filter (fun r => negb (isRoot r)) rs else rs.

(** The [try] block after the generation call returned [response]. *)
Definition curate (topicTitle context : jsstring) (response : GenerateContentResponse)
    : exn + CuratedContent :=
  match toResources topicTitle (omap cited (chunksOf response)) with
  | inl e => inl e
  | inr grounded =>
      match withFallback topicTitle context (enrich topicTitle response grounded) with
      | inl e => inl e
      | inr found =>
          let rs := dropRoots found in
          inr (mkContent
                 (lit "Here are " ++ decimal (length rs) ++
                  lit " curated resources for " ++ topicTitle ++ lit ".")
                 (take 5 rs))
      end
  end.

(** The [catch] block; [encodeURIComponent] can throw there as well. *)
Definition curatorFallback (topicTitle : jsstring) : exn + CuratedContent :=
  match encodeURIComponent topicTitle with
  | None => inl URIError
  | Some q =>
      inr (mkContent
             (lit "Could not curate specific resources due to an error.")
             [ mkResource
                 (lit "Search " ++ [34] ++ topicTitle ++ [34] ++ lit " on Google")
                 (lit "https://www.google.com/search?q=" ++ q)
                 (Some (lit "google.com"))
                 None
                 (JStr (lit "Manual search fallback.")) ])
  end.

(** The whole [try]: the wrapped generation call, then [curate]. *)
Definition tryCurate (topicTitle context : jsstring) (gen : generation)
    : exn + CuratedContent :=
  match outcome (retryWithBackoff_default gen) with
  | inl error => inl (Thrown error)
  | inr response => curate topicTitle context response
  end.

Definition runCuratorAgent (topicTitle context : jsstring) (gen : generation)
    : exn + CuratedContent :=
  match tryCurate topicTitle context gen with
  | inr content => inr content
  | inl _ => curatorFallback topicTitle
  end.

End Curator.

(** ** Orchestration controller ([App.tsx]) *)

Record Topic : Type := mkTopic {
  topic_id : jsstring;
  topic_title : jsstring;
  topic_description : jsstring;
  actionableStep : jsstring;
  curatedContent : option CuratedContent
}.

Record Module : Type := mkModule {
  module_title : jsstring;
  topics : list Topic
}.

Record Curriculum : Type := mkCurriculum {
  cur_id : jsstring;
  createdAt : Z;
  cur_title : jsstring;
  cur_description : jsstring;
  modules : list Module
}.

Inductive Stage : Type := idle | planning | curating | complete | error.

Record AgentStatus : Type := mkStatus {
  stage : Stage;
  message : jsstring;
  progress : Z;
  currentTask : option jsstring
}.

Inductive SkillLevel : Type := Beginner | Intermediate | Advanced.
Inductive TimeCommitment : Type := Low | Medium | High.

Record UserPreferences : Type := mkPrefs {
  goal : jsstring;
  skillLevel : SkillLevel;
  timeCommitment : TimeCommitment
}.

(** The module objects of the plan live in a heap, at the address that is
    their index in [plan.modules].  [enrichedModules = [...plan.modules]] and
    every published [modules: [...enrichedModules]] is a fresh array of the
    same objects, so a published document holds addresses: what a consumer
    reads from it is what the heap holds when it reads. *)
Record Document : Type := mkDocument {
  doc_plan : Curriculum;
  doc_modules : list nat
}.

Inductive event : Type :=
  | SetStatus (s : AgentStatus)
  | SetCurriculum (d : Document)
  | Sleep (ms : Z)
  | CallCurator (topicTitle context : jsstring).

Record Controller : Type := mkController {
  heap : list Module;
  trace : list event          (* oldest first *)
}.

Definition emit (e : event) (st : Controller) : Controller :=
  mkController (heap st) (trace st ++ [e]).

(** [{ ...topic, curatedContent }] *)
Definition withContent (topic : Topic) (content : CuratedContent) : Topic :=
  mkTopic (topic_id topic) (topic_title topic) (topic_description topic)
    (actionableStep topic) (Some content).

(** [module.topics[topicIndex] = topic] on the module object.  The index is a
    position of that array (it was produced by flattening it, see
    [flatten_lookup]), so the assignment never extends the array. *)
Definition setTopic (topicIndex : nat) (topic : Topic) (m : Module) : Module :=
  mkModule (module_title m) (<[topicIndex := topic]> (topics m)).

(** [plan.modules.forEach((mod, mIdx) => mod.topics.forEach((top, tIdx) =>
    allTopics.push({ topic: top, moduleIndex: mIdx, topicIndex: tIdx })))] *)
Definition flatten (mods : list Module) : list (Topic * nat * nat) :=
  List.concat
    (imap (fun mIdx m => imap (fun tIdx top => (top, mIdx, tIdx)) (topics m)) mods).

(** What a consumer reads from a published document. *)
Definition observe (h : list Module) (d : Document) : list Module :=
  omap (fun a => h !! a) (doc_modules d).

Fixpoint lastStatus (tr : list event) : option AgentStatus :=
  match tr with
  | [] => None
  | e :: tr' =>
      match lastStatus tr' with
      | Some s => Some s
      | None => match e with SetStatus s => Some s | _ => None end
      end
  end.

Fixpoint lastDocument (tr : list event) : option Document :=
  match tr with
  | [] => None
  | e :: tr' =>
      match lastDocument tr' with
      | Some d => Some d
      | None => match e with SetCurriculum d => Some d | _ => None end
      end
  end.

Definition curatorCalls (tr : list event) : list (jsstring * jsstring) :=
  omap (fun e => match e with CallCurator t c => Some (t, c) | _ => None end) tr.

Definition errorStatus : AgentStatus :=
  mkStatus error
    (lit "An error occurred while generating the curriculum. Please check your API key or try again.")
    0 None.

(** [`Course Goal: ${prefs.goal}. Module: ${enrichedModules[moduleIndex].title}`] *)
Definition curatorContext (prefs : UserPreferences) (m : Module) : jsstring :=
  lit "Course Goal: " ++ goal prefs ++ lit ". Module: " ++ module_title m.

Section Controller.
Context `{Platform}.

(** The outcome of call number [i] of [runCuratorAgent], on its arguments. *)
Variable curator : nat -> jsstring -> jsstring -> exn + CuratedContent.

(** The [for] loop from iteration [i] on; [todo] is [allTopics] from [i].
    The second component is the exception that left the loop, if any. *)
Fixpoint curationLoop (prefs : UserPreferences) (plan : Curriculum)
    (enrichedModules : list nat) (totalTopics i : nat)
    (todo : list (Topic * nat * nat)) (st : Controller) : Controller * option exn :=
  match todo with
  | [] => (st, None)
  | (topic, moduleIndex, topicIndex) :: todo' =>
      let st1 := if (0 <? i)%nat then emit (Sleep 6000) st else st in
      let st2 :=
        emit (SetStatus
                (mkStatus curating
                   (lit "Curating resources for Module " ++
                    decimal (moduleIndex + 1) ++ lit "...")
                   (roundPercent i totalTopics)
                   (Some (topic_title topic)))) st1 in
      (* enrichedModules[moduleIndex]: reading a property of [undefined]
         would throw; the index is always a position of the array *)
      match enrichedModules !! moduleIndex with
      | None => (st2, Some TypeError)
      | Some a =>
          match heap st2 !! a with
          | None => (st2, Some TypeError)
          | Some m =>
              let context := curatorContext prefs m in
              let st3 := emit (CallCurator (topic_title topic) context) st2 in
              match curator i (topic_title topic) context with
              | inl e => (st3, Some e)
              | inr content =>
                  let st4 :=
                    mkController
                      (alter (setTopic topicIndex (withContent topic content)) a (heap st3))
                      (trace st3) in
                  let st5 := emit (SetCurriculum (mkDocument plan enrichedModules)) st4 in
                  curationLoop prefs plan enrichedModules totalTopics (S i) todo' st5
              end
          end
      end
  end.

(** [planner] is the outcome of [await runPlannerAgent(prefs)], at its
    declared type. *)
Definition startGeneration (prefs : UserPreferences) (planner : exn + Curriculum)
    : Controller :=
  let st0 :=
    emit (SetStatus (mkStatus planning
                       (lit "Planner Agent is designing the syllabus...") 0 None))
      (mkController [] []) in
  match planner with
  | inl _ => emit (SetStatus errorStatus) st0
  | inr plan =>
      let refs := seq 0 (length (modules plan)) in
      let st1 :=
        emit (SetCurriculum (mkDocument plan refs))
          (mkController (modules plan) (trace st0)) in
      let st2 :=
        emit (SetStatus (mkStatus curating
                           (lit "Curator Agent is finding resources...") 0 None)) st1 in
      let allTopics := flatten (modules plan) in
      match curationLoop prefs plan refs (length allTopics) 0 allTopics st2 with
      | (st, None) =>
          emit (SetStatus (mkStatus complete (lit "Curriculum ready!") 100 None)) st
      | (st, Some _) => emit (SetStatus errorStatus) st
      end
  end.

End Controller.

(** ** What [App] shows ([App.tsx]) *)

(** The two state variables of the component. *)
Record AppState : Type := mkApp {
  app_status : AgentStatus;
  app_curriculum : option Document
}.

(** [useState({ stage: 'idle', message: '', progress: 0 })] and
    [useState(null)]. *)
Definition initialApp : AppState := mkApp (mkStatus idle [] 0 None) None.

(** [setStatus] and [setCurriculum] replace the variable they belong to. *)
Definition dispatch (a : AppState) (e : event) : AppState :=
  match e with
  | SetStatus s => mkApp s (app_curriculum a)
  | SetCurriculum d => mkApp (app_status a) (Some d)
  | Sleep _ | CallCurator _ _ => a
  end.

(** The state once the setter calls of a run have been applied, in order. *)
Definition appAfter (tr : list event) : AppState := fold_left dispatch tr initialApp.

(** The three conditional blocks of the [main] element: the input form (with
    the error box when the stage is [error]), the progress display, and the
    curriculum view. *)
Inductive Panel : Type :=
  | FormPanel (errorBox : option jsstring)
  | ProgressPanel (status : AgentStatus)
  | CurriculumPanel (curriculum : Document).

Definition render (a : AppState) : list Panel :=
  let status := app_status a in
  (* (stage === 'idle' || stage === 'error') && !curriculum && (..) *)
  (match stage status, app_curriculum a with
   | idle, None => [FormPanel None]
   | error, None => [FormPanel (Some (message status))]
   | _, _ => []
   end) ++
  (* (stage === 'planning' || stage === 'curating') && (..) *)
  (match stage status with
   | planning | curating => [ProgressPanel status]
   | _ => []
   end) ++
  (* stage === 'complete' && curriculum && (..) *)
  (match stage status, app_curriculum a with
   | complete, Some curriculum => [CurriculumPanel curriculum]
   | _, _ => []
   end).

(** The [onClick] of the button [Create New +]. *)
Definition createNew (a : AppState) : AppState := mkApp (mkStatus idle [] 0 None) None.

(** ** The input form ([components/InputForm.tsx]) *)

(** [handleSubmit]: [onSubmit] is called with the goal as it was typed when
    [goal.trim()] is not empty, and not called otherwise. *)
Definition handleSubmit (goal : jsstring) (skillLevel : SkillLevel)
    (timeCommitment : TimeCommitment) : option UserPreferences :=
  match trim goal with
  | [] => None
  | _ :: _ => Some (mkPrefs goal skillLevel timeCommitment)
  end.

(** ** The curriculum view ([components/CurriculumView.tsx]) *)

(** The four state variables of the component; a JavaScript [Set] is used
    through [has], [add], [delete] and [size] only. *)
Record ViewState : Type := mkView {
  expandedModules : gset nat;
  selectedTopicId : option jsstring;
  completedResources : gset jsstring;
  failedImages : gset jsstring
}.

(** [curriculum.modules[0]?.topics[0]?.id || null] *)
Definition firstTopicId (curriculum : Curriculum) : option jsstring :=
  match modules curriculum with
  | m :: _ =>
      match topics m with
      | t :: _ => match topic_id t with [] => None | _ :: _ => Some (topic_id t) end
      | [] => None
      end
  | [] => None
  end.

Definition initialView (curriculum : Curriculum) : ViewState :=
  mkView {[ 0%nat ]} (firstTopicId curriculum) ∅ ∅.

(** [const s = new Set(old); if (s.has(x)) s.delete(x); else s.add(x);] *)
Definition toggled `{Countable A} (x : A) (old : gset A) : gset A :=
  if decide (x ∈ old) then old ∖ {[ x ]} else old ∪ {[ x ]}.

Definition toggleModule (index : nat) (v : ViewState) : ViewState :=
  mkView (toggled index (expandedModules v)) (selectedTopicId v)
    (completedResources v) (failedImages v).

Definition toggleResource (uri : jsstring) (v : ViewState) : ViewState :=
  mkView (expandedModules v) (selectedTopicId v)
    (toggled uri (completedResources v)) (failedImages v).

Definition handleImageError (uri : jsstring) (v : ViewState) : ViewState :=
  mkView (expandedModules v) (selectedTopicId v) (completedResources v)
    (failedImages v ∪ {[ uri ]}).

(** [mod.topics.find(t => t.id === selectedTopicId)], module after module;
    the first topic found is returned. *)
Definition hasId (selected : option jsstring) (t : Topic) : bool :=
  match selected with
  | Some id => jseq (topic_id t) id
  | None => false
  end.

Fixpoint findTopic (selected : option jsstring) (mods : list Module) : option Topic :=
  match mods with
  | [] => None
  | m :: mods' =>
      match List.find (hasId selected) (topics m) with
      | Some topic => Some topic
      | None => findTopic selected mods'
      end
  end.

Definition getSelectedTopic (curriculum : Curriculum) (v : ViewState) : option Topic :=
  findTopic (selectedTopicId v) (modules curriculum).

(** [!!thumbnail || uri.includes('youtube.com') || uri.includes('youtu.be') ||
     uri.includes('vimeo.com') || uri.includes('shorts/')] *)
Definition isVideoResource (uri : jsstring) (thumbnail : option jsstring) : bool :=
  match thumbnail with Some (_ :: _) => true | _ => false end ||
  includes (lit "youtube.com") uri || includes (lit "youtu.be") uri ||
  includes (lit "vimeo.com") uri || includes (lit "shorts/") uri.

(** [getTopicProgress]: [{ current, total }] *)
Definition getTopicProgress (curriculum : Curriculum) (v : ViewState) : nat * nat :=
  match getSelectedTopic curriculum v with
  | Some activeTopic =>
      match curatedContent activeTopic with
      | Some content =>
          (length (List.filter (fun r => bool_decide (res_uri r ∈ completedResources v))
                     (resources content)),
           length (resources content))
      | None => (0, 0)%nat
      end
  | None => (0, 0)%nat
  end.

(** [topic.curatedContent?.resources?.length || 0] *)
Definition resourceCount (topic : Topic) : nat :=
  match curatedContent topic with
  | Some content => length (resources content)
  | None => 0
  end.

(** The two nested [reduce] calls of [getTotalProgress]. *)
Definition totalResources (mods : list Module) : nat :=
  fold_left
    (fun acc m => (acc + fold_left (fun tAcc topic => tAcc + resourceCount topic)
                           (topics m) 0)%nat)
    mods 0%nat.

Record Progress : Type := mkProgress {
  total : nat;
  completed : nat;
  percentage : Z
}.

Definition getTotalProgress `{Platform} (curriculum : Curriculum) (v : ViewState) : Progress :=
  let totalResources := totalResources (modules curriculum) in
  let completedCount := size (completedResources v) in
  mkProgress totalResources completedCount
    (if (0 <? totalResources)%nat then roundPercent completedCount totalResources else 0).

(** ** A reference platform for the examples

    [refPlatform] answers as the JavaScript platform does on the inputs the
    examples below use: JSON texts made of objects without repeated keys,
    arrays, strings without escapes and the three literals; plain lower-case
    http(s) URLs.  It is not used by any general theorem. *)

Fixpoint skipSpace (s : jsstring) : jsstring :=
  match s with
  | c :: s' =>
      if (c =? 32) || (c =? 9) || (c =? 10) || (c =? 13) then skipSpace s' else s
  | [] => []
  end.

(** After the opening quote: the string and what follows its closing quote. *)
Fixpoint refString (s : jsstring) : option (jsstring * jsstring) :=
  match s with
  | [] => None
  | c :: s' =>
      if c =? 34 then Some ([], s')
      else if (c =? 92) || (c <? 32) then None
      else match refString s' with
           | Some (str, r) => Some (c :: str, r)
           | None => None
           end
  end.

Fixpoint refValue (fuel : nat) (s : jsstring) : option (json * jsstring) :=
  match fuel with
  | O => None
  | S fuel' =>
      match skipSpace s with
      | [] => None
      | c :: r =>
          if c =? 34 then
            match refString r with
            | Some (str, r') => Some (JStr str, r')
            | None => None
            end
          else if c =? 91 then
            match skipSpace r with
            | 93 :: r' => Some (JArr [], r')
            | _ => match refItems fuel' r with
                   | Some (items, r') => Some (JArr items, r')
                   | None => None
                   end
            end
          else if c =? 123 then
            match skipSpace r with
            | 125 :: r' => Some (JObj [], r')
            | _ => match refMembers fuel' r with
                   | Some (fields, r') => Some (JObj fields, r')
                   | None => None
                   end
            end
          else
            match stripPrefix (lit "null") (c :: r) with
            | Some r' => Some (JNull, r')
            | None =>
                match stripPrefix (lit "true") (c :: r) with
                | Some r' => Some (JBool true, r')
                | None =>
                    match stripPrefix (lit "false") (c :: r) with
                    | Some r' => Some (JBool false, r')
                    | None => None
                    end
                end
            end
      end
  end
with refItems (fuel : nat) (s : jsstring) : option (list json * jsstring) :=
  match fuel with
  | O => None
  | S fuel' =>
      match refValue fuel' s with
      | Some (v, r) =>
          match skipSpace r with
          | 93 :: r' => Some ([v], r')
          | 44 :: r' =>
              match refItems fuel' r' with
              | Some (vs, r'') => Some (v :: vs, r'')
              | None => None
              end
          | _ => None
          end
      | None => None
      end
  end
with refMembers (fuel : nat) (s : jsstring) : option (list (jsstring * json) * jsstring) :=
  match fuel with
  | O => None
  | S fuel' =>
      match skipSpace s with
      | 34 :: r =>
          match refString r with
          | Some (key, r1) =>
              match skipSpace r1 with
              | 58 :: r2 =>
                  match refValue fuel' r2 with
                  | Some (v, r3) =>
                      match skipSpace r3 with
                      | 125 :: r' => Some ([(key, v)], r')
                      | 44 :: r' =>
                          match refMembers fuel' r' with
                          | Some (fs, r'') => Some ((key, v) :: fs, r'')
                          | None => None
                          end
                      | _ => None
                      end
                  | None => None
                  end
              | _ => None
              end
          | None => None
          end
      | _ => None
      end
  end.

Definition refParse (s : jsstring) : option json :=
  match refValue (2 * length s + 2) s with
  | Some (v, r) => match skipSpace r with [] => Some v | _ => None end
  | None => None
  end.

Definition isHostUnit (c : N) : bool :=
  ((97 <=? c) && (c <=? 122)) || ((48 <=? c) && (c <=? 57)) || (c =? 46) || (c =? 45).

Definition refHostname (uri : jsstring) : option jsstring :=
  match (match stripPrefix (lit "https://") uri with
         | Some r => Some r
         | None => stripPrefix (lit "http://") uri
         end) with
  | None => None
  | Some r =>
      let host := takeRun isHostUnit r in
      match host, drop (length host) r with
      | [], _ => None
      | _, [] => Some host
      | _, c :: _ => if (c =? 47) || (c =? 63) || (c =? 35) then Some host else None
      end
  end.

(** Exact on [null], booleans, numbers and objects; the comparison of a string
    or an array needs the string-to-number conversion, which the reference
    platform does not provide (no example evaluates it there). *)
Definition refLessThan100 (v : json) : bool :=
  match v with
  | JNull | JBool _ => true
  | JNum q => negb (Qle_bool 100 q)
  | _ => false
  end.

(** Rounding half up of the exact quotient. *)
Definition refRoundPercent (i total : nat) : Z :=
  ((200 * Z.of_nat i + Z.of_nat total) / (2 * Z.of_nat total))%Z.

Definition refPlatform : Platform :=
  {| JSON_parse := refParse;
     URL_hostname := refHostname;
     lessThan100 := refLessThan100;
     roundPercent := refRoundPercent |}.

(** ** Specification predicates and example data *)

(** A non-empty string whose first code unit is not white space. *)
Definition startsClean (s : jsstring) : Prop :=
  match s with
  | c :: _ => isWhiteSpace c = false
  | [] => False
  end.

(** The rate-limit signature in words: status or code 429, a message that
    contains [429], or the status [RESOURCE_EXHAUSTED]. *)
Definition RateLimitShaped (error : jserror) : Prop :=
  err_status error = PNum 429 \/
  err_code error = PNum 429 \/
  (exists m a b, err_message error = Some m /\ m = a ++ lit "429" ++ b) \/
  err_status error = PStr (lit "RESOURCE_EXHAUSTED").

(** A call that is refused twice with HTTP status 429 and then answers. *)
Definition twice429 (i : nat) : jserror + nat :=
  match i with
  | 0%nat => inl (mkError (PNum 429) PUndefined (Some (lit "Too Many Requests")))
  | 1%nat => inl (mkError PUndefined PUndefined (Some (lit "got status: 429 quota")))
  | _ => inr 7%nat
  end.

(** A string literal of JSON source: the text between double quotes. *)
Definition quoted (s : jsstring) : jsstring := [34] ++ s ++ [34].

(** The response text [{"modules":[]}], and a generation call that returns it. *)
Definition onlyModulesText : jsstring := lit "{" ++ quoted (lit "modules") ++ lit ":[]}".

Definition answers (response : GenerateContentResponse) : generation :=
  fun _ => inr response.

(** What the enrichment step never touches. *)
Definition link (r : ResourceLink) : jsstring * option jsstring * option jsstring :=
  (res_uri r, res_source r, res_thumbnail r).

Definition citation (uri title : string) : GroundingChunk :=
  mkChunk (Some (mkWeb (Some (lit uri)) (Some (lit title)))).

(** A response without text whose first candidate cites [chunks]. *)
Definition citing (chunks : list GroundingChunk) : GenerateContentResponse :=
  mkResponse None (Some [mkCandidate (Some (mkMetadata (Some chunks)))]).

(** A generation call that throws a network error at every call. *)
Definition networkDown : generation :=
  fun _ => inl (mkError PUndefined PUndefined (Some (lit "fetch failed"))).

Definition sqlContext : jsstring := lit "Course Goal: Learn SQL basics. Module: Queries".

(** The dedup key of every returned resource. *)
Definition resourceKeys (rs : list ResourceLink) : list jsstring :=
  List.map (fun r => normalizeUrl (res_uri r)) rs.


(** Group 1 of the video pattern, as a set of strings. *)
Inductive videoMarker : jsstring -> Prop :=
  | marker_youtu_be (c : N) :
      isLineTerminator c = false -> videoMarker (lit "youtu" ++ [c] ++ lit "be/")
  | marker_v : videoMarker (lit "v/")
  | marker_u (c : N) :
      isWordChar c = true -> videoMarker (lit "u/" ++ [c] ++ lit "/")
  | marker_embed : videoMarker (lit "embed/")
  | marker_watch : videoMarker (lit "watch?v=")
  | marker_amp_v : videoMarker (lit "&v=")
  | marker_shorts : videoMarker (lit "shorts/").

Definition noLineTerminator (s : jsstring) : Prop :=
  Forall (fun c => isLineTerminator c = false) s.

(** [url = pre ++ marker ++ post] is the split the pattern takes: [pre] holds
    no line terminator, and it is the longest such prefix that a marker
    follows. *)
Definition videoSplit (url pre post : jsstring) : Prop :=
  noLineTerminator pre /\
  (exists m, videoMarker m /\ url = pre ++ m ++ post) /\
  forall pre' m' post',
    noLineTerminator pre' -> videoMarker m' -> url = pre' ++ m' ++ post' ->
    (length pre' <= length pre)%nat.

(** [id] is the longest prefix of [post] made of code units that [ok] accepts. *)
Definition isRunOf (ok : N -> bool) (post id : jsstring) : Prop :=
  Forall (fun c => ok c = true) id /\
  exists rest, post = id ++ rest /\
    match rest with
    | c :: _ => ok c = false
    | [] => True
    end.

Definition homepageUrl : jsstring := lit "https://www.youtube.com/".
Definition watchUrl : jsstring := lit "https://www.youtube.com/watch?v=abc12345678".
Definition watchThumbnail : jsstring :=
  lit "https://img.youtube.com/vi/abc12345678/hqdefault.jpg".

Definition scenarioResponse : GenerateContentResponse :=
  citing [ citation "https://www.youtube.com/" "YouTube";
           citation "https://www.youtube.com/watch?v=abc12345678" "SQL joins explained";
           citation "https://a.com/sql-joins" "SQL joins - Wikipedia" ].

(** Flattening from module index [k] on. *)
Definition flattenFrom (k : nat) (mods : list Module) : list (Topic * nat * nat) :=
  List.concat
    (imap (fun mIdx m => imap (fun tIdx top => (top, k + mIdx, tIdx)%nat) (topics m)) mods).

(** The curator returns [c j] for topic number [j], for every [j] below [k]. *)
Definition succeedsBefore (curator : nat -> jsstring -> jsstring -> exn + CuratedContent)
    (prefs : UserPreferences) (plan : Curriculum) (c : nat -> CuratedContent) (k : nat)
    : Prop :=
  forall j t mi ti m0,
    (j < k)%nat ->
    flatten (modules plan) !! j = Some (t, mi, ti) ->
    modules plan !! mi = Some m0 ->
    curator j (topic_title t) (curatorContext prefs m0) = inr (c j).

(** The curator throws [e] for topic number [k]. *)
Definition throwsAt (curator : nat -> jsstring -> jsstring -> exn + CuratedContent)
    (prefs : UserPreferences) (plan : Curriculum) (k : nat) (e : exn) : Prop :=
  exists t mi ti m0,
    flatten (modules plan) !! k = Some (t, mi, ti) /\
    modules plan !! mi = Some m0 /\
    curator k (topic_title t) (curatorContext prefs m0) = inl e.

(** The heap holds one module per module of the plan, with its title and as
    many topics. *)
Definition sameShape (mods h : list Module) : Prop :=
  length h = length mods /\
  forall mi m0, mods !! mi = Some m0 ->
    exists m, h !! mi = Some m /\ module_title m = module_title m0 /\
              length (topics m) = length (topics m0).

(** The topics number [0] to [i - 1] hold their curated content. *)
Definition mergedUpTo (mods : list Module) (c : nat -> CuratedContent) (i : nat)
    (h : list Module) : Prop :=
  forall j t mi ti,
    (j < i)%nat -> flatten mods !! j = Some (t, mi, ti) ->
    exists m, h !! mi = Some m /\ topics m !! ti = Some (withContent t (c j)).

(** The state in which iteration [i] calls the curator. *)
Definition atCall `{Platform} (i total : nat) (t : Topic) (mi : nat) (m : Module)
    (prefs : UserPreferences) (st : Controller) : Controller :=
  emit (CallCurator (topic_title t) (curatorContext prefs m))
    (emit (SetStatus
             (mkStatus curating
                (lit "Curating resources for Module " ++ decimal (mi + 1) ++ lit "...")
                (roundPercent i total)
                (Some (topic_title t))))
       (if (0 <? i)%nat then emit (Sleep 6000) st else st)).

(** A run in which the exception is real: the second topic's title holds an
    unpaired surrogate and its generation call fails, so [runCuratorAgent]
    throws from its [catch] block. *)
Definition demoPrefs : UserPreferences := mkPrefs (lit "Learn SQL basics") Beginner Low.

Definition demoPlan : Curriculum :=
  mkCurriculum (lit "uuid-1") 1700000000000 (lit "SQL") (lit "A first course")
    [ mkModule (lit "Queries")
        [ mkTopic (lit "m0-t0") (lit "SQL joins") (lit "Joining tables")
            (lit "Write a join") None;
          mkTopic (lit "m0-t1") [55296] (lit "Grouping rows")
            (lit "Write a GROUP BY") None ] ].

Definition demoCurator (i : nat) (topicTitle context : jsstring) : exn + CuratedContent :=
  runCuratorAgent (H := refPlatform) topicTitle context
    (match i with
     | O => answers (citing [ citation "https://a.com/sql-joins" "SQL joins - Wikipedia" ])
     | _ => networkDown
     end).

Definition demoContent : CuratedContent :=
  mkContent (lit "Here are 1 curated resources for SQL joins.")
    [ mkResource (lit "SQL joins") (lit "https://a.com/sql-joins") (Some (lit "a.com")) None
        (JStr (lit "Recommended resource found via Google Search.")) ].

(** *** Titles *)

(** A string with at least one code unit that is not white space. *)
Definition notBlank (s : jsstring) : Prop := Exists (fun c => isWhiteSpace c = false) s.

(** The words [cleanTitle] treats as no title at all. *)
Definition placeholderTitles : list jsstring :=
  [ lit "youtube"; lit "youtube.com"; lit "video"; lit "article"; lit "home"; lit "index" ].

(** A resource with a title that is not blank and a description that is
    truthy. *)
Definition filled (r : ResourceLink) : Prop :=
  notBlank (res_title r) /\ truthy (res_description r) = true.

(** *** Links of the curator *)

(** The URIs that step 4 keeps: bare homepages are dropped when there are
    more than two URIs. *)
Definition keptUris (uris : list jsstring) : list jsstring :=
  if (2 <? length uris)%nat then List.filter (fun u => negb (isRootUri u)) uris else uris.

(** A code unit of a percent-encoded string: unreserved, or the percent sign. *)
Definition isEscapedUnit (c : N) : bool := isUriUnreserved c || (c =? 37).

(** A string of 16-bit code units. *)
Definition codeUnits (s : jsstring) : Prop := Forall (fun c => c < 65536) s.

(** A string of ASCII code units.  On such a string [toLowerCase] is
    JavaScript's: the letters A to Z are the only code units below 128 that
    its case mapping changes, and it maps them to a to z. *)
Definition asciiOnly (s : jsstring) : Prop := Forall (fun c => c < 128) s.

(** One of the two search URLs, with a query made of escaped code units. *)
Definition isSearchLink (uri : jsstring) : Prop :=
  exists q,
    (uri = lit "https://www.google.com/search?q=" ++ q \/
     uri = lit "https://www.youtube.com/results?search_query=" ++ q) /\
    Forall (fun c => isEscapedUnit c = true) q.

(** *** Fenced answers and video markers *)

(** Every code unit of [s] is white space. *)
Definition allWhiteSpace (s : jsstring) : Prop := Forall (fun c => isWhiteSpace c = true) s.

(** No code unit of [s] is a backtick. *)
Definition noBacktick (s : jsstring) : Prop := Forall (fun c => c <> 96) s.

(** The alternatives of the video pattern that are plain text, with
    [youtu.be/] for the alternative whose dot matches any code unit. *)
Definition literalMarkers : list jsstring :=
  [ lit "watch?v="; lit "youtu.be/"; lit "embed/"; lit "shorts/"; lit "v/"; lit "&v=" ].

(** No code unit of [s] is a slash. *)
Definition noSlash (s : jsstring) : Prop := Forall (fun c => c <> 47) s.

(** *** The plan the planner returns *)

(** [plan.modules[mIdx]] and [plan.modules[mIdx].topics[tIdx]] of a parsed
    value, when they exist. *)
Definition moduleAt (plan : json) (mIdx : nat) : option json :=
  match getProp (lit "modules") plan with
  | Some (JArr mods) => mods !! mIdx
  | _ => None
  end.

Definition topicAt (plan : json) (mIdx tIdx : nat) : option json :=
  match moduleAt plan mIdx with
  | Some mdl =>
      match getProp (lit "topics") mdl with
      | Some (JArr tops) => tops !! tIdx
      | _ => None
      end
  | None => None
  end.

(** The id the planner writes into the topic at position [(mIdx, tIdx)]. *)
Definition topicId (mIdx tIdx : nat) : jsstring :=
  lit "m" ++ decimal mIdx ++ lit "-t" ++ decimal tIdx.

(** A decimal digit. *)
Definition isDigit (c : N) : bool := (48 <=? c) && (c <=? 57).

(** *** Traces of the controller *)

(** The document every [setCurriculum] of a run carries: the plan's fields
    and the module objects of the plan. *)
Definition published (plan : Curriculum) : Document :=
  mkDocument plan (seq 0 (length (modules plan))).

(** The context string of a topic of module [moduleIndex], read off the plan. *)
Definition contextAt (prefs : UserPreferences) (plan : Curriculum) (moduleIndex : nat)
    : jsstring :=
  match modules plan !! moduleIndex with
  | Some m => curatorContext prefs m
  | None => []
  end.

(** The arguments of the call of the curator for an entry of [allTopics]:
    the title of the topic and the context string of its module. *)
Definition callFor (prefs : UserPreferences) (plan : Curriculum) (x : Topic * nat * nat)
    : jsstring * jsstring :=
  (topic_title x.1.1, contextAt prefs plan x.1.2).

(** What iteration [i] does up to its call of the curator. *)
Definition callEvents `{Platform} (prefs : UserPreferences) (plan : Curriculum)
    (total i : nat) (x : Topic * nat * nat) : list event :=
  let '(topic, moduleIndex, _) := x in
  (if (0 <? i)%nat then [Sleep 6000] else []) ++
  [ SetStatus (mkStatus curating
                 (lit "Curating resources for Module " ++ decimal (moduleIndex + 1) ++ lit "...")
                 (roundPercent i total)
                 (Some (topic_title topic)));
    CallCurator (topic_title topic) (contextAt prefs plan moduleIndex) ].

(** The events of the loop from iteration [i] on and the exception that ends
    it, if any, read off the plan alone. *)
Fixpoint loopEvents `{Platform}
    (curator : nat -> jsstring -> jsstring -> exn + CuratedContent)
    (prefs : UserPreferences) (plan : Curriculum) (total i : nat)
    (todo : list (Topic * nat * nat)) : list event * option exn :=
  match todo with
  | [] => ([], None)
  | x :: todo' =>
      match curator i (topic_title x.1.1) (contextAt prefs plan x.1.2) with
      | inl e => (callEvents prefs plan total i x, Some e)
      | inr _ =>
          let rest := loopEvents curator prefs plan total (S i) todo' in
          (callEvents prefs plan total i x ++ SetCurriculum (published plan) :: rest.1, rest.2)
      end
  end.

(** The whole trace of a run in which the curator returns for every topic. *)
Definition completeTrace `{Platform} (prefs : UserPreferences) (plan : Curriculum)
    : list event :=
  [ SetStatus (mkStatus planning (lit "Planner Agent is designing the syllabus...") 0 None);
    SetCurriculum (published plan);
    SetStatus (mkStatus curating (lit "Curator Agent is finding resources...") 0 None) ] ++
  List.concat
    (imap (fun i x =>
             callEvents prefs plan (length (flatten (modules plan))) i x ++
             [SetCurriculum (published plan)])
       (flatten (modules plan))) ++
  [ SetStatus (mkStatus complete (lit "Curriculum ready!") 100 None) ].

(** The waits of a trace, and the waits that precede each call of the
    curator since the call before it. *)
Definition sleeps (tr : list event) : list Z :=
  omap (fun e => match e with Sleep ms => Some ms | _ => None end) tr.

Fixpoint waitsBeforeCalls (pending : list Z) (tr : list event) : list (list Z) :=
  match tr with
  | [] => []
  | Sleep ms :: tr' => waitsBeforeCalls (pending ++ [ms]) tr'
  | CallCurator _ _ :: tr' => pending :: waitsBeforeCalls [] tr'
  | _ :: tr' => waitsBeforeCalls pending tr'
  end.

(** The documents of a trace, in the order they were published. *)
Definition documents (tr : list event) : list Document :=
  omap (fun e => match e with SetCurriculum d => Some d | _ => None end) tr.

(** *** The curriculum view *)

(** The topics of a curriculum, module after module, and the resources of
    its topics, in the same order. *)
Definition topicList (mods : list Module) : list Topic := List.concat (List.map topics mods).

Definition topicResources (topic : Topic) : list ResourceLink :=
  match curatedContent topic with
  | Some content => resources content
  | None => []
  end.

Definition resourceList (mods : list Module) : list ResourceLink :=
  List.concat (List.map topicResources (topicList mods)).

(** The view after the check boxes of the resources [clicks] were clicked,
    in that order. *)
Definition afterClicks (curriculum : Curriculum) (clicks : list jsstring) : ViewState :=
  fold_left (fun v uri => toggleResource uri v) clicks (initialView curriculum).

(** *** More example data *)

(** A plan with one topic, a curator whose generation call always fails,
    what that curator returns for the topic, and the curriculum the view is
    given at the end of the run. *)
Definition soloTopic : Topic :=
  mkTopic (lit "m0-t0") (lit "SQL joins") (lit "Joining tables") (lit "Write a join") None.

Definition soloPlan : Curriculum :=
  mkCurriculum (lit "uuid-2") 1700000000000 (lit "SQL") (lit "One topic")
    [ mkModule (lit "Queries") [ soloTopic ] ].

Definition soloCurator (i : nat) (topicTitle context : jsstring) : exn + CuratedContent :=
  runCuratorAgent (H := refPlatform) topicTitle context networkDown.

Definition soloContent : CuratedContent :=
  mkContent (lit "Could not curate specific resources due to an error.")
    [ mkResource (lit "Search " ++ [34] ++ lit "SQL joins" ++ [34] ++ lit " on Google")
        (lit "https://www.google.com/search?q=SQL%20joins")
        (Some (lit "google.com")) None (JStr (lit "Manual search fallback.")) ].

Definition soloCurriculum : Curriculum :=
  mkCurriculum (lit "uuid-2") 1700000000000 (lit "SQL") (lit "One topic")
    [ mkModule (lit "Queries") [ withContent soloTopic soloContent ] ].

(** A plan with two modules and three topics, and what the curator whose
    generation call always fails returns for each of them. *)
Definition duoPlan : Curriculum :=
  mkCurriculum (lit "uuid-3") 1700000000000 (lit "SQL") (lit "Two modules")
    [ mkModule (lit "Queries")
        [ mkTopic (lit "m0-t0") (lit "SQL joins") (lit "Joining tables")
            (lit "Write a join") None ];
      mkModule (lit "Aggregates")
        [ mkTopic (lit "m1-t0") (lit "Grouping rows") (lit "GROUP BY")
            (lit "Write a GROUP BY") None;
          mkTopic (lit "m1-t1") (lit "Counting rows") (lit "COUNT")
            (lit "Count the rows of a table") None ] ].

Definition searchContent (title query : string) : CuratedContent :=
  mkContent (lit "Could not curate specific resources due to an error.")
    [ mkResource (lit "Search " ++ [34] ++ lit title ++ [34] ++ lit " on Google")
        (lit "https://www.google.com/search?q=" ++ lit query)
        (Some (lit "google.com")) None (JStr (lit "Manual search fallback.")) ].

Definition duoContent (j : nat) : CuratedContent :=
  match j with
  | 0%nat => searchContent "SQL joins" "SQL%20joins"
  | 1%nat => searchContent "Grouping rows" "Grouping%20rows"
  | _ => searchContent "Counting rows" "Counting%20rows"
  end.

(** An answer of the planner's model with one module and one topic, and the
    plan that [runPlannerAgent] makes of it. *)
Definition planText : jsstring :=
  lit "{" ++ quoted (lit "title") ++ lit ":" ++ quoted (lit "SQL") ++ lit "," ++
  quoted (lit "modules") ++ lit ":[{" ++ quoted (lit "title") ++ lit ":" ++
  quoted (lit "Queries") ++ lit "," ++ quoted (lit "topics") ++ lit ":[{" ++
  quoted (lit "title") ++ lit ":" ++ quoted (lit "Joins") ++ lit "}]}]}".

Definition plannedJson : json :=
  JObj [ (lit "title", JStr (lit "SQL"));
         (lit "modules",
          JArr [ JObj [ (lit "title", JStr (lit "Queries"));
                        (lit "topics",
                         JArr [ JObj [ (lit "title", JStr (lit "Joins"));
                                       (lit "id", JStr (lit "m0-t0")) ] ]) ] ]);
         (lit "id", JStr (lit "uuid-1"));
         (lit "createdAt", JNum (inject_Z 1700000000000)) ].

(** * Properties *)


(** ** Strings *)

Lemma jseq_eq (a b : jsstring) : jseq a b = true <-> a = b.
Proof.
  revert b; induction a as [|x a IH]; intros [|y b]; simpl; split; try done.
  - intros [Hxy Hab]%andb_prop. apply N.eqb_eq in Hxy. apply IH in Hab. congruence.
  - intros [= -> ->]. rewrite N.eqb_refl. simpl. by apply IH.
Qed.

Lemma jseq_refl (a : jsstring) : jseq a a = true.
Proof. by apply jseq_eq. Qed.

Lemma jseq_neq (a b : jsstring) : jseq a b = false <-> a <> b.
Proof.
  split.
  - intros Hf Heq. apply jseq_eq in Heq. congruence.
  - intros Hne. destruct (jseq a b) eqn:E; [|done]. by apply jseq_eq in E.
Qed.

Lemma stripPrefix_Some (p s r : jsstring) : stripPrefix p s = Some r <-> s = p ++ r.
Proof.
  revert s; induction p as [|x p IH]; intros s; simpl.
  - split; [by intros [= ->] | by intros ->].
  - destruct s as [|y s]; [split; done|].
    destruct (N.eqb_spec x y) as [->|Hne].
    + rewrite IH. split; [by intros -> | by intros [= ->]].
    + split; [done | intros [= -> _]; done].
Qed.

Lemma stripPrefix_app (p r : jsstring) : stripPrefix p (p ++ r) = Some r.
Proof. by apply stripPrefix_Some. Qed.

Lemma stripPrefix_drop (p s r : jsstring) :
  stripPrefix p s = Some r -> r = drop (length p) s.
Proof. intros ->%stripPrefix_Some. by rewrite drop_app_length. Qed.

(** [stripSuffix] removes the suffix when it is there and nothing otherwise. *)
Lemma stripSuffix_cases (suffix s : jsstring) :
  (s = stripSuffix suffix s ++ suffix) \/
  (stripSuffix suffix s = s /\ forall x, s <> x ++ suffix).
Proof.
  unfold stripSuffix. destruct (stripPrefix (rev suffix) (rev s)) as [r|] eqn:E.
  - left. apply stripPrefix_Some in E.
    apply (f_equal (@rev N)) in E. rewrite rev_involutive, rev_app_distr, rev_involutive in E.
    done.
  - right. split; [done|]. intros x ->.
    rewrite rev_app_distr, stripPrefix_app in E. done.
Qed.

Lemma stripSuffix_app (suffix x : jsstring) : stripSuffix suffix (x ++ suffix) = x.
Proof.
  unfold stripSuffix. rewrite rev_app_distr, stripPrefix_app. apply rev_involutive.
Qed.

Lemma includes_spec (sub s : jsstring) :
  includes sub s = true <-> exists a b, s = a ++ sub ++ b.
Proof.
  induction s as [|c s IH].
  - simpl. rewrite orb_false_r. unfold startsWith. split.
    + destruct (stripPrefix sub []) as [r|] eqn:E; [|done].
      apply stripPrefix_Some in E. intros _. by exists [], r.
    + intros (a & b & E). destruct a; [|done]. simpl in E.
      rewrite E, stripPrefix_app. done.
  - simpl. rewrite orb_true_iff, IH. unfold startsWith. split.
    + intros [Hs|(a & b & ->)].
      * destruct (stripPrefix sub (c :: s)) as [r|] eqn:E; [|done].
        apply stripPrefix_Some in E. by exists [], r.
      * by exists (c :: a), b.
    + intros (a & b & E). destruct a as [|x a].
      * left. simpl in E. rewrite E, stripPrefix_app. done.
      * right. injection E as -> ->. by exists a, b.
Qed.

Lemma toLowerCase_app (a b : jsstring) : toLowerCase (a ++ b) = toLowerCase a ++ toLowerCase b.
Proof. apply map_app. Qed.

Lemma toLowerCase_fixed (s : jsstring) :
  toLowerCase s = s <-> Forall (fun c => lowerUnit c = c) s.
Proof.
  induction s as [|c s IH]; simpl.
  - split; [constructor | done].
  - split.
    + intros [= Hc Hs]. constructor; [done | by apply IH].
    + intros [Hc Hs]%Forall_cons. rewrite Hc. f_equal. by apply IH.
Qed.

(** ** [normalizeUrl] *)

Lemma lowerUnit_slash (c : N) : lowerUnit c = 47 <-> c = 47.
Proof.
  unfold lowerUnit. destruct ((65 <=? c) && (c <=? 90)) eqn:E; [|done].
  apply andb_prop in E as [E1%N.leb_le E2%N.leb_le]. lia.
Qed.

(** Lower-casing and stripping the trailing slash commute. *)
Lemma stripTrailingSlash_lower (s : jsstring) :
  stripTrailingSlash (toLowerCase s) = toLowerCase (stripTrailingSlash s).
Proof.
  unfold stripTrailingSlash.
  destruct (stripSuffix_cases (lit "/") s) as [E|[E Hno]].
  - rewrite E at 1. rewrite toLowerCase_app. apply stripSuffix_app.
  - rewrite E. destruct (stripSuffix_cases (lit "/") (toLowerCase s)) as [E'|[E' _]]; [|done].
    exfalso. destruct s as [|c s _] using rev_ind.
    { simpl in E'. by destruct (stripSuffix (lit "/") []). }
    rewrite toLowerCase_app in E'. apply app_inj_tail in E' as [_ Hc].
    apply lowerUnit_slash in Hc as ->. by apply (Hno s).
Qed.

(** A literal prefix is found in the lower-cased input exactly when it is
    found in the input, as long as the code units it is compared with are
    not upper-case letters. *)
Lemma stripPrefix_lower (p s : jsstring) :
  Forall (fun c => lowerUnit c = c) (take (length p) s) ->
  stripPrefix p (toLowerCase s) = toLowerCase <$> stripPrefix p s.
Proof.
  revert s; induction p as [|x p IH]; intros s Hs; [done|].
  destruct s as [|y s]; [done|]. simpl in *.
  apply Forall_cons in Hs as [Hy Hs]. rewrite Hy.
  destruct (N.eqb x y); [by apply IH | done].
Qed.

Lemma Forall_take_drop {A} (P : A -> Prop) (n k m : nat) (l : list A) :
  (k + m <= n)%nat -> Forall P (take n l) -> Forall P (take m (drop k l)).
Proof.
  intros Hle Hl. rewrite take_drop_commute. apply Forall_drop.
  replace (take (k + m) l) with (take (k + m) (take n l)).
  - by apply Forall_take.
  - rewrite take_take. f_equal. lia.
Qed.

Lemma stripScheme_drop (url : jsstring) :
  exists k, (k <= 8)%nat /\ stripScheme url = drop k url.
Proof.
  unfold stripScheme.
  destruct (stripPrefix (lit "https://") url) as [r|] eqn:E1.
  { apply stripPrefix_drop in E1. exists 8%nat. split; [lia | done]. }
  destruct (stripPrefix (lit "http://") url) as [r|] eqn:E2.
  { apply stripPrefix_drop in E2. exists 7%nat. split; [lia | done]. }
  exists 0%nat. split; [lia | done].
Qed.

Lemma stripScheme_lower (url : jsstring) :
  Forall (fun c => lowerUnit c = c) (take 12 url) ->
  stripScheme (toLowerCase url) = toLowerCase (stripScheme url).
Proof.
  intros Hl. unfold stripScheme.
  rewrite !stripPrefix_lower.
  - destruct (stripPrefix (lit "https://") url); [done|].
    destruct (stripPrefix (lit "http://") url); done.
  - apply (Forall_take_drop _ 12 0 7 url); [lia | done].
  - apply (Forall_take_drop _ 12 0 8 url); [lia | done].
Qed.

Lemma stripWww_lower (url : jsstring) :
  Forall (fun c => lowerUnit c = c) (take 12 url) ->
  stripWww (toLowerCase (stripScheme url)) = toLowerCase (stripWww (stripScheme url)).
Proof.
  intros Hl. unfold stripWww. rewrite stripPrefix_lower.
  - by destruct (stripPrefix (lit "www.") (stripScheme url)).
  - destruct (stripScheme_drop url) as (k & Hk & ->).
    apply (Forall_take_drop _ 12 k 4 url); [simpl; lia | done].
Qed.

(** The code agrees with the specification's rule on every URI whose first
    twelve code units (the room of [https://www.]) hold no upper-case letter. *)
Lemma normalizeUrl_refines_spec (url : jsstring) :
  toLowerCase (take 12 url) = take 12 url ->
  normalizeUrl url = normalizeUrl_spec url.
Proof.
  intros Hl%toLowerCase_fixed. unfold normalizeUrl, normalizeUrl_spec.
  rewrite stripScheme_lower, stripWww_lower by done.
  symmetry. apply stripTrailingSlash_lower.
Qed.

(** C6: on a URI with an upper-case scheme the code keeps the scheme, where
    the specification's rule (and the code's own comment, "ignores protocol
    and www") strips it: [normalizeUrl] is not that rule. *)
Lemma normalizeUrl_not_spec_rule :
  normalizeUrl (lit "HTTP://Example.com/X") = lit "http://example.com/x" /\
  normalizeUrl_spec (lit "HTTP://Example.com/X") = lit "example.com/x" /\
  ~ (forall url, normalizeUrl url = normalizeUrl_spec url).
Proof.
  split; [reflexivity|]. split; [reflexivity|].
  intros Hall. specialize (Hall (lit "HTTP://Example.com/X")). vm_compute in Hall.
  discriminate.
Qed.

(** What [normalizeUrl] does compute: it strips a leading lower-case
    [http://] or [https://], then a leading lower-case [www.], then one
    trailing slash, and lower-cases last.  On a URI of ASCII code units whose
    first twelve code units hold no upper-case letter this is the
    specification's rule, and the three URIs of the specification get the
    one key [example.com/x].  (Outside ASCII the case mapping of JavaScript
    depends on the neighbours of a code unit, and nothing is stated.) *)
Theorem normalizeUrl_on_lower_prefix :
  (forall url,
     normalizeUrl url = toLowerCase (stripTrailingSlash (stripWww (stripScheme url)))) /\
  (forall url,
     asciiOnly url ->
     toLowerCase (take 12 url) = take 12 url ->
     normalizeUrl url = normalizeUrl_spec url) /\
  normalizeUrl (lit "http://Example.com/X") = lit "example.com/x" /\
  normalizeUrl (lit "https://www.example.com/x") = lit "example.com/x" /\
  normalizeUrl (lit "example.com/x") = lit "example.com/x".
Proof.
  split; [done|]. split; [intros url _; apply normalizeUrl_refines_spec|].
  repeat split; reflexivity.
Qed.

Lemma normalizeUrl_on_lower_prefix_witness :
  asciiOnly (lit "https://www.Example.com/Docs/") /\
  toLowerCase (take 12 (lit "https://www.Example.com/Docs/")) =
    take 12 (lit "https://www.Example.com/Docs/") /\
  normalizeUrl (lit "https://www.Example.com/Docs/") =
    normalizeUrl_spec (lit "https://www.Example.com/Docs/") /\
  normalizeUrl (lit "https://www.Example.com/Docs/") = lit "example.com/docs".
Proof.
  assert (asciiOnly (lit "https://www.Example.com/Docs/")) as Hascii
    by (unfold asciiOnly; repeat constructor).
  split; [exact Hascii|]. split; [reflexivity|]. split; [|reflexivity].
  apply (proj1 (proj2 normalizeUrl_on_lower_prefix) _ Hascii). reflexivity.
Defined.

(** ** [cleanTitle] *)

Lemma trimStart_suffix (s : jsstring) : exists w, s = w ++ trimStart s.
Proof.
  induction s as [|c s [w IH]]; [by exists []|]. simpl.
  destruct (isWhiteSpace c).
  - exists (c :: w). simpl. by f_equal.
  - by exists [].
Qed.

Lemma trimStart_head (s : jsstring) : trimStart s = [] \/ startsClean (trimStart s).
Proof.
  induction s as [|c s IH]; [by left|]. simpl.
  destruct (isWhiteSpace c) eqn:E; [done | by right].
Qed.

Lemma trimEnd_prefix (s : jsstring) : trimEnd s `prefix_of` s.
Proof.
  unfold trimEnd. destruct (trimStart_suffix (rev s)) as [w E].
  exists (rev w). rewrite <- rev_app_distr, <- E. by rewrite rev_involutive.
Qed.

Lemma startsClean_prefix (p s : jsstring) :
  p `prefix_of` s -> p <> [] -> startsClean s -> startsClean p.
Proof. intros [k ->] Hp Hs. destruct p; done. Qed.

Lemma trim_startsClean (t : jsstring) : trim t <> [] -> startsClean (trim t).
Proof.
  intros Hne. unfold trim in *.
  destruct (trimStart_head t) as [E|Hc].
  - rewrite E in Hne. done.
  - eapply startsClean_prefix; [apply trimEnd_prefix | done | done].
Qed.

Lemma stripSuffix_startsClean (c : N) (suffix s : jsstring) :
  isWhiteSpace c = true ->
  startsClean s -> startsClean (stripSuffix (c :: suffix) s).
Proof.
  intros Hc Hs. destruct (stripSuffix_cases (c :: suffix) s) as [E|[E _]].
  - destruct (stripSuffix (c :: suffix) s) as [|x y] eqn:Ex.
    + rewrite E in Hs. simpl in Hs. congruence.
    + rewrite E in Hs. done.
  - by rewrite E.
Qed.

Lemma stripSiteSuffixes_startsClean (s : jsstring) :
  startsClean s -> startsClean (stripSiteSuffixes s).
Proof.
  intros Hs. unfold stripSiteSuffixes.
  repeat apply (stripSuffix_startsClean 32); done.
Qed.

Lemma fallbackTitle_space (isVideo : bool) (topicTitle : jsstring) :
  In 32 (toLowerCase (fallbackTitle isVideo topicTitle)).
Proof.
  unfold fallbackTitle. destruct isVideo; rewrite toLowerCase_app;
    apply in_or_app; right; vm_compute; tauto.
Qed.

(** A fallback title is generic only by starting with [http]: it holds a
    space, and the placeholder words do not. *)
Lemma isGenericTitle_fallback (isVideo : bool) (topicTitle : jsstring) :
  isGenericTitle (toLowerCase (fallbackTitle isVideo topicTitle)) =
  startsWith (lit "http") (toLowerCase (fallbackTitle isVideo topicTitle)).
Proof.
  pose proof (fallbackTitle_space isVideo topicTitle) as Hin.
  unfold isGenericTitle.
  generalize dependent (toLowerCase (fallbackTitle isVideo topicTitle)).
  intros l Hin.
  assert (Hno : forall w, ~ In 32 w -> jseq l w = false).
  { intros w Hw. apply jseq_neq. intros ->. done. }
  rewrite !Hno; [by rewrite !orb_false_r | | | | | |];
    vm_compute; intros Hx; repeat destruct Hx as [Hx|Hx]; try discriminate; done.
Qed.

Lemma fallbackTitle_nonempty (isVideo : bool) (topicTitle : jsstring) :
  fallbackTitle isVideo topicTitle <> [].
Proof.
  pose proof (fallbackTitle_space isVideo topicTitle) as Hin.
  intros E. rewrite E in Hin. done.
Qed.

(** The second pass over a title that the first steps leave alone. *)
Lemma cleanTitle_stable (r uri topicTitle : jsstring) :
  r <> [] -> trim r = r -> stripSiteSuffixes r = r ->
  cleanTitle (Some r) uri topicTitle =
  if isGenericTitle (toLowerCase r)
  then fallbackTitle (includes (lit "youtube") (normalizeUrl uri) ||
                      includes (lit "youtu.be") (normalizeUrl uri)) topicTitle
  else r.
Proof.
  intros Hne Ht Hs. unfold cleanTitle, isBlankTitle. simpl.
  rewrite Ht. destruct r as [|c r]; [done|]. by rewrite Hs.
Qed.

(** C7, counterexample: a title that ends in two site suffixes loses one of
    them at each pass. *)
Lemma cleanTitle_not_idempotent :
  cleanTitle (Some (lit "X - YouTube - YouTube")) (lit "https://a.com/x") (lit "T")
    = lit "X - YouTube" /\
  cleanTitle (Some (lit "X - YouTube")) (lit "https://a.com/x") (lit "T") = lit "X" /\
  ~ (forall title uri topicTitle,
       cleanTitle (Some (cleanTitle title uri topicTitle)) uri topicTitle
       = cleanTitle title uri topicTitle).
Proof.
  split; [reflexivity|]. split; [reflexivity|].
  intros Hall.
  specialize (Hall (Some (lit "X - YouTube - YouTube")) (lit "https://a.com/x") (lit "T")).
  vm_compute in Hall. discriminate.
Qed.

(** C7 (amended): cleaning a cleaned title changes nothing whenever the
    cleaned title has no surrounding white space, ends in none of the four
    site suffixes and, if it starts with [http], the URI is not a Vimeo link. *)
Theorem cleanTitle_idempotent_amended (title : option jsstring) (uri topicTitle : jsstring) :
  trim (cleanTitle title uri topicTitle) = cleanTitle title uri topicTitle ->
  stripSiteSuffixes (cleanTitle title uri topicTitle) = cleanTitle title uri topicTitle ->
  (startsWith (lit "http") (toLowerCase (cleanTitle title uri topicTitle)) = true ->
   includes (lit "vimeo") (normalizeUrl uri) = false) ->
  cleanTitle (Some (cleanTitle title uri topicTitle)) uri topicTitle
  = cleanTitle title uri topicTitle.
Proof.
  intros Htrim Hstrip Hhttp.
  set (yt := includes (lit "youtube") (normalizeUrl uri) ||
             includes (lit "youtu.be") (normalizeUrl uri)).
  assert (Hcases :
    (exists v, cleanTitle title uri topicTitle = fallbackTitle v topicTitle /\
               (v = yt \/ v = yt || includes (lit "vimeo") (normalizeUrl uri))) \/
    (startsClean (cleanTitle title uri topicTitle) /\
     isGenericTitle (toLowerCase (cleanTitle title uri topicTitle)) = false)).
  { unfold cleanTitle. destruct (isBlankTitle title) eqn:Hb.
    - left. eexists. split; [done | by right].
    - destruct (isGenericTitle _) eqn:Hg.
      + left. eexists. split; [done | by left].
      + right. split; [|done]. apply stripSiteSuffixes_startsClean, trim_startsClean.
        destruct title as [t|]; [|done]. simpl in *. by destruct (trim t). }
  destruct Hcases as [(v & Hr & Hv)|[Hclean Hgen]].
  - rewrite cleanTitle_stable; [| rewrite Hr; apply fallbackTitle_nonempty | done | done].
    rewrite Hr in Hhttp |- *. rewrite isGenericTitle_fallback.
    destruct (startsWith _ _) eqn:Hs; [|done].
    destruct Hv as [->| ->]; [done|]. rewrite Hhttp by done. by rewrite orb_false_r.
  - rewrite cleanTitle_stable; [by rewrite Hgen | | done | done].
    intros E. rewrite E in Hclean. done.
Qed.

Lemma cleanTitle_idempotent_amended_witness :
  cleanTitle
    (Some (cleanTitle (Some (lit "  Intro to SQL - YouTube "))
             (lit "https://www.youtube.com/watch?v=abc12345678") (lit "SQL basics")))
    (lit "https://www.youtube.com/watch?v=abc12345678") (lit "SQL basics")
  = lit "Intro to SQL".
Proof.
  rewrite (cleanTitle_idempotent_amended (Some (lit "  Intro to SQL - YouTube "))
             (lit "https://www.youtube.com/watch?v=abc12345678") (lit "SQL basics")).
  - reflexivity.
  - reflexivity.
  - reflexivity.
  - vm_compute. discriminate.
Defined.

(** ** [retryWithBackoff] *)

Lemma is429_spec (v : jsprim) : is429 v = true <-> v = PNum 429.
Proof.
  destruct v as [|n|s]; simpl; try (split; done).
  rewrite Z.eqb_eq. split; [by intros -> | by intros [= ->]].
Qed.

Lemma isRateLimit_spec (error : jserror) :
  isRateLimit error = true <-> RateLimitShaped error.
Proof.
  unfold isRateLimit, RateLimitShaped.
  rewrite !orb_true_iff, !is429_spec.
  split.
  - intros [[[Hs|Hc]|Hm]|Hr]; [by left | by right; left | |].
    + right; right; left. destruct (err_message error) as [m|]; [|done].
      apply includes_spec in Hm as (a & b & ->). by exists (a ++ lit "429" ++ b), a, b.
    + right; right; right. destruct (err_status error) as [|n|s]; try done.
      by apply jseq_eq in Hr as ->.
  - intros [Hs|[Hc|[(m & a & b & Hm & ->)|Hr]]].
    + by left; left; left.
    + by left; left; right.
    + left; right. rewrite Hm. apply includes_spec. by exists a, b.
    + right. rewrite Hr. apply jseq_refl.
Qed.

Lemma isRateLimit_false (error : jserror) :
  isRateLimit error = false <-> ~ RateLimitShaped error.
Proof.
  rewrite <- isRateLimit_spec. destruct (isRateLimit error); split; done.
Qed.

(** Whatever the wrapper throws is the value the last call of [fn] threw,
    and it is thrown either because it is not rate-limit shaped or because
    the budget is used up. *)
Lemma retryFrom_error {T} (fn : nat -> jserror + T) (retries attempt : nat) (delay : Z)
    (e : jserror) :
  outcome (retryFrom fn attempt retries delay) = inl e ->
  fn (attempt + calls (retryFrom fn attempt retries delay) - 1)%nat = inl e /\
  (~ RateLimitShaped e \/
   calls (retryFrom fn attempt retries delay) = S retries).
Proof.
  revert attempt delay; induction retries as [|r IH]; intros attempt delay; simpl.
  - destruct (fn attempt) as [e'|v] eqn:E; simpl; [|done].
    intros [= ->]. replace (attempt + 1 - 1)%nat with attempt by lia. by split; [|right].
  - destruct (fn attempt) as [e'|v] eqn:E; simpl; [|done].
    destruct (isRateLimit e') eqn:Hrl; simpl.
    + intros Ho. apply IH in Ho as [Hfn Hwhy].
      split.
      * rewrite <- Hfn. f_equal. 
        assert (1 <= calls (retryFrom fn (S attempt) r (delay * 2)))%nat; [|lia].
        clear. generalize (S attempt), (delay * 2)%Z. intros n d.
        destruct r; simpl; destruct (fn n); simpl; try lia;
          destruct (isRateLimit _); simpl; lia.
      * destruct Hwhy as [Hn|Hc]; [by left | right; by rewrite Hc].
    + intros [= ->]. replace (attempt + 1 - 1)%nat with attempt by lia.
      split; [done|]. left. by apply isRateLimit_false.
Qed.

(** C4: with the defaults, (1) two rate-limit failures followed by a success
    give that success after two retries, waiting 2000 ms and then 4000 ms;
    (2) a failure that is not rate-limit shaped is thrown at once, with no
    wait and no second call; (3) when every call fails with a rate-limit
    error, the fourth call's error is thrown as it is, after waits of 2000,
    4000 and 8000 ms; and (4) for every budget and delay, the value thrown
    is the one the last call threw. *)
Theorem retryWithBackoff_defaults {T : Type} (fn : nat -> jserror + T) :
  (forall e0 e1 v,
     fn 0%nat = inl e0 -> fn 1%nat = inl e1 -> fn 2%nat = inr v ->
     RateLimitShaped e0 -> RateLimitShaped e1 ->
     retryWithBackoff_default fn = mkRun (inr v) [2000; 4000]%Z 3) /\
  (forall e,
     fn 0%nat = inl e -> ~ RateLimitShaped e ->
     retryWithBackoff_default fn = mkRun (inl e) [] 1) /\
  (forall e0 e1 e2 e3,
     fn 0%nat = inl e0 -> fn 1%nat = inl e1 -> fn 2%nat = inl e2 -> fn 3%nat = inl e3 ->
     RateLimitShaped e0 -> RateLimitShaped e1 -> RateLimitShaped e2 ->
     retryWithBackoff_default fn = mkRun (inl e3) [2000; 4000; 8000]%Z 4) /\
  (forall retries delay e,
     outcome (retryWithBackoff fn retries delay) = inl e ->
     fn (calls (retryWithBackoff fn retries delay) - 1)%nat = inl e).
Proof.
  unfold retryWithBackoff_default, retryWithBackoff.
  split; [|split; [|split]].
  - intros e0 e1 v H0 H1 H2 R0%isRateLimit_spec R1%isRateLimit_spec.
    simpl. rewrite H0, R0. simpl. rewrite H1, R1. simpl. rewrite H2. reflexivity.
  - intros e H0 R%isRateLimit_false. simpl. rewrite H0, R. reflexivity.
  - intros e0 e1 e2 e3 H0 H1 H2 H3 R0%isRateLimit_spec R1%isRateLimit_spec
      R2%isRateLimit_spec.
    simpl. rewrite H0, R0. simpl. rewrite H1, R1. simpl. rewrite H2, R2. simpl.
    rewrite H3. reflexivity.
  - intros retries delay e Ho. by apply retryFrom_error in Ho as [Hfn _].
Qed.

Lemma retryWithBackoff_defaults_witness :
  retryWithBackoff_default twice429 = mkRun (inr 7%nat) [2000; 4000]%Z 3.
Proof.
  apply (proj1 (retryWithBackoff_defaults twice429)
           (mkError (PNum 429) PUndefined (Some (lit "Too Many Requests")))
           (mkError PUndefined PUndefined (Some (lit "got status: 429 quota")))
           7%nat).
  - reflexivity.
  - reflexivity.
  - reflexivity.
  - left. reflexivity.
  - right. right. left.
    exists (lit "got status: 429 quota"), (lit "got status: "), (lit " quota").
    split; reflexivity.
Defined.

(** ** Planner agent *)

Section PlannerProperties.
Context `{Platform}.





End PlannerProperties.


(** ** Curator agent *)

Lemma map_alter_same {A B} (f : A -> B) (g : A -> A) (i : nat) (l : list A) :
  (forall x, f (g x) = f x) -> List.map f (alter g i l) = List.map f l.
Proof.
  intros Hfg. revert i; induction l as [|x l IH]; intros [|i]; simpl; try done.
  - by rewrite Hfg.
  - f_equal. apply IH.
Qed.

Lemma lookup_filter_position {A} (P : A -> bool) (l : list A) (i : nat) (x : A) :
  l !! i = Some x -> P x = true ->
  List.filter P l !! length (List.filter P (take i l)) = Some x.
Proof.
  revert i; induction l as [|y l IH]; intros [|i] Hi Hx; simpl in *; try done.
  - injection Hi as ->. by rewrite Hx.
  - destruct (P y); simpl; by apply IH.
Qed.



Section CuratorProperties.
Context `{Platform}.

Lemma toResources_links (topicTitle : jsstring) (cs : list (jsstring * jsstring))
    (rs : list ResourceLink) :
  toResources topicTitle cs = inr rs ->
  List.map res_uri rs = List.map fst cs /\
  List.map res_thumbnail rs = List.map (fun c => getYouTubeThumbnail (fst c)) cs.
Proof.
  revert rs; induction cs as [|[uri rawTitle] cs IH]; intros rs; simpl.
  - by intros [= <-].
  - destruct (URL_hostname uri) as [hostname|]; [|done].
    destruct (toResources topicTitle cs) as [e|rs']; [done|].
    intros [= <-]. simpl. destruct (IH rs' eq_refl) as [-> ->]. done.
Qed.

Lemma toResources_parses (topicTitle : jsstring) (cs : list (jsstring * jsstring)) :
  Forall (fun c => is_Some (URL_hostname (fst c))) cs ->
  exists rs, toResources topicTitle cs = inr rs.
Proof.
  induction cs as [|[uri rawTitle] cs IH]; intros Hall; simpl; [by eexists|].
  apply Forall_cons in Hall as [[h Hh] Hall]. simpl in Hh. rewrite Hh.
  destruct (IH Hall) as [rs ->]. by eexists.
Qed.

Lemma enrichItem_links (topicTitle : jsstring) (rs : list ResourceLink) (item : json) :
  List.map link (enrichItem topicTitle rs item).1 = List.map link rs.
Proof.
  unfold enrichItem.
  destruct item as [|b|q|s|items|fields]; try done.
  destruct (getField (lit "uri") fields) as [[|b|q|u|items|fs]|]; try done.
  destruct (getField (lit "description") fields) as [description|]; try done.
  destruct (truthy (JStr u) && truthy description); [|done].
  destruct (findMatch (normalizeUrl u) rs) as [i|]; [|done].
  destruct (titleActionOf _); simpl; rewrite ?map_alter_same; done.
Qed.

Lemma enrichAll_links (topicTitle : jsstring) (rs : list ResourceLink) (items : list json) :
  List.map link (enrichAll topicTitle rs items) = List.map link rs.
Proof.
  revert rs; induction items as [|item items IH]; intros rs; simpl; [done|].
  pose proof (enrichItem_links topicTitle rs item) as Hi.
  destruct (enrichItem topicTitle rs item) as [rs' thrown]. simpl in Hi.
  destruct thrown; [done|]. by rewrite IH.
Qed.

Lemma enrich_link_list (topicTitle : jsstring) (response : GenerateContentResponse)
    (rs : list ResourceLink) :
  List.map link (enrich topicTitle response rs) = List.map link rs.
Proof.
  unfold enrich. destruct (text response) as [[|c t]|]; try done.
  destruct (JSON_parse _) as [[|b|q|s|items|fields]|]; try done.
  apply enrichAll_links.
Qed.

(** The enrichment step keeps the list of links: it adds no resource, drops
    none, and changes no URI, source or thumbnail. *)
Lemma enrich_links (topicTitle : jsstring) (response : GenerateContentResponse)
    (rs : list ResourceLink) :
  List.map link (enrich topicTitle response rs) = List.map link rs.
Proof. apply enrich_link_list. Qed.

Lemma enrich_uris (topicTitle : jsstring) (response : GenerateContentResponse)
    (rs : list ResourceLink) :
  List.map res_uri (enrich topicTitle response rs) = List.map res_uri rs.
Proof.
  pose proof (enrich_link_list topicTitle response rs) as E.
  apply (f_equal (List.map (fun l => l.1.1))) in E.
  by rewrite !List.map_map in E.
Qed.

Lemma enrich_thumbnails (topicTitle : jsstring) (response : GenerateContentResponse)
    (rs : list ResourceLink) :
  List.map res_thumbnail (enrich topicTitle response rs) = List.map res_thumbnail rs.
Proof.
  pose proof (enrich_link_list topicTitle response rs) as E.
  apply (f_equal (List.map (fun l => l.2))) in E.
  by rewrite !List.map_map in E.
Qed.

Lemma enrich_length (topicTitle : jsstring) (response : GenerateContentResponse)
    (rs : list ResourceLink) :
  length (enrich topicTitle response rs) = length rs.
Proof.
  pose proof (enrich_link_list topicTitle response rs) as E.
  apply (f_equal (@length _)) in E. by rewrite !length_map in E.
Qed.

(** When the grounding gave at least one citation, the [try] block returns
    the first five grounded resources that survive the root filter. *)
Lemma curate_grounded (topicTitle context : jsstring) (response : GenerateContentResponse)
    (rs : list ResourceLink) :
  toResources topicTitle (omap cited (chunksOf response)) = inr rs ->
  rs <> [] ->
  curate topicTitle context response =
  inr (mkContent
         (lit "Here are " ++
          decimal (length (dropRoots (enrich topicTitle response rs))) ++
          lit " curated resources for " ++ topicTitle ++ lit ".")
         (take 5 (dropRoots (enrich topicTitle response rs)))).
Proof.
  intros Hrs Hne. unfold curate. rewrite Hrs.
  pose proof (enrich_length topicTitle response rs) as Hlen.
  destruct (enrich topicTitle response rs) as [|r rs'] eqn:E; [|done].
  destruct rs; done.
Qed.

End CuratorProperties.

(** *** Runs on the reference platform *)

(** C1: three citations that are all bare platform homepages pass the
    fallback test (the list is not empty), are all removed by the root filter
    (the list is longer than two), and the curator returns no resource. *)
Lemma runCuratorAgent_empty_after_root_filter :
  runCuratorAgent (H := refPlatform) (lit "SQL joins") sqlContext
    (answers (citing [ citation "https://www.youtube.com/" "YouTube";
                       citation "https://www.google.com/" "Google";
                       citation "https://youtube.com/" "YouTube" ]))
  = inr (mkContent (lit "Here are 0 curated resources for SQL joins.") []).
Proof. vm_compute. reflexivity. Qed.

(** C2: a topic title that holds an unpaired surrogate makes
    [encodeURIComponent] throw inside the [catch] block, so when the
    generation call fails the exception leaves [runCuratorAgent]. *)
Lemma runCuratorAgent_throws_from_catch :
  forall (P : Platform) (context : jsstring),
    runCuratorAgent (H := P) [55296] context networkDown = inl URIError.
Proof. intros P context. reflexivity. Qed.

(** C8: with six grounded resources the summary counts six and five are
    returned. *)
Lemma runCuratorAgent_summary_counts_before_truncation :
  match runCuratorAgent (H := refPlatform) (lit "SQL joins") sqlContext
          (answers (citing [ citation "https://a.com/1" "One";
                             citation "https://a.com/2" "Two";
                             citation "https://a.com/3" "Three";
                             citation "https://a.com/4" "Four";
                             citation "https://a.com/5" "Five";
                             citation "https://a.com/6" "Six" ])) with
  | inr content =>
      summary content = lit "Here are 6 curated resources for SQL joins." /\
      length (resources content) = 5%nat
  | inl _ => False
  end.
Proof. vm_compute. split; reflexivity. Qed.


(** C10, counterexample: eight citations, the homepage and the watch URL
    last.  The homepage is filtered out, and the watch URL is cut off: only
    the first five resources are returned. *)
Lemma runCuratorAgent_truncates_watch_entry :
  match runCuratorAgent (H := refPlatform) (lit "SQL joins") sqlContext
          (answers (citing [ citation "https://a.com/1" "One";
                             citation "https://a.com/2" "Two";
                             citation "https://a.com/3" "Three";
                             citation "https://a.com/4" "Four";
                             citation "https://a.com/5" "Five";
                             citation "https://a.com/6" "Six";
                             citation "https://www.youtube.com/" "YouTube";
                             citation "https://www.youtube.com/watch?v=abc12345678"
                               "SQL joins explained" ])) with
  | inr content =>
      List.map res_uri (resources content)
        = [ lit "https://a.com/1"; lit "https://a.com/2"; lit "https://a.com/3";
            lit "https://a.com/4"; lit "https://a.com/5" ] /\
      ~ In (lit "https://www.youtube.com/watch?v=abc12345678")
          (List.map res_uri (resources content))
  | inl _ => False
  end.
Proof.
  vm_compute. split; [reflexivity|].
  intros Hin. repeat destruct Hin as [Hin|Hin]; try discriminate. done.
Qed.

(** *** Deduplication *)

Lemma stripSuffix_cons (suffix s : jsstring) (a : N) :
  (length suffix <= length s)%nat ->
  stripSuffix suffix (a :: s) = a :: stripSuffix suffix s.
Proof.
  intros Hlen. destruct (stripSuffix_cases suffix s) as [E|[E Hno]].
  - rewrite E at 1. by rewrite app_comm_cons, stripSuffix_app.
  - rewrite E. destruct (stripSuffix_cases suffix (a :: s)) as [E'|[E' _]]; [|done].
    exfalso. destruct (stripSuffix suffix (a :: s)) as [|x y].
    + simpl in E'. subst suffix. simpl in Hlen. lia.
    + injection E' as _ E'. by apply (Hno y).
Qed.

(** The two search links of the fallback have different keys. *)
Lemma fallback_keys_differ (q qYt : jsstring) :
  normalizeUrl (lit "https://www.google.com/search?q=" ++ q) <>
  normalizeUrl (lit "https://www.youtube.com/results?search_query=" ++ qYt).
Proof.
  assert (Hg : exists rest,
    normalizeUrl (lit "https://www.google.com/search?q=" ++ q) = 103 :: rest).
  { unfold normalizeUrl, stripTrailingSlash.
    change (stripWww (stripScheme (lit "https://www.google.com/search?q=" ++ q)))
      with (103 :: lit "oogle.com/search?q=" ++ q).
    rewrite stripSuffix_cons by (simpl; lia). by eexists. }
  assert (Hy : exists rest,
    normalizeUrl (lit "https://www.youtube.com/results?search_query=" ++ qYt) = 121 :: rest).
  { unfold normalizeUrl, stripTrailingSlash.
    change (stripWww (stripScheme (lit "https://www.youtube.com/results?search_query=" ++ qYt)))
      with (121 :: lit "outube.com/results?search_query=" ++ qYt).
    rewrite stripSuffix_cons by (simpl; lia). by eexists. }
  destruct Hg as [r1 ->], Hy as [r2 ->]. done.
Qed.

Section Deduplication.
Context `{Platform}.

Lemma curatorFallback_single (topicTitle : jsstring) (content : CuratedContent) :
  curatorFallback topicTitle = inr content ->
  exists r, resources content = [r].
Proof.
  unfold curatorFallback. destruct (encodeURIComponent topicTitle); [|done].
  intros [= <-]. by eexists.
Qed.

Lemma withFallback_empty_keys (topicTitle context : jsstring) (found : list ResourceLink) :
  withFallback topicTitle context [] = inr found ->
  length found = 2%nat /\ NoDup (resourceKeys found).
Proof.
  unfold withFallback.
  destruct (encodeURIComponent (topicTitle ++ _)) as [q|]; [|done].
  destruct (encodeURIComponent (topicTitle ++ _)) as [qYt|]; [|done].
  intros [= <-]. split; [done|]. unfold resourceKeys. simpl.
  apply NoDup_cons. split; [|apply NoDup_singleton].
  intros Hin%list_elem_of_singleton. by apply fallback_keys_differ in Hin.
Qed.



End Deduplication.


(** *** Thumbnails *)

Lemma takeRun_spec (ok : N -> bool) (post id : jsstring) :
  takeRun ok post = id <-> isRunOf ok post id.
Proof.
  unfold isRunOf. revert id; induction post as [|c post IH]; intros id; simpl.
  - split.
    + intros <-. split; [constructor|]. by exists [].
    + intros [_ (rest & E & _)]. symmetry in E. by apply app_eq_nil in E as [-> _].
  - destruct (ok c) eqn:Hc.
    + split.
      * intros <-. destruct (proj1 (IH (takeRun ok post)) eq_refl) as [Hall (rest & E & Hr)].
        split; [by constructor|]. exists rest. split; [|done]. simpl. by f_equal.
      * intros [Hall (rest & E & Hr)]. destruct id as [|x id].
        { simpl in E. subst rest. congruence. }
        injection E as <- E. apply Forall_cons in Hall as [_ Hall].
        f_equal. apply IH. split; [done|]. by exists rest.
    + split.
      * intros <-. split; [constructor|]. exists (c :: post). done.
      * intros [Hall (rest & E & Hr)]. destruct id as [|x id]; [done|].
        injection E as <- E. apply Forall_cons in Hall as [Hx _]. congruence.
Qed.

Lemma videoMarker_nonempty (m : jsstring) : videoMarker m -> m <> [].
Proof. by destruct 1. Qed.

Lemma aroundUnit_app (p q : jsstring) (ok : N -> bool) (c : N) (r : jsstring) :
  ok c = true -> aroundUnit p ok q (p ++ [c] ++ q ++ r) = Some r.
Proof.
  intros Hc. unfold aroundUnit. rewrite stripPrefix_app. simpl. rewrite Hc.
  apply stripPrefix_app.
Qed.

Lemma firstMatch_marker (m post : jsstring) :
  videoMarker m -> firstMatch videoAlternatives (m ++ post) = Some post.
Proof.
  destruct 1 as [c Hc| |c Hc| | | |]; try reflexivity.
  - rewrite <- !app_assoc.
    change (firstMatch videoAlternatives (lit "youtu" ++ [c] ++ lit "be/" ++ post))
      with (match aroundUnit (lit "youtu") (fun c => negb (isLineTerminator c)) (lit "be/")
                    (lit "youtu" ++ [c] ++ lit "be/" ++ post) with
            | Some r => Some r
            | None => firstMatch (tail videoAlternatives)
                        (lit "youtu" ++ [c] ++ lit "be/" ++ post)
            end).
    rewrite aroundUnit_app; [done | by rewrite Hc].
  - rewrite <- !app_assoc.
    change (firstMatch videoAlternatives (lit "u/" ++ [c] ++ lit "/" ++ post))
      with (match aroundUnit (lit "u/") isWordChar (lit "/")
                    (lit "u/" ++ [c] ++ lit "/" ++ post) with
            | Some r => Some r
            | None => firstMatch (drop 3 videoAlternatives)
                        (lit "u/" ++ [c] ++ lit "/" ++ post)
            end).
    by rewrite aroundUnit_app.
Qed.

Lemma aroundUnit_Some (p q : jsstring) (ok : N -> bool) (s r : jsstring) :
  aroundUnit p ok q s = Some r ->
  exists c, ok c = true /\ s = p ++ [c] ++ q ++ r.
Proof.
  unfold aroundUnit.
  destruct (stripPrefix p s) as [r1|] eqn:E1; [|done].
  destruct r1 as [|c r1]; [done|]. simpl.
  destruct (ok c) eqn:Hc; [|done].
  intros E2. apply stripPrefix_Some in E1, E2. subst. by exists c.
Qed.

Lemma firstMatch_inv (s post : jsstring) :
  firstMatch videoAlternatives s = Some post ->
  exists m, videoMarker m /\ s = m ++ post.
Proof.
  unfold videoAlternatives, firstMatch.
  destruct (aroundUnit (lit "youtu") _ (lit "be/") s) as [r|] eqn:E1.
  { intros [= ->]. apply aroundUnit_Some in E1 as (c & Hc & ->).
    exists (lit "youtu" ++ [c] ++ lit "be/"). split.
    - constructor. by destruct (isLineTerminator c).
    - by rewrite <- !app_assoc. }
  destruct (stripPrefix (lit "v/") s) as [r|] eqn:E2.
  { intros [= ->]. apply stripPrefix_Some in E2. eexists. split; [constructor 2 | done]. }
  destruct (aroundUnit (lit "u/") _ (lit "/") s) as [r|] eqn:E3.
  { intros [= ->]. apply aroundUnit_Some in E3 as (c & Hc & ->).
    exists (lit "u/" ++ [c] ++ lit "/"). split.
    - by constructor.
    - by rewrite <- !app_assoc. }
  destruct (stripPrefix (lit "embed/") s) as [r|] eqn:E4.
  { intros [= ->]. apply stripPrefix_Some in E4. eexists. split; [constructor 4 | done]. }
  destruct (stripPrefix (lit "watch?v=") s) as [r|] eqn:E5.
  { intros [= ->]. apply stripPrefix_Some in E5. eexists. split; [constructor 5 | done]. }
  destruct (stripPrefix (lit "&v=") s) as [r|] eqn:E6.
  { intros [= ->]. apply stripPrefix_Some in E6. eexists. split; [constructor 6 | done]. }
  destruct (stripPrefix (lit "shorts/") s) as [r|] eqn:E7; [|done].
  intros [= ->]. apply stripPrefix_Some in E7. eexists. split; [constructor 7 | done].
Qed.

(** At one position at most one marker matches. *)
Lemma videoMarker_unique (m m' post post' : jsstring) :
  videoMarker m -> videoMarker m' -> m ++ post = m' ++ post' -> post = post'.
Proof.
  intros Hm Hm' E.
  pose proof (firstMatch_marker m post Hm) as E1.
  pose proof (firstMatch_marker m' post' Hm') as E2.
  rewrite E in E1. congruence.
Qed.

Lemma afterVideoMarker_cons (c : N) (s : jsstring) :
  afterVideoMarker (c :: s) =
  match (if isLineTerminator c then None else afterVideoMarker s) with
  | Some r => Some r
  | None => firstMatch videoAlternatives (c :: s)
  end.
Proof. reflexivity. Qed.

Lemma afterVideoMarker_here (s r : jsstring) :
  firstMatch videoAlternatives s = Some r -> is_Some (afterVideoMarker s).
Proof.
  destruct s as [|c s]; [done|]. intros Hm.
  rewrite afterVideoMarker_cons, Hm. by destruct (if isLineTerminator c then None else afterVideoMarker s).
Qed.

Lemma afterVideoMarker_found (pre m post : jsstring) :
  noLineTerminator pre -> videoMarker m ->
  is_Some (afterVideoMarker (pre ++ m ++ post)).
Proof.
  intros Hpre Hm. induction pre as [|c pre IH].
  - simpl. apply (afterVideoMarker_here _ post). by apply firstMatch_marker.
  - apply Forall_cons in Hpre as [Hc Hpre].
    change ((c :: pre) ++ m ++ post) with (c :: pre ++ m ++ post).
    rewrite afterVideoMarker_cons, Hc.
    destruct (IH Hpre) as [r ->]. by eexists.
Qed.

Lemma afterVideoMarker_sound (s post : jsstring) :
  afterVideoMarker s = Some post -> exists pre, videoSplit s pre post.
Proof.
  revert post; induction s as [|c s IH]; intros post; [done|].
  rewrite afterVideoMarker_cons.
  destruct (isLineTerminator c) eqn:Hc.
  - (* no later position is reachable *)
    intros (m & Hm & E)%firstMatch_inv. exists []. split; [constructor|].
    split; [by exists m|].
    intros pre' m' post' Hpre' _ E'. destruct pre' as [|x pre']; [done|].
    injection E' as <- _. apply Forall_cons in Hpre' as [Hx _]. congruence.
  - destruct (afterVideoMarker s) as [r|] eqn:Hs.
    + intros [= ->]. destruct (IH post eq_refl) as (pre & Hpre & (m & Hm & E) & Hmax).
      exists (c :: pre). split; [by constructor|]. split.
      * exists m. split; [done|]. simpl. by f_equal.
      * intros pre' m' post' Hpre' Hm' E'. destruct pre' as [|x pre']; [simpl; lia|].
        injection E' as <- E'. apply Forall_cons in Hpre' as [_ Hpre'].
        simpl. apply le_n_S. by apply (Hmax pre' m' post').
    + intros (m & Hm & E)%firstMatch_inv. exists []. split; [constructor|].
      split; [by exists m|].
      intros pre' m' post' Hpre' Hm' E'. destruct pre' as [|x pre']; [done|].
      injection E' as <- E'. apply Forall_cons in Hpre' as [_ Hpre'].
      destruct (afterVideoMarker_found pre' m' post' Hpre' Hm') as [r Hr].
      rewrite <- E' in Hr. congruence.
Qed.

Lemma afterVideoMarker_complete (s pre post : jsstring) :
  videoSplit s pre post -> afterVideoMarker s = Some post.
Proof.
  intros (Hpre & (m & Hm & E) & Hmax).
  destruct (afterVideoMarker_found pre m post Hpre Hm) as [post0 H0].
  rewrite <- E in H0. rewrite H0. f_equal.
  destruct (afterVideoMarker_sound s post0 H0) as (pre0 & Hpre0 & (m0 & Hm0 & E0) & Hmax0).
  assert (length pre = length pre0) as Hlen.
  { apply Nat.le_antisymm; [by apply (Hmax0 pre m post) | by apply (Hmax pre0 m0 post0)]. }
  assert (pre = pre0 /\ m ++ post = m0 ++ post0) as [_ Em].
  { apply app_inj_1; [done | congruence]. }
  symmetry. by apply (videoMarker_unique m m0 post post0).
Qed.

(** The video id is the run after the split the pattern takes, when that run
    has eleven code units. *)
Lemma getYouTubeVideoId_spec (url id : jsstring) :
  getYouTubeVideoId url = Some id <->
  exists pre post,
    videoSplit url pre post /\ isRunOf isIdUnit post id /\ length id = 11%nat.
Proof.
  split.
  - unfold getYouTubeVideoId. destruct url as [|c url]; [done|].
    destruct (afterVideoMarker (c :: url)) as [post|] eqn:Ha; [|done].
    destruct (Nat.eqb_spec (length (takeRun isIdUnit post)) 11) as [Hlen|]; [|done].
    intros [= <-]. apply afterVideoMarker_sound in Ha as [pre Hsplit].
    exists pre, post. split; [done|]. split; [by apply takeRun_spec | done].
  - intros (pre & post & Hsplit & Hrun & Hlen).
    apply afterVideoMarker_complete in Hsplit. apply takeRun_spec in Hrun.
    unfold getYouTubeVideoId. destruct url as [|c url]; [done|].
    rewrite Hsplit, Hrun, Hlen. done.
Qed.

Lemma videoMarker_slash_or_v (m : jsstring) :
  videoMarker m -> In 47 m \/ exists a, m = a ++ lit "v=".
Proof.
  destruct 1 as [c Hc| |c Hc| | | |].
  - left. apply in_or_app. right. apply in_or_app. right. vm_compute. tauto.
  - left. vm_compute. tauto.
  - left. vm_compute. tauto.
  - left. vm_compute. tauto.
  - right. by exists (lit "watch?").
  - right. by exists (lit "&").
  - left. vm_compute. tauto.
Qed.

(** No marker of the pattern occurs in a string without [/] and without [v=]. *)
Lemma afterVideoMarker_none (post : jsstring) :
  noSlash post -> includes (lit "v=") post = false -> afterVideoMarker post = None.
Proof.
  induction post as [|c post IH]; [done|]. intros Hs Hv.
  rewrite afterVideoMarker_cons.
  assert (afterVideoMarker post = None) as ->.
  { apply IH; [by apply Forall_cons in Hs as [_ ?]|].
    simpl in Hv. by apply orb_false_elim in Hv as [_ ?]. }
  assert (firstMatch videoAlternatives (c :: post) = None) as ->; [|by destruct (isLineTerminator c)].
  destruct (firstMatch videoAlternatives (c :: post)) as [r|] eqn:E; [|done].
  exfalso. apply firstMatch_inv in E as (m & Hm & E).
  destruct (videoMarker_slash_or_v m Hm) as [Hin|[a ->]].
  - unfold noSlash in Hs. rewrite E, Forall_forall in Hs.
    apply (Hs 47); [|done]. apply list_elem_of_In, in_or_app. by left.
  - assert (includes (lit "v=") (c :: post) = true); [|congruence].
    apply includes_spec. exists a, r. rewrite E. by rewrite <- app_assoc.
Qed.

(** A link [https://vimeo.com/...] whose rest holds no [/] and no [v=]: no
    marker of the pattern occurs in it. *)
Lemma afterVideoMarker_vimeo (rest : jsstring) :
  noSlash rest -> includes (lit "v=") rest = false ->
  afterVideoMarker (lit "https://vimeo.com/" ++ rest) = None.
Proof.
  intros Hs Hv. pose proof (afterVideoMarker_none rest Hs Hv) as Hrest.
  change (lit "https://vimeo.com/" ++ rest)
    with (104 :: 116 :: 116 :: 112 :: 115 :: 58 :: 47 :: 47 :: 118 :: 105 :: 109 :: 101 ::
          111 :: 46 :: 99 :: 111 :: 109 :: 47 :: rest).
  rewrite !afterVideoMarker_cons, Hrest. reflexivity.
Qed.

Lemma filter_map_length {A B} (p : B -> bool) (f : A -> B) (l : list A) :
  length (List.filter (fun x => p (f x)) l) = length (List.filter p (List.map f l)).
Proof.
  induction l as [|x l IH]; simpl; [done|]. destruct (p (f x)); simpl; by rewrite IH.
Qed.

Lemma map_take {A B} (f : A -> B) (n : nat) (l : list A) :
  List.map f (take n l) = take n (List.map f l).
Proof. apply (fmap_take f). Qed.

Lemma lookup_map {A B} (f : A -> B) (l : list A) (i : nat) :
  List.map f l !! i = f <$> l !! i.
Proof. apply (list_lookup_fmap f). Qed.

Section Scenario.
Context `{Platform}.

(** The scenario of the specification, with what it leaves implicit: every
    citation with a URI and a title has a URI that [new URL] parses, there
    are more than two of them, and fewer than five citations that are not a
    bare homepage come before the watch URL. *)
Lemma scenario_watch_entry (topicTitle context : jsstring) (gen : generation)
    (response : GenerateContentResponse) (i : nat) (rawTitle : jsstring) :
  outcome (retryWithBackoff_default gen) = inr response ->
  Forall (fun c => is_Some (URL_hostname (fst c))) (omap cited (chunksOf response)) ->
  (2 < length (omap cited (chunksOf response)))%nat ->
  omap cited (chunksOf response) !! i = Some (watchUrl, rawTitle) ->
  (length (List.filter (fun c => negb (isRootUri (fst c)))
             (take i (omap cited (chunksOf response)))) < 5)%nat ->
  exists content,
    runCuratorAgent topicTitle context gen = inr content /\
    Forall (fun r => res_uri r <> homepageUrl) (resources content) /\
    exists j r, resources content !! j = Some r /\
                res_uri r = watchUrl /\ res_thumbnail r = Some watchThumbnail.
Proof.
  intros Hgen Hparse Hlen Hi Hbefore.
  set (cs := omap cited (chunksOf response)) in *.
  destruct (toResources_parses topicTitle cs Hparse) as [rs Hrs].
  pose proof (toResources_links topicTitle cs rs Hrs) as [Huris Hthumbs].
  assert (length rs = length cs) as Hlrs.
  { apply (f_equal (@length _)) in Huris. by rewrite !length_map in Huris. }
  assert (rs <> []) as Hne by (destruct rs; simpl in *; [lia | done]).
  set (rs' := enrich topicTitle response rs).
  assert (List.map res_uri rs' = List.map fst cs) as Huris'.
  { unfold rs'. by rewrite enrich_uris. }
  assert (List.map res_thumbnail rs' =
          List.map (fun c => getYouTubeThumbnail (fst c)) cs) as Hthumbs'.
  { unfold rs'. by rewrite enrich_thumbnails. }
  assert (dropRoots rs' = List.filter (fun r => negb (isRoot r)) rs') as Hdrop.
  { unfold dropRoots, rs'. rewrite enrich_length, Hlrs.
    destruct (Nat.ltb_spec 2 (length cs)); [done | lia]. }
  eexists. split.
  { unfold runCuratorAgent, tryCurate. rewrite Hgen.
    unfold cs in Hrs. rewrite (curate_grounded _ _ _ rs Hrs Hne). reflexivity. }
  simpl. fold rs'. rewrite Hdrop. split.
  - apply Forall_take, Forall_forall. intros r Hr%list_elem_of_In%filter_In.
    destruct Hr as [_ Hr]. intros E. unfold isRoot in Hr. rewrite E in Hr. done.
  - assert (exists r, rs' !! i = Some r /\ res_uri r = watchUrl /\
                      res_thumbnail r = Some watchThumbnail) as (r & Hr & Hu & Ht).
    { pose proof (f_equal (fun l => l !! i) Huris') as E1.
      pose proof (f_equal (fun l => l !! i) Hthumbs') as E2. simpl in E1, E2.
      rewrite !lookup_map, Hi in E1. rewrite !lookup_map, Hi in E2.
      destruct (rs' !! i) as [r|]; [|done].
      change (Some (res_uri r) = Some watchUrl) in E1.
      change (Some (res_thumbnail r) = Some (getYouTubeThumbnail watchUrl)) in E2.
      exists r. split; [done|]. split; [congruence|].
      injection E2 as ->. reflexivity. }
    exists (length (List.filter (fun r => negb (isRoot r)) (take i rs'))), r.
    split; [|done].
    assert (length (List.filter (fun r => negb (isRoot r)) (take i rs')) < 5)%nat as Hj.
    { unfold isRoot.
      rewrite (filter_map_length (fun u => negb (isRootUri u)) res_uri).
      rewrite map_take, Huris', <- map_take.
      by rewrite <- (filter_map_length (fun u => negb (isRootUri u)) fst). }
    rewrite lookup_take_lt by done.
    apply lookup_filter_position; [done|]. unfold isRoot. rewrite Hu. reflexivity.
Qed.

End Scenario.

(** C10 (amended): a thumbnail is derived for a URI exactly when the video
    pattern matches it with an id of eleven code units, and it is then
    [https://img.youtube.com/vi/{id}/hqdefault.jpg].  The host is not looked
    at: a Vimeo link [https://vimeo.com/{rest}] gets no thumbnail when
    [rest] holds no [/] and no [v=], and a Vimeo link that the pattern
    matches gets a YouTube thumbnail.
    In the scenario, when every citation has a URI that parses, more than two
    citations carry a URI and a title, and fewer than five of those before the
    watch URL are not a bare homepage, the result holds no homepage entry and
    holds the watch URL with its thumbnail. *)
Theorem thumbnail_and_scenario :
  (forall url t,
     getYouTubeThumbnail url = Some t <->
     exists pre post id,
       videoSplit url pre post /\ isRunOf isIdUnit post id /\ length id = 11%nat /\
       t = lit "https://img.youtube.com/vi/" ++ id ++ lit "/hqdefault.jpg") /\
  (forall rest,
     noSlash rest -> includes (lit "v=") rest = false ->
     getYouTubeThumbnail (lit "https://vimeo.com/" ++ rest) = None) /\
  getYouTubeThumbnail (lit "https://vimeo.com/76979871") = None /\
  getYouTubeThumbnail (lit "https://vimeo.com/76979871?h=1&v=abcdefghijk")
    = Some (lit "https://img.youtube.com/vi/abcdefghijk/hqdefault.jpg") /\
  (forall (P : Platform) topicTitle context gen response i rawTitle,
     outcome (retryWithBackoff_default gen) = inr response ->
     Forall (fun c => is_Some (URL_hostname (fst c))) (omap cited (chunksOf response)) ->
     (2 < length (omap cited (chunksOf response)))%nat ->
     omap cited (chunksOf response) !! i = Some (watchUrl, rawTitle) ->
     (length (List.filter (fun c => negb (isRootUri (fst c)))
                (take i (omap cited (chunksOf response)))) < 5)%nat ->
     exists content,
       runCuratorAgent topicTitle context gen = inr content /\
       Forall (fun r => res_uri r <> homepageUrl) (resources content) /\
       exists j r, resources content !! j = Some r /\
                   res_uri r = watchUrl /\ res_thumbnail r = Some watchThumbnail).
Proof.
  split; [|split; [|split; [reflexivity|split; [reflexivity|]]]].
  - intros url t. unfold getYouTubeThumbnail. split.
    + destruct (getYouTubeVideoId url) as [id|] eqn:E; [|done].
      intros [= <-]. apply getYouTubeVideoId_spec in E as (pre & post & Hs & Hr & Hl).
      by exists pre, post, id.
    + intros (pre & post & id & Hs & Hr & Hl & ->).
      assert (getYouTubeVideoId url = Some id) as ->; [|done].
      apply getYouTubeVideoId_spec. by exists pre, post.
  - intros rest Hs Hv. unfold getYouTubeThumbnail, getYouTubeVideoId.
    by rewrite (afterVideoMarker_vimeo rest Hs Hv).
  - intros P. apply scenario_watch_entry.
Qed.

Lemma thumbnail_and_scenario_witness :
  getYouTubeThumbnail (lit "https://vimeo.com/" ++ lit "76979871?h=5f3e9a") = None /\
  exists content,
    runCuratorAgent (H := refPlatform) (lit "SQL joins") sqlContext (answers scenarioResponse)
      = inr content /\
    Forall (fun r => res_uri r <> homepageUrl) (resources content) /\
    exists j r, resources content !! j = Some r /\
                res_uri r = watchUrl /\ res_thumbnail r = Some watchThumbnail.
Proof.
  split.
  - apply (proj1 (proj2 thumbnail_and_scenario) (lit "76979871?h=5f3e9a")).
    + by repeat constructor.
    + reflexivity.
  - apply (proj2 (proj2 (proj2 (proj2 thumbnail_and_scenario))) refPlatform (lit "SQL joins")
             sqlContext (answers scenarioResponse) scenarioResponse 1%nat
             (lit "SQL joins explained")).
    + reflexivity.
    + vm_compute. repeat constructor; by eexists.
    + vm_compute. lia.
    + reflexivity.
    + vm_compute. lia.
Defined.

(** *** What the curator does guarantee *)

Section CuratorGuarantees.
Context `{Platform}.

(** The curator returns (does not throw) whenever the topic title is
    well-formed UTF-16, that is, whenever [encodeURIComponent] accepts it. *)
Lemma runCuratorAgent_returns (topicTitle context : jsstring) (gen : generation)
    (q : jsstring) :
  encodeURIComponent topicTitle = Some q ->
  exists content, runCuratorAgent topicTitle context gen = inr content.
Proof.
  intros Hq. unfold runCuratorAgent.
  destruct (tryCurate topicTitle context gen) as [e|content]; [|by eexists].
  unfold curatorFallback. rewrite Hq. by eexists.
Qed.

(** When the generation call throws after its retries, the result is the one
    Google-search resource and the summary that says curation failed. *)
Lemma runCuratorAgent_generation_failure (topicTitle context : jsstring) (gen : generation)
    (error : jserror) (q : jsstring) :
  outcome (retryWithBackoff_default gen) = inl error ->
  encodeURIComponent topicTitle = Some q ->
  runCuratorAgent topicTitle context gen =
  inr (mkContent
         (lit "Could not curate specific resources due to an error.")
         [ mkResource
             (lit "Search " ++ [34] ++ topicTitle ++ [34] ++ lit " on Google")
             (lit "https://www.google.com/search?q=" ++ q)
             (Some (lit "google.com"))
             None
             (JStr (lit "Manual search fallback.")) ]).
Proof.
  intros Hgen Hq. unfold runCuratorAgent, tryCurate, curatorFallback.
  by rewrite Hgen, Hq.
Qed.

(** At most five resources are returned, whatever the input. *)
Lemma runCuratorAgent_at_most_five (topicTitle context : jsstring) (gen : generation)
    (content : CuratedContent) :
  runCuratorAgent topicTitle context gen = inr content ->
  (length (resources content) <= 5)%nat.
Proof.
  unfold runCuratorAgent.
  destruct (tryCurate topicTitle context gen) as [e|content'] eqn:Htry.
  - intros (r & ->)%curatorFallback_single. simpl. lia.
  - intros [= <-]. unfold tryCurate in Htry.
    destruct (outcome (retryWithBackoff_default gen)) as [error|response]; [done|].
    unfold curate in Htry.
    destruct (toResources _ _) as [e|grounded]; [done|].
    destruct (withFallback _ _ _) as [e|found]; [done|].
    injection Htry as <-. simpl. rewrite length_take. lia.
Qed.

(** Without a citation that has a URI and a title, the result is exactly the
    Google and YouTube search links, and the summary counts two. *)
Lemma runCuratorAgent_no_citation (topicTitle context : jsstring) (gen : generation)
    (response : GenerateContentResponse) (q qYt : jsstring) :
  outcome (retryWithBackoff_default gen) = inr response ->
  omap cited (chunksOf response) = [] ->
  encodeURIComponent (topicTitle ++ lit " " ++ context ++ lit " tutorial") = Some q ->
  encodeURIComponent (topicTitle ++ lit " tutorial") = Some qYt ->
  runCuratorAgent topicTitle context gen =
  inr (mkContent
         (lit "Here are 2 curated resources for " ++ topicTitle ++ lit ".")
         [ mkResource
             (lit "Search Google for " ++ [34] ++ topicTitle ++ [34])
             (lit "https://www.google.com/search?q=" ++ q)
             (Some (lit "google.com"))
             None
             (JStr (lit "No specific verified links found. Click to search manually."));
           mkResource
             (lit "Search YouTube for " ++ [34] ++ topicTitle ++ [34])
             (lit "https://www.youtube.com/results?search_query=" ++ qYt)
             (Some (lit "youtube.com"))
             None
             (JStr (lit "Find video tutorials on YouTube.")) ]).
Proof.
  intros Hgen Hnone Hq HqYt. unfold runCuratorAgent, tryCurate. rewrite Hgen.
  unfold curate. rewrite Hnone. simpl toResources. cbv beta iota.
  assert (enrich topicTitle response [] = []) as ->.
  { apply length_zero_iff_nil. by rewrite enrich_length. }
  unfold withFallback. rewrite Hq, HqYt. reflexivity.
Qed.

(** On the path that returns grounded resources, the number in the summary
    is the number of resources left by the root filter, before the list is cut
    to five; the two agree when at most five are left. *)
Lemma runCuratorAgent_summary_count (topicTitle context : jsstring) (gen : generation)
    (response : GenerateContentResponse) (rs : list ResourceLink) :
  outcome (retryWithBackoff_default gen) = inr response ->
  toResources topicTitle (omap cited (chunksOf response)) = inr rs ->
  rs <> [] ->
  exists content,
    runCuratorAgent topicTitle context gen = inr content /\
    summary content =
      lit "Here are " ++ decimal (length (dropRoots (enrich topicTitle response rs))) ++
      lit " curated resources for " ++ topicTitle ++ lit "." /\
    length (resources content) =
      Nat.min 5 (length (dropRoots (enrich topicTitle response rs))).
Proof.
  intros Hgen Hrs Hne. eexists. split.
  { unfold runCuratorAgent, tryCurate. rewrite Hgen.
    rewrite (curate_grounded _ _ _ rs Hrs Hne). reflexivity. }
  simpl. split; [done|]. by rewrite length_take.
Qed.

(** The returned list is empty only when more than two resources were
    grounded and every one of them is a bare platform homepage. *)
Lemma runCuratorAgent_empty_only_all_roots (topicTitle context : jsstring) (gen : generation)
    (content : CuratedContent) :
  runCuratorAgent topicTitle context gen = inr content ->
  resources content = [] ->
  exists response rs,
    outcome (retryWithBackoff_default gen) = inr response /\
    toResources topicTitle (omap cited (chunksOf response)) = inr rs /\
    (2 < length rs)%nat /\
    Forall (fun r => isRoot r = true) rs.
Proof.
  unfold runCuratorAgent.
  destruct (tryCurate topicTitle context gen) as [e|content'] eqn:Htry.
  { intros (r & ->)%curatorFallback_single. done. }
  intros [= <-] Hempty. unfold tryCurate in Htry.
  destruct (outcome (retryWithBackoff_default gen)) as [error|response]; [done|].
  exists response.
  destruct (toResources topicTitle (omap cited (chunksOf response))) as [e|rs] eqn:Hrs.
  { unfold curate in Htry. by rewrite Hrs in Htry. }
  exists rs. split; [done|]. split; [done|].
  destruct rs as [|r rs].
  - exfalso. unfold curate in Htry. rewrite Hrs in Htry.
    assert (enrich topicTitle response [] = []) as Hen.
    { apply length_zero_iff_nil. by rewrite enrich_length. }
    rewrite Hen in Htry.
    destruct (withFallback topicTitle context []) as [e|found] eqn:Hf; [done|].
    apply withFallback_empty_keys in Hf as [Hlen _].
    injection Htry as <-. simpl in Hempty. unfold dropRoots in Hempty.
    rewrite Hlen in Hempty. simpl in Hempty.
    destruct found as [|x [|y found]]; simpl in *; done.
  - rewrite (curate_grounded _ _ _ (r :: rs) Hrs) in Htry by done.
    injection Htry as <-. simpl in Hempty.
    pose proof (enrich_length topicTitle response (r :: rs)) as Hlen.
    pose proof (enrich_uris topicTitle response (r :: rs)) as Huris.
    set (rs' := enrich topicTitle response (r :: rs)) in *.
    assert (dropRoots rs' = []) as Hdrop.
    { destruct (dropRoots rs'); [done | by simpl in Hempty]. }
    unfold dropRoots in Hdrop. rewrite Hlen in Hdrop.
    destruct (Nat.ltb_spec 2 (length (r :: rs))) as [Hgt|Hle].
    + split; [done|].
      assert (Forall (fun u => isRootUri u = true) (List.map res_uri rs')) as Hall.
      { apply Forall_forall. intros u (x & -> & Hx%list_elem_of_In)%list_elem_of_fmap.
        destruct (isRootUri (res_uri x)) eqn:E; [done|]. exfalso.
        assert (In x (List.filter (fun r0 => negb (isRoot r0)) rs')) as Hin.
        { apply filter_In. split; [done|]. unfold isRoot. by rewrite E. }
        by rewrite Hdrop in Hin. }
      rewrite Huris in Hall. by apply Forall_fmap in Hall.
    + exfalso. rewrite Hdrop in Hlen. done.
Qed.

End CuratorGuarantees.

Lemma runCuratorAgent_returns_witness :
  exists content,
    runCuratorAgent (H := refPlatform) (lit "SQL joins") sqlContext networkDown = inr content.
Proof.
  apply (runCuratorAgent_returns (H := refPlatform) (lit "SQL joins") sqlContext networkDown
           (lit "SQL%20joins")).
  reflexivity.
Defined.

Lemma runCuratorAgent_generation_failure_witness :
  runCuratorAgent (H := refPlatform) (lit "SQL joins") sqlContext networkDown =
  inr (mkContent
         (lit "Could not curate specific resources due to an error.")
         [ mkResource
             (lit "Search " ++ [34] ++ lit "SQL joins" ++ [34] ++ lit " on Google")
             (lit "https://www.google.com/search?q=" ++ lit "SQL%20joins")
             (Some (lit "google.com"))
             None
             (JStr (lit "Manual search fallback.")) ]).
Proof.
  apply (runCuratorAgent_generation_failure (H := refPlatform) (lit "SQL joins") sqlContext
           networkDown (mkError PUndefined PUndefined (Some (lit "fetch failed")))
           (lit "SQL%20joins")).
  - reflexivity.
  - reflexivity.
Defined.

Lemma runCuratorAgent_at_most_five_witness :
  (length
     (resources
        (mkContent (lit "Here are 1 curated resources for SQL joins.")
           [ mkResource (lit "SQL joins") (lit "https://a.com/sql-joins")
               (Some (lit "a.com")) None
               (JStr (lit "Recommended resource found via Google Search.")) ])) <= 5)%nat.
Proof.
  apply (runCuratorAgent_at_most_five (H := refPlatform) (lit "SQL joins") sqlContext
           (answers (citing [ citation "https://a.com/sql-joins" "SQL joins - Wikipedia" ]))).
  vm_compute. reflexivity.
Defined.

Lemma runCuratorAgent_no_citation_witness :
  exists content,
    runCuratorAgent (H := refPlatform) (lit "SQL joins") (lit "SQL")
      (answers (citing [])) = inr content /\
    List.map res_uri (resources content) =
      [ lit "https://www.google.com/search?q=SQL%20joins%20SQL%20tutorial";
        lit "https://www.youtube.com/results?search_query=SQL%20joins%20tutorial" ].
Proof.
  eexists. split.
  - apply (runCuratorAgent_no_citation (H := refPlatform) (lit "SQL joins") (lit "SQL")
             (answers (citing [])) (citing [])
             (lit "SQL%20joins%20SQL%20tutorial") (lit "SQL%20joins%20tutorial"));
      reflexivity.
  - reflexivity.
Defined.

Lemma runCuratorAgent_empty_only_all_roots_witness :
  exists response rs,
    outcome (retryWithBackoff_default
               (answers (citing [ citation "https://www.youtube.com/" "YouTube";
                                  citation "https://www.google.com/" "Google";
                                  citation "https://youtube.com/" "YouTube" ])))
      = inr response /\
    toResources (H := refPlatform) (lit "SQL joins") (omap cited (chunksOf response))
      = inr rs /\
    (2 < length rs)%nat /\
    Forall (fun r => isRoot r = true) rs.
Proof.
  apply (runCuratorAgent_empty_only_all_roots (H := refPlatform) (lit "SQL joins") sqlContext
           (answers (citing [ citation "https://www.youtube.com/" "YouTube";
                              citation "https://www.google.com/" "Google";
                              citation "https://youtube.com/" "YouTube" ]))
           (mkContent (lit "Here are 0 curated resources for SQL joins.") [])).
  - vm_compute. reflexivity.
  - reflexivity.
Defined.

Lemma runCuratorAgent_summary_count_witness :
  exists content,
    runCuratorAgent (H := refPlatform) (lit "SQL joins") sqlContext
      (answers (citing [ citation "https://a.com/sql-joins" "SQL joins - Wikipedia" ]))
      = inr content /\
    summary content = lit "Here are 1 curated resources for SQL joins." /\
    length (resources content) = 1%nat.
Proof.
  apply (runCuratorAgent_summary_count (H := refPlatform) (lit "SQL joins") sqlContext
           (answers (citing [ citation "https://a.com/sql-joins" "SQL joins - Wikipedia" ]))
           (citing [ citation "https://a.com/sql-joins" "SQL joins - Wikipedia" ])
           [ mkResource (lit "SQL joins") (lit "https://a.com/sql-joins")
               (Some (lit "a.com")) None
               (JStr (lit "Recommended resource found via Google Search.")) ]).
  - reflexivity.
  - reflexivity.
  - discriminate.
Defined.

(** ** Orchestration controller *)

Lemma lastStatus_emit (tr : list event) (e : event) :
  lastStatus (tr ++ [e]) =
  match e with SetStatus s => Some s | _ => lastStatus tr end.
Proof.
  induction tr as [|x tr IH]; simpl.
  - by destruct e.
  - rewrite IH. by destruct e.
Qed.

Lemma lastDocument_emit (tr : list event) (e : event) :
  lastDocument (tr ++ [e]) =
  match e with SetCurriculum d => Some d | _ => lastDocument tr end.
Proof.
  induction tr as [|x tr IH]; simpl.
  - by destruct e.
  - rewrite IH. by destruct e.
Qed.

Lemma curatorCalls_emit (tr : list event) (e : event) :
  curatorCalls (tr ++ [e]) =
  curatorCalls tr ++ match e with CallCurator t c => [(t, c)] | _ => [] end.
Proof.
  unfold curatorCalls. rewrite omap_app. f_equal. by destruct e.
Qed.

Lemma curatorCalls_app (a b : list event) :
  curatorCalls (a ++ b) = curatorCalls a ++ curatorCalls b.
Proof. unfold curatorCalls. by rewrite omap_app. Qed.

Lemma flattenFrom_cons (k : nat) (m : Module) (mods : list Module) :
  flattenFrom k (m :: mods) =
  imap (fun tIdx top => (top, k, tIdx)) (topics m) ++ flattenFrom (S k) mods.
Proof.
  unfold flattenFrom. simpl. f_equal.
  - apply imap_ext. intros i x _. by rewrite Nat.add_0_r.
  - f_equal. apply imap_ext. intros i x _. simpl.
    apply imap_ext. intros j y _. f_equal. f_equal. lia.
Qed.

Lemma flatten_flattenFrom (mods : list Module) : flatten mods = flattenFrom 0 mods.
Proof. reflexivity. Qed.

(** Every entry of the flattened list names a position of the plan and holds
    the topic found there. *)
Lemma flattenFrom_lookup (k : nat) (mods : list Module) (j : nat)
    (t : Topic) (mi ti : nat) :
  flattenFrom k mods !! j = Some (t, mi, ti) ->
  (k <= mi)%nat /\
  exists m, mods !! (mi - k)%nat = Some m /\ topics m !! ti = Some t.
Proof.
  revert k j; induction mods as [|m mods IH]; intros k j; [done|].
  rewrite flattenFrom_cons.
  destruct (decide (j < length (imap (fun tIdx top => (top, k, tIdx)) (topics m)))%nat)
    as [Hlt|Hge].
  - rewrite lookup_app_l by done. rewrite list_lookup_imap.
    destruct (topics m !! j) as [t'|] eqn:E; [|done]. intros [= -> <- <-].
    split; [lia|]. exists m. by rewrite Nat.sub_diag.
  - rewrite lookup_app_r by lia. intros [Hle (m' & Hm & Ht)]%IH.
    split; [lia|]. exists m'. split; [|done].
    replace (mi - k)%nat with (S (mi - S k)) by lia. done.
Qed.

Lemma flatten_lookup (mods : list Module) (j : nat) (t : Topic) (mi ti : nat) :
  flatten mods !! j = Some (t, mi, ti) ->
  exists m, mods !! mi = Some m /\ topics m !! ti = Some t.
Proof.
  rewrite flatten_flattenFrom. intros [_ (m & Hm & Ht)]%flattenFrom_lookup.
  rewrite Nat.sub_0_r in Hm. by exists m.
Qed.

(** No position of the plan occurs twice in the flattened list. *)
Lemma flattenFrom_position (k : nat) (mods : list Module) (j j' : nat)
    (t t' : Topic) (mi ti : nat) :
  flattenFrom k mods !! j = Some (t, mi, ti) ->
  flattenFrom k mods !! j' = Some (t', mi, ti) ->
  j = j'.
Proof.
  revert k j j'; induction mods as [|m mods IH]; intros k j j'; [done|].
  rewrite flattenFrom_cons.
  set (here := imap (fun tIdx top => (top, k, tIdx)) (topics m)).
  assert (Hhere : forall i x a b, here !! i = Some (x, a, b) -> a = k /\ b = i).
  { intros i x a b. unfold here. rewrite list_lookup_imap.
    destruct (topics m !! i); [|done]. by intros [= _ <- <-]. }
  assert (Hthere : forall i x a b,
            flattenFrom (S k) mods !! i = Some (x, a, b) -> (S k <= a)%nat).
  { intros i x a b Hl. by apply flattenFrom_lookup in Hl as [? _]. }
  destruct (decide (j < length here)%nat) as [Hj|Hj],
           (decide (j' < length here)%nat) as [Hj'|Hj'].
  - rewrite !lookup_app_l by done. intros [_ ->]%Hhere [_ ->]%Hhere. done.
  - rewrite lookup_app_l by done. rewrite lookup_app_r by lia.
    intros [-> _]%Hhere Hle%Hthere. lia.
  - rewrite lookup_app_r by lia. rewrite lookup_app_l by done.
    intros Hle%Hthere [-> _]%Hhere. lia.
  - rewrite !lookup_app_r by lia. intros H1 H2.
    pose proof (IH _ _ _ H1 H2). lia.
Qed.

Lemma observe_all (h : list Module) (plan : Curriculum) :
  observe h (mkDocument plan (seq 0 (length h))) = h.
Proof.
  unfold observe. simpl.
  assert (Hgen : forall pre, omap (fun a => (pre ++ h) !! a) (seq (length pre) (length h)) = h).
  { induction h as [|m h IH]; intros pre; [done|]. simpl.
    rewrite list_lookup_middle by done. f_equal.
    specialize (IH (pre ++ [m])). rewrite length_app, <- app_assoc in IH. simpl in IH.
    by rewrite Nat.add_1_r in IH. }
  apply (Hgen []).
Qed.

Lemma sameShape_refl (mods : list Module) : sameShape mods mods.
Proof. split; [done|]. intros mi m0 Hm. by exists m0. Qed.

Lemma sameShape_merge (mods h : list Module) (mi ti : nat) (t : Topic) :
  sameShape mods h -> sameShape mods (alter (setTopic ti t) mi h).
Proof.
  intros [Hlen Hshape]. split; [by rewrite length_alter|].
  intros mi' m0 Hm0. destruct (Hshape mi' m0 Hm0) as (m & Hm & Htitle & Htopics).
  destruct (decide (mi = mi')) as [->|Hne].
  - exists (setTopic ti t m). rewrite list_lookup_alter_eq, Hm. split; [done|].
    split; [done|]. simpl. by rewrite length_insert.
  - exists m. by rewrite list_lookup_alter_ne.
Qed.

Lemma mergedUpTo_merge (mods h : list Module) (c : nat -> CuratedContent)
    (i mi ti : nat) (t : Topic) :
  sameShape mods h ->
  flatten mods !! i = Some (t, mi, ti) ->
  mergedUpTo mods c i h ->
  mergedUpTo mods c (S i) (alter (setTopic ti (withContent t (c i))) mi h).
Proof.
  intros [_ Hshape] Hi Hdone j t' mi' ti' Hj Hl.
  destruct (decide (j = i)) as [->|Hne].
  - rewrite Hi in Hl. injection Hl as <- <- <-.
    apply flatten_lookup in Hi as (m0 & Hm0 & Ht).
    destruct (Hshape mi m0 Hm0) as (m & Hm & _ & Htopics).
    exists (setTopic ti (withContent t (c i)) m).
    rewrite list_lookup_alter_eq, Hm. split; [done|]. simpl.
    apply list_lookup_insert_eq. rewrite Htopics. by eapply lookup_lt_Some.
  - destruct (Hdone j t' mi' ti') as (m & Hm & Ht); [lia | done |].
    destruct (decide (mi = mi')) as [->|Hmi].
    + exists (setTopic ti (withContent t (c i)) m).
      rewrite list_lookup_alter_eq, Hm. split; [done|]. simpl.
      rewrite list_lookup_insert_ne; [done|]. intros ->.
      apply Hne. rewrite !flatten_flattenFrom in *. by eapply flattenFrom_position.
    + exists m. by rewrite list_lookup_alter_ne.
Qed.

Section ControllerProperties.
Context `{Platform}.
Variable curator : nat -> jsstring -> jsstring -> exn + CuratedContent.

Lemma atCall_facts (i total : nat) (t : Topic) (mi : nat) (m : Module)
    (prefs : UserPreferences) (st : Controller) :
  heap (atCall i total t mi m prefs st) = heap st /\
  lastDocument (trace (atCall i total t mi m prefs st)) = lastDocument (trace st) /\
  length (curatorCalls (trace (atCall i total t mi m prefs st)))
    = S (length (curatorCalls (trace st))).
Proof.
  unfold atCall. destruct (0 <? i)%nat; simpl;
    rewrite ?lastDocument_emit, ?curatorCalls_emit, ?length_app; simpl;
    rewrite ?lastDocument_emit, ?curatorCalls_emit, ?length_app; simpl;
    rewrite ?lastDocument_emit, ?curatorCalls_emit, ?length_app; simpl;
    (split; [done|]); (split; [done|]); lia.
Qed.

Lemma curationLoop_step (prefs : UserPreferences) (plan : Curriculum)
    (refs : list nat) (total i : nat) (t : Topic) (mi ti a : nat) (m : Module)
    (todo : list (Topic * nat * nat)) (st : Controller) :
  refs !! mi = Some a -> heap st !! a = Some m ->
  curationLoop curator prefs plan refs total i ((t, mi, ti) :: todo) st =
  match curator i (topic_title t) (curatorContext prefs m) with
  | inl e => (atCall i total t mi m prefs st, Some e)
  | inr content =>
      curationLoop curator prefs plan refs total (S i) todo
        (emit (SetCurriculum (mkDocument plan refs))
           (mkController
              (alter (setTopic ti (withContent t content)) a
                 (heap (atCall i total t mi m prefs st)))
              (trace (atCall i total t mi m prefs st))))
  end.
Proof.
  intros Hrefs Hheap. unfold atCall. destruct st as [h tr]. simpl in Hheap.
  cbn [curationLoop]. rewrite Hrefs.
  destruct (0 <? i)%nat; cbn [emit heap trace]; rewrite Hheap; reflexivity.
Qed.

(** The loop from iteration [i] to the iteration [k] that throws. *)
Lemma curationLoop_throws (prefs : UserPreferences) (plan : Curriculum)
    (c : nat -> CuratedContent) (k : nat) (e : exn) (total : nat) :
  succeedsBefore curator prefs plan c k ->
  throwsAt curator prefs plan k e ->
  forall d i st,
    (i + d = k)%nat ->
    sameShape (modules plan) (heap st) ->
    mergedUpTo (modules plan) c i (heap st) ->
    lastDocument (trace st) = Some (mkDocument plan (seq 0 (length (modules plan)))) ->
    exists st',
      curationLoop curator prefs plan (seq 0 (length (modules plan))) total i
        (drop i (flatten (modules plan))) st = (st', Some e) /\
      sameShape (modules plan) (heap st') /\
      mergedUpTo (modules plan) c k (heap st') /\
      length (curatorCalls (trace st')) = (length (curatorCalls (trace st)) + S d)%nat /\
      lastDocument (trace st') = Some (mkDocument plan (seq 0 (length (modules plan)))).
Proof.
  intros Hsucc (tk & mik & tik & m0k & Hk & Hm0k & Hthrow).
  induction d as [|d IH]; intros i st Hid Hshape Hmerged Hdoc.
  - assert (i = k) as -> by lia.
    rewrite (drop_S _ _ _ Hk).
    destruct Hshape as [Hlen Hsh]. destruct (Hsh mik m0k Hm0k) as (m & Hm & Htitle & _).
    rewrite (curationLoop_step _ _ _ _ _ _ _ _ mik m).
    + assert (curatorContext prefs m = curatorContext prefs m0k) as ->.
      { unfold curatorContext. by rewrite Htitle. }
      rewrite Hthrow. eexists. split; [done|].
      destruct (atCall_facts k total tk mik m prefs st) as (Hh & Hd & Hc).
      rewrite Hh, Hd, Hc. repeat split; try done. lia.
    + apply lookup_seq_lt. by eapply lookup_lt_Some.
    + done.
  - assert (i < k)%nat as Hik by lia.
    destruct (lookup_lt_is_Some_2 (flatten (modules plan)) i) as [[[t mi] ti] Hi].
    { apply lookup_lt_Some in Hk. lia. }
    rewrite (drop_S _ _ _ Hi).
    pose proof Hi as (m0 & Hm0 & Ht)%flatten_lookup.
    pose proof Hshape as [Hlen Hsh]. destruct (Hsh mi m0 Hm0) as (m & Hm & Htitle & _).
    rewrite (curationLoop_step _ _ _ _ _ _ _ _ mi m).
    + assert (curatorContext prefs m = curatorContext prefs m0) as ->.
      { unfold curatorContext. by rewrite Htitle. }
      rewrite (Hsucc i t mi ti m0 Hik Hi Hm0).
      destruct (atCall_facts i total t mi m prefs st) as (Hh & Hd & Hc).
      match goal with |- context [curationLoop _ _ _ _ _ (S i) _ ?st5] =>
        destruct (IH (S i) st5) as (st' & Hrun & Hshape' & Hmerged' & Hcalls & Hdoc')
      end.
      * lia.
      * cbn [emit heap]. rewrite Hh. by apply sameShape_merge.
      * cbn [emit heap]. rewrite Hh. by apply mergedUpTo_merge.
      * cbn [emit trace]. by rewrite lastDocument_emit.
      * exists st'. split; [exact Hrun|]. split; [done|]. split; [done|].
        split; [|done].
        rewrite Hcalls. cbn [emit trace]. rewrite curatorCalls_emit, length_app, Hc.
        simpl. lia.
    + apply lookup_seq_lt. by eapply lookup_lt_Some.
    + done.
Qed.

(** The run in which the curator returns for the topics before [k] and
    throws for topic [k]: the number of calls, the last status, and the
    object the loop has written into the slot of every topic before [k]. *)
Lemma startGeneration_throws_run (prefs : UserPreferences)
    (plan : Curriculum) (c : nat -> CuratedContent) (k : nat) (e : exn) :
  succeedsBefore curator prefs plan c k ->
  throwsAt curator prefs plan k e ->
  length (curatorCalls (trace (startGeneration curator prefs (inr plan)))) = S k /\
  (stage <$> lastStatus (trace (startGeneration curator prefs (inr plan)))) = Some error /\
  exists d,
    lastDocument (trace (startGeneration curator prefs (inr plan))) = Some d /\
    forall j t mi ti,
      (j < k)%nat ->
      flatten (modules plan) !! j = Some (t, mi, ti) ->
      exists m,
        observe (heap (startGeneration curator prefs (inr plan))) d !! mi = Some m /\
        topics m !! ti = Some (withContent t (c j)).
Proof.
  intros Hsucc Hthrow. unfold startGeneration.
  match goal with |- context [curationLoop _ _ _ _ ?total 0 _ ?st] =>
    destruct (curationLoop_throws prefs plan c k e total Hsucc Hthrow k 0%nat st)
      as (st' & Hrun & [Hlen Hshape] & Hmerged & Hcalls & Hdoc)
  end.
  - lia.
  - apply sameShape_refl.
  - intros j t mi ti Hj. lia.
  - cbn [emit trace]. by rewrite !lastDocument_emit.
  - rewrite drop_0 in Hrun. rewrite Hrun. cbn [emit trace heap].
    rewrite curatorCalls_emit, lastStatus_emit, lastDocument_emit, length_app, Hcalls.
    split; [simpl; lia|]. split; [done|].
    eexists. split; [exact Hdoc|].
    intros j t mi ti Hj Hl. rewrite <- Hlen, observe_all. by apply (Hmerged j).
Qed.

(** The loop from iteration [i] on when the curator returns for every
    remaining topic. *)
Lemma curationLoop_completes (prefs : UserPreferences) (plan : Curriculum)
    (c : nat -> CuratedContent) (total : nat) :
  succeedsBefore curator prefs plan c (length (flatten (modules plan))) ->
  forall d i st,
    (i + d = length (flatten (modules plan)))%nat ->
    sameShape (modules plan) (heap st) ->
    mergedUpTo (modules plan) c i (heap st) ->
    lastDocument (trace st) = Some (mkDocument plan (seq 0 (length (modules plan)))) ->
    exists st',
      curationLoop curator prefs plan (seq 0 (length (modules plan))) total i
        (drop i (flatten (modules plan))) st = (st', None) /\
      sameShape (modules plan) (heap st') /\
      mergedUpTo (modules plan) c (length (flatten (modules plan))) (heap st') /\
      length (curatorCalls (trace st')) = (length (curatorCalls (trace st)) + d)%nat /\
      lastDocument (trace st') = Some (mkDocument plan (seq 0 (length (modules plan)))).
Proof.
  intros Hsucc. induction d as [|d IH]; intros i st Hid Hshape Hmerged Hdoc.
  - assert (i = length (flatten (modules plan))) as -> by lia.
    rewrite drop_all. exists st. simpl. split; [done|]. split; [done|]. split; [done|].
    split; [lia | done].
  - destruct (lookup_lt_is_Some_2 (flatten (modules plan)) i) as [[[t mi] ti] Hi]; [lia|].
    rewrite (drop_S _ _ _ Hi).
    pose proof Hi as (m0 & Hm0 & Ht)%flatten_lookup.
    pose proof Hshape as [Hlen Hsh]. destruct (Hsh mi m0 Hm0) as (m & Hm & Htitle & _).
    rewrite (curationLoop_step _ _ _ _ _ _ _ _ mi m).
    + assert (curatorContext prefs m = curatorContext prefs m0) as ->.
      { unfold curatorContext. by rewrite Htitle. }
      rewrite (Hsucc i t mi ti m0); [|lia|done|done].
      destruct (atCall_facts i total t mi m prefs st) as (Hh & Hd & Hc).
      match goal with |- context [curationLoop _ _ _ _ _ (S i) _ ?st5] =>
        destruct (IH (S i) st5) as (st' & Hrun & Hshape' & Hmerged' & Hcalls & Hdoc')
      end.
      * lia.
      * cbn [emit heap]. rewrite Hh. by apply sameShape_merge.
      * cbn [emit heap]. rewrite Hh. by apply mergedUpTo_merge.
      * cbn [emit trace]. by rewrite lastDocument_emit.
      * exists st'. split; [exact Hrun|]. split; [done|]. split; [done|].
        split; [|done].
        rewrite Hcalls. cbn [emit trace]. rewrite curatorCalls_emit, length_app, Hc.
        simpl. lia.
    + apply lookup_seq_lt. by eapply lookup_lt_Some.
    + done.
Qed.

(** The run in which the curator returns for every topic: the number of
    calls, the last status, and the object the loop has written into the
    slot of every topic. *)
Lemma startGeneration_returns_run (prefs : UserPreferences) (plan : Curriculum)
    (c : nat -> CuratedContent) :
  succeedsBefore curator prefs plan c (length (flatten (modules plan))) ->
  length (curatorCalls (trace (startGeneration curator prefs (inr plan))))
    = length (flatten (modules plan)) /\
  lastStatus (trace (startGeneration curator prefs (inr plan)))
    = Some (mkStatus complete (lit "Curriculum ready!") 100 None) /\
  exists d,
    lastDocument (trace (startGeneration curator prefs (inr plan))) = Some d /\
    forall j t mi ti,
      flatten (modules plan) !! j = Some (t, mi, ti) ->
      exists m,
        observe (heap (startGeneration curator prefs (inr plan))) d !! mi = Some m /\
        topics m !! ti = Some (withContent t (c j)).
Proof.
  intros Hsucc. unfold startGeneration.
  match goal with |- context [curationLoop _ _ _ _ ?total 0 _ ?st] =>
    destruct (curationLoop_completes prefs plan c total Hsucc
                (length (flatten (modules plan))) 0%nat st)
      as (st' & Hrun & [Hlen Hshape] & Hmerged & Hcalls & Hdoc)
  end.
  - lia.
  - apply sameShape_refl.
  - intros j t mi ti Hj. lia.
  - cbn [emit trace]. by rewrite !lastDocument_emit.
  - rewrite drop_0 in Hrun. rewrite Hrun. cbn [emit trace heap].
    rewrite curatorCalls_emit, lastStatus_emit, lastDocument_emit, length_app, Hcalls.
    split; [simpl; lia|]. split; [done|].
    eexists. split; [exact Hdoc|].
    intros j t mi ti Hl. rewrite <- Hlen, observe_all. apply (Hmerged j); [|done].
    by eapply lookup_lt_Some.
Qed.

(** When the planner throws, the run ends in the stage [error] without a
    document and without a call of the curator. *)
Lemma startGeneration_planner_failure (prefs : UserPreferences) (e : exn) :
  lastStatus (trace (startGeneration curator prefs (inl e))) = Some errorStatus /\
  lastDocument (trace (startGeneration curator prefs (inl e))) = None /\
  curatorCalls (trace (startGeneration curator prefs (inl e))) = [].
Proof. repeat split; reflexivity. Qed.

End ControllerProperties.

(** * Further properties *)

(** ** [retryWithBackoff], for every budget and delay *)

Lemma retryFrom_calls {T} (fn : nat -> jserror + T) (retries attempt : nat) (delay : Z) :
  (1 <= calls (retryFrom fn attempt retries delay) <= S retries)%nat.
Proof.
  revert attempt delay; induction retries as [|r IH]; intros attempt delay; simpl.
  - destruct (fn attempt); simpl; lia.
  - destruct (fn attempt) as [e|v]; simpl; [|lia].
    destruct (isRateLimit e); simpl; [|lia].
    specialize (IH (S attempt) (delay * 2)%Z). lia.
Qed.

Lemma retryFrom_shape {T} (fn : nat -> jserror + T) (retries attempt : nat) (delay : Z) :
  waits (retryFrom fn attempt retries delay)
    = List.map (fun j => (delay * 2 ^ Z.of_nat j)%Z)
        (seq 0 (calls (retryFrom fn attempt retries delay) - 1)) /\
  outcome (retryFrom fn attempt retries delay)
    = fn (attempt + (calls (retryFrom fn attempt retries delay) - 1))%nat /\
  (forall j, (j < calls (retryFrom fn attempt retries delay) - 1)%nat ->
     exists e, fn (attempt + j)%nat = inl e /\ RateLimitShaped e).
Proof.
  revert attempt delay; induction retries as [|r IH]; intros attempt delay; simpl.
  - destruct (fn attempt) as [e|v] eqn:E; simpl; rewrite Nat.add_0_r;
      (split; [done|]); (split; [done|]); intros j Hj; lia.
  - destruct (fn attempt) as [e|v] eqn:E; simpl.
    2:{ rewrite Nat.add_0_r. split; [done|]. split; [done|]. intros j Hj; lia. }
    destruct (isRateLimit e) eqn:Hrl; simpl.
    2:{ rewrite Nat.add_0_r. split; [done|]. split; [done|]. intros j Hj; lia. }
    destruct (IH (S attempt) (delay * 2)%Z) as (Hw & Ho & Hbefore).
    pose proof (retryFrom_calls fn r (S attempt) (delay * 2)%Z) as Hc.
    set (run := retryFrom fn (S attempt) r (delay * 2)) in *.
    rewrite Nat.sub_0_r.
    destruct (calls run) as [|n] eqn:En; [lia|]. simpl in *. rewrite Nat.sub_0_r in *.
    split; [|split].
    + f_equal; [lia|]. rewrite Hw. rewrite <- seq_shift, List.map_map.
      apply map_ext. intros j. rewrite Nat2Z.inj_succ, Z.pow_succ_r by lia. lia.
    + rewrite Ho. f_equal. lia.
    + intros [|j] Hj.
      * rewrite Nat.add_0_r. exists e. split; [done|]. by apply isRateLimit_spec.
      * destruct (Hbefore j) as (e' & He' & Hr); [lia|].
        exists e'. split; [|done]. rewrite <- He'. f_equal. lia.
Qed.

(** For every budget [retries] and first delay [delay]: the wrapper calls
    [fn] at least once and at most [retries + 1] times; it waits before every
    call but the first, [delay] doubled each time; every call but the last
    threw a rate-limit error; and what it returns or throws is what the last
    call returned or threw, thrown either because it is not a rate-limit
    error or because the budget is used up.  With the defaults the waits are
    a prefix of 2000, 4000, 8000 ms: at most 14 seconds in all. *)
Theorem retryWithBackoff_run_shape {T : Type} (fn : nat -> jserror + T)
    (retries : nat) (delay : Z) :
  (1 <= calls (retryWithBackoff fn retries delay) <= S retries)%nat /\
  waits (retryWithBackoff fn retries delay)
    = List.map (fun j => (delay * 2 ^ Z.of_nat j)%Z)
        (seq 0 (calls (retryWithBackoff fn retries delay) - 1)) /\
  outcome (retryWithBackoff fn retries delay)
    = fn (calls (retryWithBackoff fn retries delay) - 1)%nat /\
  (forall j, (j < calls (retryWithBackoff fn retries delay) - 1)%nat ->
     exists e, fn j = inl e /\ RateLimitShaped e) /\
  (forall e, outcome (retryWithBackoff fn retries delay) = inl e ->
     ~ RateLimitShaped e \/ calls (retryWithBackoff fn retries delay) = S retries) /\
  waits (retryWithBackoff_default fn) `prefix_of` [2000; 4000; 8000]%Z.
Proof.
  unfold retryWithBackoff_default, retryWithBackoff.
  destruct (retryFrom_shape fn retries 0 delay) as (Hw & Ho & Hbefore).
  split; [apply retryFrom_calls|]. split; [done|]. split; [done|]. split; [done|].
  split; [intros e He; by apply retryFrom_error in He as [_ Hwhy]|].
  pose proof (retryFrom_calls fn 3 0 2000) as Hc.
  destruct (retryFrom_shape fn 3 0 2000) as (-> & _ & _).
  destruct (calls (retryFrom fn 0 3 2000)) as [|[|[|[|[|n]]]]]; try lia.
  - by exists [2000; 4000; 8000]%Z.
  - by exists [4000; 8000]%Z.
  - by exists [8000]%Z.
  - by exists [].
Qed.

(** ** Titles *)

Lemma trimStart_notBlank (s : jsstring) : notBlank s -> startsClean (trimStart s).
Proof.
  induction 1 as [c s Hc|c s Hs IH]; simpl.
  - by rewrite Hc.
  - by destruct (isWhiteSpace c) eqn:E.
Qed.

Lemma startsClean_notBlank (s : jsstring) : startsClean s -> notBlank s.
Proof. destruct s as [|c s]; [done|]. intros Hc. by constructor. Qed.

(** [s.trim()] is not empty exactly when [s] holds a code unit that is not
    white space. *)
Lemma trim_notBlank (s : jsstring) : trim s <> [] <-> notBlank s.
Proof.
  split.
  - intros Hne. pose proof (trim_startsClean s Hne) as Hc.
    destruct (trimEnd_prefix (trimStart s)) as [k Hk].
    destruct (trimStart_suffix s) as [w Hw].
    unfold trim in *. rewrite Hw, Hk. apply Exists_app. right.
    apply Exists_app. left. by apply startsClean_notBlank.
  - intros Hs. unfold trim, trimEnd.
    apply trimStart_notBlank, startsClean_notBlank, (Exists_rev (l := trimStart s)) in Hs.
    apply trimStart_notBlank in Hs.
    destruct (trimStart (rev (trimStart s))) as [|c r]; [done|].
    intros E. apply (f_equal (@length _)) in E. rewrite length_rev in E. done.
Qed.

Lemma fallbackTitle_notBlank (isVideo : bool) (topicTitle : jsstring) :
  notBlank (fallbackTitle isVideo topicTitle).
Proof.
  unfold fallbackTitle. destruct isVideo; apply Exists_app; right;
    apply Exists_cons; right; by constructor.
Qed.

(** A fallback title starts with [http] only when the topic title does. *)
Lemma fallbackTitle_http (isVideo : bool) (topicTitle : jsstring) :
  startsWith (lit "http") (toLowerCase (fallbackTitle isVideo topicTitle)) = true ->
  startsWith (lit "http") (toLowerCase topicTitle) = true.
Proof.
  unfold fallbackTitle.
  assert (Hgen : forall g, startsWith (lit "http") (toLowerCase (topicTitle ++ 32 :: g)) = true ->
                           startsWith (lit "http") (toLowerCase topicTitle) = true).
  { intros g. rewrite toLowerCase_app.
    generalize (toLowerCase topicTitle). intros l.
    change (toLowerCase (32 :: g)) with (32 :: toLowerCase g).
    unfold startsWith. change (lit "http") with [104; 116; 116; 112].
    destruct (stripPrefix _ (l ++ _)) as [r|] eqn:E; [intros _|done].
    apply stripPrefix_Some in E.
    destruct l as [|a [|b [|c [|d l]]]]; simplify_eq/=.
    reflexivity. }
  destruct isVideo; apply Hgen.
Qed.

(** The two ways [cleanTitle] ends: with a fallback title, or with a cleaned
    title that starts with a code unit other than white space and is not
    generic. *)
Lemma cleanTitle_cases (title : option jsstring) (uri topicTitle : jsstring) :
  (exists isVideo, cleanTitle title uri topicTitle = fallbackTitle isVideo topicTitle) \/
  (startsClean (cleanTitle title uri topicTitle) /\
   isGenericTitle (toLowerCase (cleanTitle title uri topicTitle)) = false).
Proof.
  unfold cleanTitle. destruct (isBlankTitle title) eqn:Hb.
  - left. by eexists.
  - destruct (isGenericTitle _) eqn:Hg.
    + left. by eexists.
    + right. split; [|done]. apply stripSiteSuffixes_startsClean, trim_startsClean.
      destruct title as [t|]; [|done]. simpl in *. by destruct (trim t).
Qed.

Lemma isGenericTitle_placeholder (lower : jsstring) :
  In lower placeholderTitles -> isGenericTitle lower = true.
Proof.
  unfold placeholderTitles. simpl.
  intros [<-|[<-|[<-|[<-|[<-|[<-|[]]]]]]]; reflexivity.
Qed.

Lemma cleanTitle_facts (title : option jsstring) (uri topicTitle : jsstring) :
  notBlank (cleanTitle title uri topicTitle) /\
  ~ In (toLowerCase (cleanTitle title uri topicTitle)) placeholderTitles /\
  (startsWith (lit "http") (toLowerCase (cleanTitle title uri topicTitle)) = true ->
   startsWith (lit "http") (toLowerCase topicTitle) = true).
Proof.
  destruct (cleanTitle_cases title uri topicTitle) as [[v ->]|[Hclean Hgen]].
  - split; [apply fallbackTitle_notBlank|]. split; [|apply fallbackTitle_http].
    intros Hin. pose proof (fallbackTitle_space v topicTitle) as Hsp.
    revert Hin Hsp. generalize (toLowerCase (fallbackTitle v topicTitle)). intros l.
    unfold placeholderTitles. simpl.
    intros [<-|[<-|[<-|[<-|[<-|[<-|[]]]]]]]; vm_compute;
      intros Hx; repeat destruct Hx as [Hx|Hx]; try discriminate; done.
  - split; [by apply startsClean_notBlank|]. split.
    + intros Hin%isGenericTitle_placeholder. congruence.
    + intros Hs. unfold isGenericTitle in Hgen. rewrite Hs in Hgen.
      by rewrite !orb_true_r in Hgen.
Qed.

(** Whatever title the citation or the model gives, [cleanTitle] returns a
    title that is not blank and is none of the placeholder words (in any
    letter case), and one that starts with [http] only when the topic title
    itself does. *)
Theorem cleanTitle_never_placeholder (title : option jsstring) (uri topicTitle : jsstring) :
  trim (cleanTitle title uri topicTitle) <> [] /\
  ~ In (toLowerCase (cleanTitle title uri topicTitle)) placeholderTitles /\
  (startsWith (lit "http") (toLowerCase (cleanTitle title uri topicTitle)) = true ->
   startsWith (lit "http") (toLowerCase topicTitle) = true).
Proof.
  destruct (cleanTitle_facts title uri topicTitle) as (Hnb & Hph & Hhttp).
  split; [by apply trim_notBlank|]. by split.
Qed.

(** *** Titles of the resources the curator returns *)

Lemma Forall_alter_list {A} (P : A -> Prop) (f : A -> A) (i : nat) (l : list A) :
  (forall x, P x -> P (f x)) -> Forall P l -> Forall P (alter f i l).
Proof.
  intros Hf Hl. apply Forall_alter; [done|]. intros x _. apply Hf.
Qed.

Lemma dropRoots_Forall (P : ResourceLink -> Prop) (rs : list ResourceLink) :
  Forall P rs -> Forall P (dropRoots rs).
Proof.
  intros Hrs. unfold dropRoots. destruct (2 <? length rs)%nat; [|done].
  induction Hrs as [|r rs Hr Hrs IH]; simpl; [constructor|].
  destruct (negb (isRoot r)); [by constructor | done].
Qed.

Section CuratorTitles.
Context `{Platform}.

Lemma toResources_filled (topicTitle : jsstring) (cs : list (jsstring * jsstring))
    (rs : list ResourceLink) :
  toResources topicTitle cs = inr rs -> Forall filled rs.
Proof.
  revert rs; induction cs as [|[uri rawTitle] cs IH]; intros rs; simpl.
  - intros [= <-]. constructor.
  - destruct (URL_hostname uri) as [hostname|]; [|done].
    destruct (toResources topicTitle cs) as [e|rs']; [done|].
    intros [= <-]. constructor; [|by apply IH]. split; [|done]. apply cleanTitle_facts.
Qed.

Lemma enrichItem_filled (topicTitle : jsstring) (rs : list ResourceLink) (item : json) :
  Forall filled rs -> Forall filled (enrichItem topicTitle rs item).1.
Proof.
  intros Hrs. unfold enrichItem.
  destruct item as [|b|q|s|items|fields]; try done.
  destruct (getField (lit "uri") fields) as [[|b|q|u|items|fs]|]; try done.
  destruct (getField (lit "description") fields) as [description|]; try done.
  destruct (truthy (JStr u) && truthy description) eqn:E; [|done].
  apply andb_prop in E as [_ Hd].
  destruct (findMatch (normalizeUrl u) rs) as [i|]; [|done].
  assert (Forall filled (alter (setDescription description) i rs)) as Hrs1.
  { apply Forall_alter_list; [|done]. intros r [Ht _]. by split. }
  destruct (titleActionOf _); simpl; try done.
  apply Forall_alter_list; [|done]. intros r [_ Hr]. split; [|done].
  simpl. apply cleanTitle_facts.
Qed.

Lemma enrich_filled (topicTitle : jsstring) (response : GenerateContentResponse)
    (rs : list ResourceLink) :
  Forall filled rs -> Forall filled (enrich topicTitle response rs).
Proof.
  intros Hrs. unfold enrich. destruct (text response) as [[|c t]|]; try done.
  destruct (JSON_parse _) as [[|b|q|s|items|fields]|]; try done.
  revert rs Hrs; induction items as [|item items IH]; intros rs Hrs; simpl; [done|].
  pose proof (enrichItem_filled topicTitle rs item Hrs) as Hi.
  destruct (enrichItem topicTitle rs item) as [rs' thrown]. simpl in Hi.
  destruct thrown; [done | by apply IH].
Qed.

Lemma search_title_notBlank (a b : jsstring) : notBlank (lit "Search " ++ a ++ b).
Proof. apply Exists_app. left. by constructor. Qed.

Lemma withFallback_filled (topicTitle context : jsstring) (rs found : list ResourceLink) :
  Forall filled rs -> withFallback topicTitle context rs = inr found -> Forall filled found.
Proof.
  intros Hrs. unfold withFallback. destruct rs as [|r rs]; [|by intros [= <-]].
  destruct (encodeURIComponent _) as [q|]; [|done].
  destruct (encodeURIComponent _) as [qYt|]; [|done].
  intros [= <-].
  constructor.
  { split; [|done].
    apply (search_title_notBlank (lit "Google for ") ([34] ++ topicTitle ++ [34])). }
  constructor; [|constructor].
  split; [|done].
  apply (search_title_notBlank (lit "YouTube for ") ([34] ++ topicTitle ++ [34])).
Qed.

(** Every resource that [runCuratorAgent] returns, on whatever path, has a
    title that is not blank ([title.trim()] is not empty) and a description
    that is truthy, whatever the citations and the model's JSON hold. *)
Theorem runCuratorAgent_resources_filled (topicTitle context : jsstring) (gen : generation)
    (content : CuratedContent) :
  runCuratorAgent topicTitle context gen = inr content ->
  Forall (fun r => trim (res_title r) <> [] /\ truthy (res_description r) = true)
    (resources content).
Proof.
  intros Hrun.
  apply (Forall_impl filled); [|intros r [Ht Hd]; split; [by apply trim_notBlank | done]].
  revert Hrun. unfold runCuratorAgent.
  destruct (tryCurate topicTitle context gen) as [e|content'] eqn:Htry.
  - unfold curatorFallback. destruct (encodeURIComponent topicTitle) as [q|]; [|done].
    intros [= <-]. simpl. constructor; [|constructor]. split; [|done]. simpl.
    apply (search_title_notBlank ([34] ++ topicTitle) ([34] ++ lit " on Google")).
  - intros [= <-]. unfold tryCurate in Htry.
    destruct (outcome (retryWithBackoff_default gen)) as [error|response]; [done|].
    unfold curate in Htry.
    destruct (toResources _ _) as [e|grounded] eqn:Hg; [done|].
    destruct (withFallback _ _ _) as [e|found] eqn:Hf; [done|].
    injection Htry as <-. simpl.
    apply Forall_take, dropRoots_Forall.
    eapply withFallback_filled; [|exact Hf]. apply enrich_filled.
    by eapply toResources_filled.
Qed.

End CuratorTitles.

Lemma runCuratorAgent_resources_filled_witness :
  Forall (fun r => trim (res_title r) <> [] /\ truthy (res_description r) = true)
    [ mkResource (lit "SQL joins Guide") (lit "https://a.com/x") (Some (lit "a.com")) None
        (JStr (lit "Recommended resource found via Google Search.")) ].
Proof.
  apply (runCuratorAgent_resources_filled (H := refPlatform) (lit "SQL joins") sqlContext
           (answers (citing [ citation "https://a.com/x" " Home " ]))
           (mkContent (lit "Here are 1 curated resources for SQL joins.")
              [ mkResource (lit "SQL joins Guide") (lit "https://a.com/x")
                  (Some (lit "a.com")) None
                  (JStr (lit "Recommended resource found via Google Search.")) ])).
  vm_compute. reflexivity.
Defined.

(** ** Links of the curator *)

Lemma map_filter_comm {A B} (f : A -> B) (p : B -> bool) (l : list A) :
  List.map f (List.filter (fun x => p (f x)) l) = List.filter p (List.map f l).
Proof.
  induction l as [|x l IH]; simpl; [done|]. destruct (p (f x)); simpl; by rewrite IH.
Qed.

Section CuratorLinks.
Context `{Platform}.

Lemma toResources_fails (topicTitle : jsstring) (cs : list (jsstring * jsstring)) :
  Exists (fun c => URL_hostname (fst c) = None) cs ->
  exists e, toResources topicTitle cs = inl e.
Proof.
  induction 1 as [[uri rawTitle] cs Hc|[uri rawTitle] cs Hcs [e IH]]; simpl in *.
  - rewrite Hc. by eexists.
  - destruct (URL_hostname uri); [|by eexists]. rewrite IH. by eexists.
Qed.

Lemma toResources_thumbnails (topicTitle : jsstring) (cs : list (jsstring * jsstring))
    (rs : list ResourceLink) :
  toResources topicTitle cs = inr rs ->
  List.map res_thumbnail rs = List.map getYouTubeThumbnail (List.map res_uri rs).
Proof.
  intros Hrs. destruct (toResources_links topicTitle cs rs Hrs) as [Hu Ht].
  by rewrite Ht, Hu, List.map_map.
Qed.

Lemma dropRoots_uris (rs : list ResourceLink) :
  List.map res_uri (dropRoots rs) = keptUris (List.map res_uri rs).
Proof.
  unfold dropRoots, keptUris, isRoot. rewrite length_map.
  destruct (2 <? length rs)%nat; [|done].
  apply (map_filter_comm res_uri (fun u => negb (isRootUri u))).
Qed.


(** When the grounding cites at least one page with a URI and a title and
    [new URL] parses every cited URI, the URIs of the returned resources are
    the first five cited URIs that step 4 keeps, in citation order, whatever
    the text of the response says; and each thumbnail is the one derived from
    the URI next to it. *)
Theorem runCuratorAgent_uris_from_citations (topicTitle context : jsstring)
    (gen : generation) (response : GenerateContentResponse) :
  outcome (retryWithBackoff_default gen) = inr response ->
  omap cited (chunksOf response) <> [] ->
  Forall (fun c => is_Some (URL_hostname (fst c))) (omap cited (chunksOf response)) ->
  exists content,
    runCuratorAgent topicTitle context gen = inr content /\
    List.map res_uri (resources content)
      = take 5 (keptUris (List.map fst (omap cited (chunksOf response)))) /\
    List.map res_thumbnail (resources content)
      = List.map getYouTubeThumbnail (List.map res_uri (resources content)).
Proof.
  intros Hgen Hne Hparse.
  set (cs := omap cited (chunksOf response)) in *.
  destruct (toResources_parses topicTitle cs Hparse) as [rs Hrs].
  pose proof (toResources_links topicTitle cs rs Hrs) as [Huris _].
  pose proof (toResources_thumbnails topicTitle cs rs Hrs) as Hthumbs.
  assert (rs <> []) as Hrne.
  { intros ->. destruct cs; [done | discriminate]. }
  eexists. split.
  { unfold runCuratorAgent, tryCurate. rewrite Hgen.
    unfold cs in Hrs. rewrite (curate_grounded _ _ _ rs Hrs Hrne). reflexivity. }
  simpl. set (rs' := enrich topicTitle response rs).
  assert (List.map res_uri rs' = List.map fst cs) as Huris'.
  { unfold rs'. by rewrite enrich_uris. }
  split.
  - by rewrite map_take, dropRoots_uris, Huris'.
  - assert (Forall (fun r => res_thumbnail r = getYouTubeThumbnail (res_uri r)) rs') as Hall.
    { assert (List.map res_thumbnail rs' = List.map getYouTubeThumbnail (List.map res_uri rs'))
        as E.
      { unfold rs'. by rewrite enrich_thumbnails, enrich_uris. }
      clear -E. induction rs' as [|r rs' IH]; [constructor|].
      simpl in E. injection E as E1 E2. constructor; [done | by apply IH]. }
    assert (Forall (fun r => res_thumbnail r = getYouTubeThumbnail (res_uri r))
              (take 5 (dropRoots rs'))) as Hres.
    { by apply Forall_take, dropRoots_Forall. }
    clear -Hres. induction Hres as [|r l Hr Hl IH]; simpl; [done|]. by rewrite Hr, IH.
Qed.

(** One cited URI that [new URL] rejects discards every citation: the
    exception leaves the [try] block, and the result is the single
    Google-search link of the [catch] block. *)
Theorem runCuratorAgent_unparseable_citation (topicTitle context : jsstring)
    (gen : generation) (response : GenerateContentResponse) (q : jsstring) :
  outcome (retryWithBackoff_default gen) = inr response ->
  Exists (fun c => URL_hostname (fst c) = None) (omap cited (chunksOf response)) ->
  encodeURIComponent topicTitle = Some q ->
  runCuratorAgent topicTitle context gen =
  inr (mkContent
         (lit "Could not curate specific resources due to an error.")
         [ mkResource
             (lit "Search " ++ [34] ++ topicTitle ++ [34] ++ lit " on Google")
             (lit "https://www.google.com/search?q=" ++ q)
             (Some (lit "google.com"))
             None
             (JStr (lit "Manual search fallback.")) ]).
Proof.
  intros Hgen Hbad Hq. unfold runCuratorAgent, tryCurate. rewrite Hgen.
  unfold curate. destruct (toResources_fails topicTitle _ Hbad) as [e ->].
  unfold curatorFallback. by rewrite Hq.
Qed.

End CuratorLinks.

Lemma runCuratorAgent_uris_from_citations_witness :
  exists content,
    runCuratorAgent (H := refPlatform) (lit "SQL joins") sqlContext (answers scenarioResponse)
      = inr content /\
    List.map res_uri (resources content)
      = [ lit "https://www.youtube.com/watch?v=abc12345678"; lit "https://a.com/sql-joins" ] /\
    List.map res_thumbnail (resources content)
      = List.map getYouTubeThumbnail (List.map res_uri (resources content)).
Proof.
  apply (runCuratorAgent_uris_from_citations (H := refPlatform) (lit "SQL joins") sqlContext
           (answers scenarioResponse) scenarioResponse).
  - reflexivity.
  - vm_compute. discriminate.
  - vm_compute. repeat constructor; by eexists.
Defined.

Lemma runCuratorAgent_unparseable_citation_witness :
  runCuratorAgent (H := refPlatform) (lit "SQL joins") sqlContext
    (answers (citing [ citation "https://a.com/sql-joins" "SQL joins";
                       citation "see a.com" "A note" ]))
  = inr (mkContent
           (lit "Could not curate specific resources due to an error.")
           [ mkResource
               (lit "Search " ++ [34] ++ lit "SQL joins" ++ [34] ++ lit " on Google")
               (lit "https://www.google.com/search?q=" ++ lit "SQL%20joins")
               (Some (lit "google.com"))
               None
               (JStr (lit "Manual search fallback.")) ]).
Proof.
  apply (runCuratorAgent_unparseable_citation (H := refPlatform) (lit "SQL joins") sqlContext
           (answers (citing [ citation "https://a.com/sql-joins" "SQL joins";
                              citation "see a.com" "A note" ]))
           (citing [ citation "https://a.com/sql-joins" "SQL joins";
                     citation "see a.com" "A note" ])
           (lit "SQL%20joins")).
  - reflexivity.
  - vm_compute. apply Exists_cons_tl, Exists_cons_hd. reflexivity.
  - reflexivity.
Defined.

(** *** Search links *)

Lemma hexDigit_escaped (d : N) : d < 16 -> isEscapedUnit (hexDigit d) = true.
Proof.
  intros Hd. rewrite <- (N2Nat.id d).
  assert (N.to_nat d < 16)%nat as Hn by lia.
  revert Hn. generalize (N.to_nat d). clear. intros n Hn.
  do 16 (destruct n as [|n]; [reflexivity|]). lia.
Qed.

Lemma percentByte_escaped (b : N) :
  b < 256 -> Forall (fun c => isEscapedUnit c = true) (percentByte b).
Proof.
  intros Hb. unfold percentByte. repeat constructor.
  - apply hexDigit_escaped. apply N.Div0.div_lt_upper_bound. lia.
  - apply hexDigit_escaped. apply N.mod_lt. lia.
Qed.

Lemma utf8_bytes (cp : N) : cp < 1114112 -> Forall (fun b => b < 256) (utf8 cp).
Proof.
  intros Hcp. unfold utf8.
  destruct (N.ltb_spec cp 128); [repeat constructor; lia|].
  destruct (N.ltb_spec cp 2048).
  { repeat constructor.
    - assert (cp / 64 < 32) by (apply N.Div0.div_lt_upper_bound; lia). lia.
    - assert (cp mod 64 < 64) by (apply N.mod_lt; lia). lia. }
  destruct (N.ltb_spec cp 65536).
  { repeat constructor.
    - assert (cp / 4096 < 16) by (apply N.Div0.div_lt_upper_bound; lia). lia.
    - assert ((cp / 64) mod 64 < 64) by (apply N.mod_lt; lia). lia.
    - assert (cp mod 64 < 64) by (apply N.mod_lt; lia). lia. }
  repeat constructor.
  - assert (cp / 262144 < 5) by (apply N.Div0.div_lt_upper_bound; lia). lia.
  - assert ((cp / 4096) mod 64 < 64) by (apply N.mod_lt; lia). lia.
  - assert ((cp / 64) mod 64 < 64) by (apply N.mod_lt; lia). lia.
  - assert (cp mod 64 < 64) by (apply N.mod_lt; lia). lia.
Qed.

Lemma percentEncode_escaped (cp : N) :
  cp < 1114112 -> Forall (fun c => isEscapedUnit c = true) (percentEncode cp).
Proof.
  intros Hcp%utf8_bytes. unfold percentEncode.
  induction Hcp as [|b bs Hb Hbs IH]; [constructor|].
  change (Forall (fun c => isEscapedUnit c = true)
            (percentByte b ++ List.concat (List.map percentByte bs))).
  apply Forall_app. split; [by apply percentByte_escaped | done].
Qed.

Lemma surrogatePair_bound (hi lo : N) :
  isHighSurrogate hi = true -> isLowSurrogate lo = true -> surrogatePair hi lo < 1114112.
Proof.
  unfold isHighSurrogate, isLowSurrogate, surrogatePair.
  intros [H1 H2]%andb_prop [H3 H4]%andb_prop.
  apply N.leb_le in H1, H2, H3, H4. lia.
Qed.

(** What [encodeURIComponent] returns holds unreserved code units and
    percent signs only. *)
Lemma encodeURIComponent_escaped (s q : jsstring) :
  codeUnits s -> encodeURIComponent s = Some q ->
  Forall (fun c => isEscapedUnit c = true) q.
Proof.
  remember (length s) as n eqn:Hn. revert s q Hn.
  induction n as [n IH] using lt_wf_ind. intros s q Hn Hs.
  destruct s as [|c s]; cbn [encodeURIComponent].
  { intros [= <-]. constructor. }
  apply Forall_cons in Hs as [Hc Hs]. cbn [length] in Hn.
  destruct (isUriUnreserved c) eqn:Hu.
  { destruct (encodeURIComponent s) as [q'|] eqn:E; [|done]. intros [= <-].
    constructor; [unfold isEscapedUnit; by rewrite Hu|].
    apply (IH (length s)) with (s := s); [lia | done | done | done]. }
  destruct (isLowSurrogate c); [done|].
  destruct (isHighSurrogate c) eqn:Hhi.
  - destruct s as [|d s]; [done|].
    destruct (isLowSurrogate d) eqn:Hlo; [|done].
    apply Forall_cons in Hs as [Hd Hs]. cbn [length] in Hn.
    destruct (encodeURIComponent s) as [q'|] eqn:E; [|done]. intros [= <-].
    apply Forall_app. split; [by apply percentEncode_escaped, surrogatePair_bound|].
    apply (IH (length s)) with (s := s); [lia | done | done | done].
  - destruct (encodeURIComponent s) as [q'|] eqn:E; [|done]. intros [= <-].
    apply Forall_app. split; [apply percentEncode_escaped; lia|].
    apply (IH (length s)) with (s := s); [lia | done | done | done].
Qed.

Section SearchLinks.
Context `{Platform}.

(** On the two paths that build search links (the generation call failed, or
    the grounding cited no page with a URI and a title), every URI returned
    is one of the two search URLs followed by a query that holds unreserved
    code units and percent signs only: nothing in the topic title or the
    context can end the query or add a parameter to it. *)
Theorem runCuratorAgent_search_links (topicTitle context : jsstring) (gen : generation)
    (content : CuratedContent) :
  codeUnits topicTitle -> codeUnits context ->
  match outcome (retryWithBackoff_default gen) with
  | inl _ => True
  | inr response => omap cited (chunksOf response) = []
  end ->
  runCuratorAgent topicTitle context gen = inr content ->
  Forall isSearchLink (List.map res_uri (resources content)).
Proof.
  intros Ht Hc Hpath.
  assert (Hcatch : curatorFallback topicTitle = inr content ->
                   Forall isSearchLink (List.map res_uri (resources content))).
  { unfold curatorFallback. destruct (encodeURIComponent topicTitle) as [q|] eqn:Hq; [|done].
    intros [= <-]. simpl. constructor; [|constructor].
    exists q. split; [by left|]. by apply (encodeURIComponent_escaped topicTitle). }
  unfold runCuratorAgent, tryCurate.
  destruct (outcome (retryWithBackoff_default gen)) as [error|response]; [done|].
  unfold curate. rewrite Hpath. simpl toResources. cbv beta iota.
  assert (enrich topicTitle response [] = []) as ->.
  { apply length_zero_iff_nil. by rewrite enrich_length. }
  unfold withFallback.
  destruct (encodeURIComponent (topicTitle ++ _)) as [q|] eqn:Hq; [|done].
  destruct (encodeURIComponent (topicTitle ++ lit " tutorial")) as [qYt|] eqn:HqYt; [|done].
  intros [= <-]. simpl.
  assert (codeUnits (lit " tutorial")) as Htut by (repeat constructor).
  constructor; [|constructor; [|constructor]].
  - exists q. split; [by left|]. eapply encodeURIComponent_escaped; [|exact Hq].
    apply Forall_app. split; [done|]. apply Forall_app. split; [by repeat constructor|].
    apply Forall_app. by split.
  - exists qYt. split; [by right|]. eapply encodeURIComponent_escaped; [|exact HqYt].
    apply Forall_app. by split.
Qed.

End SearchLinks.

Lemma runCuratorAgent_search_links_witness :
  Forall isSearchLink
    [ lit "https://www.google.com/search?q=C%23%20%26%20.NET%3F" ].
Proof.
  apply (runCuratorAgent_search_links (H := refPlatform) (lit "C# & .NET?") sqlContext
           networkDown
           (mkContent (lit "Could not curate specific resources due to an error.")
              [ mkResource
                  (lit "Search " ++ [34] ++ lit "C# & .NET?" ++ [34] ++ lit " on Google")
                  (lit "https://www.google.com/search?q=C%23%20%26%20.NET%3F")
                  (Some (lit "google.com")) None (JStr (lit "Manual search fallback.")) ])).
  - repeat constructor.
  - repeat constructor.
  - exact I.
  - vm_compute. reflexivity.
Defined.

(** ** Markdown fences *)

Lemma removeFences_no_backtick (a b : jsstring) :
  noBacktick a -> removeFences 0 (a ++ b) = a ++ removeFences 0 b.
Proof.
  induction 1 as [|c a Hc Ha IH]; [done|].
  change ((c :: a) ++ b) with (c :: (a ++ b)). cbn [removeFences].
  assert (forall p, startsWith (96 :: p) (c :: a ++ b) = false) as Hs.
  { intros p. unfold startsWith. cbn [stripPrefix].
    destruct (N.eqb_spec 96 c); [congruence | done]. }
  change (lit "```json") with (96 :: lit "``json"). rewrite Hs.
  change (lit "```") with (96 :: lit "``"). rewrite Hs.
  simpl. by rewrite IH.
Qed.

Lemma allWhiteSpace_noBacktick (ws : jsstring) : allWhiteSpace ws -> noBacktick ws.
Proof. intros Hws. eapply Forall_impl; [exact Hws|]. by intros c Hc ->. Qed.

Lemma trimStart_white (ws s : jsstring) : allWhiteSpace ws -> trimStart (ws ++ s) = trimStart s.
Proof. induction 1 as [|c ws Hc Hws IH]; [done|]. simpl. by rewrite Hc. Qed.

Lemma trimStart_clean (s : jsstring) : startsClean s -> trimStart s = s.
Proof. destruct s as [|c s]; [done|]. simpl. by intros ->. Qed.

Lemma trim_padded (ws1 ws2 body : jsstring) :
  allWhiteSpace ws1 -> allWhiteSpace ws2 -> trim body = body ->
  trim (ws1 ++ body ++ ws2) = body.
Proof.
  intros H1 H2 Hb. unfold trim. rewrite trimStart_white by done.
  destruct body as [|c body].
  - simpl. replace (trimStart ws2) with (@nil N); [done|].
    rewrite <- (app_nil_r ws2). by rewrite trimStart_white.
  - assert (startsClean (c :: body)) as Hc.
    { rewrite <- Hb. apply trim_startsClean. by rewrite Hb. }
    rewrite trimStart_clean by done.
    unfold trim in Hb. rewrite trimStart_clean in Hb by done.
    unfold trimEnd in *. rewrite rev_app_distr, trimStart_white; [done|].
    by apply Forall_rev.
Qed.

Lemma white_then_backtick (ws r t : jsstring) (c : N) :
  allWhiteSpace ws -> isWhiteSpace c = false -> c <> 96 -> ws ++ 96 :: t = c :: r -> False.
Proof.
  intros Hws Hc Hn E. destruct ws as [|x ws]; simplify_eq/=.
  apply Forall_cons in Hws as [Hx _]. congruence.
Qed.

(** An answer wrapped in a Markdown fence, with white space around the body,
    is reduced to its body, and so is a bare answer with white space around
    it: [JSON.parse] is given the body, provided the body holds no backtick
    and has no white space at its ends. *)
Theorem stripFences_fenced (ws1 ws2 body : jsstring) :
  allWhiteSpace ws1 -> allWhiteSpace ws2 -> noBacktick body -> trim body = body ->
  stripFences (lit "```json" ++ ws1 ++ body ++ ws2 ++ lit "```") = body /\
  (startsWith (lit "json") (ws1 ++ body) = false ->
   stripFences (lit "```" ++ ws1 ++ body ++ ws2 ++ lit "```") = body) /\
  stripFences (ws1 ++ body ++ ws2) = body.
Proof.
  intros H1 H2 Hb Ht.
  assert (noBacktick (ws1 ++ body ++ ws2)) as Hno.
  { apply Forall_app. split; [by apply allWhiteSpace_noBacktick|].
    apply Forall_app. split; [done | by apply allWhiteSpace_noBacktick]. }
  assert (removeFences 0 (ws1 ++ body ++ ws2 ++ lit "```") = ws1 ++ body ++ ws2) as Hin.
  { replace (ws1 ++ body ++ ws2 ++ lit "```") with ((ws1 ++ body ++ ws2) ++ lit "```")
      by (by rewrite <- !app_assoc).
    rewrite removeFences_no_backtick by done.
    change (removeFences 0 (lit "```")) with (@nil N). by rewrite app_nil_r. }
  unfold stripFences. split; [|split].
  - change (removeFences 0 (lit "```json" ++ ws1 ++ body ++ ws2 ++ lit "```"))
      with (removeFences 0 (ws1 ++ body ++ ws2 ++ lit "```")).
    rewrite Hin. by apply trim_padded.
  - intros Hj.
    assert (removeFences 0 (lit "```" ++ ws1 ++ body ++ ws2 ++ lit "```")
            = removeFences 0 (ws1 ++ body ++ ws2 ++ lit "```")) as ->.
    { change (lit "```" ++ ws1 ++ body ++ ws2 ++ lit "```")
        with (96 :: lit "``" ++ ws1 ++ body ++ ws2 ++ lit "```").
      cbn [removeFences].
      assert (startsWith (lit "```json") (96 :: lit "``" ++ ws1 ++ body ++ ws2 ++ lit "```")
              = false) as ->.
      { replace (ws1 ++ body ++ ws2 ++ lit "```") with ((ws1 ++ body) ++ ws2 ++ lit "```")
          by (by rewrite <- !app_assoc).
        revert Hj. generalize (ws1 ++ body). intros l Hl.
        unfold startsWith in *.
        destruct (stripPrefix (lit "```json") _) as [r|] eqn:E; [|done].
        apply stripPrefix_Some in E.
        change (lit "```json" ++ r) with (lit "```" ++ lit "json" ++ r) in E.
        change (96 :: lit "``" ++ l ++ ws2 ++ lit "```")
          with (lit "```" ++ l ++ ws2 ++ lit "```") in E.
        apply app_inv_head in E.
        assert (stripPrefix (lit "json") l = None) as Hn
          by (destruct (stripPrefix (lit "json") l); done).
        exfalso. clear Hl.
        change (lit "json") with [106; 115; 111; 110] in *.
        destruct l as [|a [|b [|c [|d l]]]]; simplify_eq/=.
        all: match goal with
             | Hx : ?w ++ _ = _ :: _ |- _ =>
                 by apply (white_then_backtick w) in Hx
             end. }
      change (startsWith (lit "```") (96 :: lit "``" ++ ws1 ++ body ++ ws2 ++ lit "```"))
        with true.
      reflexivity. }
    rewrite Hin. by apply trim_padded.
  - replace (ws1 ++ body ++ ws2) with ((ws1 ++ body ++ ws2) ++ []) at 1
      by (by rewrite app_nil_r).
    rewrite removeFences_no_backtick by done. rewrite app_nil_r. by apply trim_padded.
Qed.

Lemma stripFences_fenced_witness :
  stripFences (lit "```json" ++ [10] ++ onlyModulesText ++ [10] ++ lit "```") = onlyModulesText.
Proof.
  refine (proj1 (stripFences_fenced [10] [10] onlyModulesText _ _ _ _)).
  - by repeat constructor.
  - by repeat constructor.
  - by repeat constructor.
  - reflexivity.
Defined.

(** ** The video id, whatever the host *)

Lemma afterVideoMarker_literal (m post : jsstring) :
  In m literalMarkers -> afterVideoMarker post = None ->
  afterVideoMarker (m ++ post) = Some post.
Proof.
  unfold literalMarkers. simpl. intros [<-|[<-|[<-|[<-|[<-|[<-|[]]]]]]] Hp.
  - change (lit "watch?v=" ++ post) with (119 :: 97 :: 116 :: 99 :: 104 :: 63 :: 118 :: 61 :: post).
    rewrite !afterVideoMarker_cons, Hp. reflexivity.
  - change (lit "youtu.be/" ++ post)
      with (121 :: 111 :: 117 :: 116 :: 117 :: 46 :: 98 :: 101 :: 47 :: post).
    rewrite !afterVideoMarker_cons, Hp. reflexivity.
  - change (lit "embed/" ++ post) with (101 :: 109 :: 98 :: 101 :: 100 :: 47 :: post).
    rewrite !afterVideoMarker_cons, Hp. reflexivity.
  - change (lit "shorts/" ++ post) with (115 :: 104 :: 111 :: 114 :: 116 :: 115 :: 47 :: post).
    rewrite !afterVideoMarker_cons, Hp. reflexivity.
  - change (lit "v/" ++ post) with (118 :: 47 :: post).
    rewrite !afterVideoMarker_cons, Hp. reflexivity.
  - change (lit "&v=" ++ post) with (38 :: 118 :: 61 :: post).
    rewrite !afterVideoMarker_cons, Hp. reflexivity.
Qed.

Lemma afterVideoMarker_prefix (pre s post : jsstring) :
  noLineTerminator pre -> afterVideoMarker s = Some post ->
  afterVideoMarker (pre ++ s) = Some post.
Proof.
  intros Hpre Hs. induction Hpre as [|c pre Hc Hpre IH]; [done|].
  change ((c :: pre) ++ s) with (c :: pre ++ s).
  by rewrite afterVideoMarker_cons, Hc, IH.
Qed.

(** The host of the URL plays no part: whatever precedes the marker (on one
    line), a URL that continues with one of the plain markers and then a
    rest without [/] and without [v=] gets the id that starts the rest, when
    that id has eleven code units; and the thumbnail is built from it. *)
Theorem getYouTubeVideoId_any_host (pre m post : jsstring) :
  In m literalMarkers -> noLineTerminator pre -> noSlash post ->
  includes (lit "v=") post = false ->
  length (takeRun isIdUnit post) = 11%nat ->
  getYouTubeVideoId (pre ++ m ++ post) = Some (takeRun isIdUnit post) /\
  getYouTubeThumbnail (pre ++ m ++ post)
    = Some (lit "https://img.youtube.com/vi/" ++ takeRun isIdUnit post ++ lit "/hqdefault.jpg").
Proof.
  intros Hm Hpre Hs Hv Hlen.
  assert (getYouTubeVideoId (pre ++ m ++ post) = Some (takeRun isIdUnit post)) as Hid.
  { unfold getYouTubeVideoId.
    rewrite (afterVideoMarker_prefix pre (m ++ post) post Hpre)
      by (by apply afterVideoMarker_literal; [|apply afterVideoMarker_none]).
    rewrite Hlen. simpl.
    destruct (pre ++ m ++ post) as [|c url] eqn:E; [|done].
    apply app_eq_nil in E as [_ E]. apply app_eq_nil in E as [E _].
    unfold literalMarkers in Hm. simpl in Hm. rewrite E in Hm.
    by destruct Hm as [?|[?|[?|[?|[?|[?|[]]]]]]]. }
  split; [done|]. unfold getYouTubeThumbnail. by rewrite Hid.
Qed.

Lemma getYouTubeVideoId_any_host_witness :
  getYouTubeVideoId (lit "https://example.org/embed/abcdefghijk?start=5") = Some (lit "abcdefghijk") /\
  getYouTubeThumbnail (lit "https://example.org/embed/abcdefghijk?start=5")
    = Some (lit "https://img.youtube.com/vi/abcdefghijk/hqdefault.jpg").
Proof.
  apply (getYouTubeVideoId_any_host (lit "https://example.org/") (lit "embed/")
           (lit "abcdefghijk?start=5")).
  - right. right. left. reflexivity.
  - by repeat constructor.
  - by repeat constructor.
  - reflexivity.
  - reflexivity.
Defined.

(** ** The plan the planner returns *)

Lemma getField_setField_eq (key : jsstring) (v : json) (fields : list (jsstring * json)) :
  getField key (setField key v fields) = Some v.
Proof.
  induction fields as [|[k w] fields IH]; simpl.
  - by rewrite jseq_refl.
  - destruct (jseq k key) eqn:E; simpl; by rewrite E.
Qed.

Lemma getField_setField_ne (key key' : jsstring) (v : json) (fields : list (jsstring * json)) :
  key' <> key -> getField key' (setField key v fields) = getField key' fields.
Proof.
  intros Hne. induction fields as [|[k w] fields IH]; simpl.
  - assert (jseq key key' = false) as ->; [|done]. apply jseq_neq. congruence.
  - destruct (jseq k key) eqn:E; simpl; [|by rewrite IH].
    apply jseq_eq in E as ->.
    assert (jseq key key' = false) as ->; [|done]. apply jseq_neq. congruence.
Qed.

Lemma lit_inj (s s' : string) : lit s = lit s' -> s = s'.
Proof.
  unfold lit. intros E.
  rewrite <- (string_of_list_ascii_of_string s), <- (string_of_list_ascii_of_string s').
  f_equal. revert E. generalize (list_ascii_of_string s), (list_ascii_of_string s').
  induction l as [|a l IH]; intros [|a' l']; simpl; try done.
  intros [= Ea El]. f_equal; [|by apply IH].
  by rewrite <- (ascii_N_embedding a), <- (ascii_N_embedding a'), Ea.
Qed.

Lemma decimal_inj (n n' : nat) : decimal n = decimal n' -> n = n'.
Proof.
  unfold decimal. intros E%lit_inj. apply Unsigned.to_uint_inj.
  assert (Some (Nat.to_uint n) = Some (Nat.to_uint n')) as [= ?]; [|done].
  by rewrite <- !NilEmpty.usu, E.
Qed.

Lemma decimal_digits (n : nat) : Forall (fun c => isDigit c = true) (decimal n).
Proof.
  unfold decimal. generalize (Nat.to_uint n). intros d.
  induction d; simpl; constructor; done.
Qed.

(** Two digit strings followed by the same non-digit split a string in one
    way only. *)
Lemma digits_then (c : N) (a a' r r' : jsstring) :
  isDigit c = false ->
  Forall (fun x => isDigit x = true) a -> Forall (fun x => isDigit x = true) a' ->
  a ++ c :: r = a' ++ c :: r' -> a = a' /\ r = r'.
Proof.
  intros Hc Ha. revert a'. induction Ha as [|x a Hx Ha IH]; intros a' Ha' E.
  - destruct Ha' as [|x' a' Hx' Ha']; simplify_eq/=; [done|]. congruence.
  - destruct Ha' as [|x' a' Hx' Ha']; simplify_eq/=; [congruence|].
    destruct (IH a' Ha' H0) as [-> ->]. done.
Qed.

Lemma topicId_inj (mIdx tIdx mIdx' tIdx' : nat) :
  topicId mIdx tIdx = topicId mIdx' tIdx' -> mIdx = mIdx' /\ tIdx = tIdx'.
Proof.
  unfold topicId. intros E. apply app_inv_head in E.
  change (lit "-t" ++ decimal tIdx) with (45 :: 116 :: decimal tIdx) in E.
  change (lit "-t" ++ decimal tIdx') with (45 :: 116 :: decimal tIdx') in E.
  apply digits_then in E as [E1 E2]; [| done | apply decimal_digits | apply decimal_digits].
  injection E2 as E2. split; by apply decimal_inj.
Qed.

(** The ids the planner writes are pairwise different: two processed topics
    carry the same id exactly when they come from the same position. *)
Theorem processTopic_id_unique (mIdx tIdx mIdx' tIdx' : nat) (top top' : json) :
  getProp (lit "id") (processTopic mIdx tIdx top)
    = getProp (lit "id") (processTopic mIdx' tIdx' top')
  <-> mIdx = mIdx' /\ tIdx = tIdx'.
Proof.
  unfold processTopic, getProp. rewrite !getField_setField_eq.
  change (Some (JStr (topicId mIdx tIdx)) = Some (JStr (topicId mIdx' tIdx'))
          <-> mIdx = mIdx' /\ tIdx = tIdx').
  split.
  - intros E. apply topicId_inj. congruence.
  - by intros [-> ->].
Qed.

Lemma processModule_inv (mIdx : nat) (mdl m' : json) :
  processModule mIdx mdl = inr m' ->
  exists fields tops,
    mdl = JObj fields /\ getField (lit "topics") fields = Some (JArr tops) /\
    m' = JObj (setField (lit "topics") (JArr (imap (processTopic mIdx) tops)) fields).
Proof.
  unfold processModule. destruct mdl as [|b|q|s|items|fields]; try done. simpl.
  destruct (getField (lit "topics") fields) as [[|b|q|s|tops|fs]|] eqn:E; try done.
  intros [= <-]. by exists fields, tops.
Qed.

Lemma processModules_lookup (k : nat) (mods processed : list json) (i : nat) :
  processModules k mods = inr processed ->
  match mods !! i with
  | Some mdl => exists m', processed !! i = Some m' /\ processModule (k + i) mdl = inr m'
  | None => processed !! i = None
  end.
Proof.
  revert k processed i; induction mods as [|mdl mods IH]; intros k processed i; simpl.
  - by intros [= <-].
  - destruct (processModule k mdl) as [e|m] eqn:Em; [done|].
    destruct (processModules (S k) mods) as [e|ms] eqn:Ems; [done|].
    intros [= <-]. destruct i as [|i]; simpl.
    + exists m. by rewrite Nat.add_0_r.
    + specialize (IH (S k) ms i Ems).
      replace (k + S i)%nat with (S k + i)%nat by lia. done.
Qed.

Section PlannerResult.
Context `{Platform}.

(** What a plan that [runPlannerAgent] returns holds.  It is the parsed
    object with three fields overwritten: [id] is the fresh UUID and
    [createdAt] the current time, whatever the model wrote there, and
    [modules] is the processed array; every other field is passed through
    unread.  No module and no topic is added, dropped or moved; every module
    keeps its fields apart from [topics]; and the topic at position
    [(mIdx, tIdx)] has the id [m{mIdx}-t{tIdx}] and, apart from [id], the
    fields the model gave it. *)
Theorem runPlannerAgent_result (uuid : jsstring) (now : Z) (gen : generation) (plan : json) :
  runPlannerAgent uuid now gen = inr plan ->
  exists response t data,
    outcome (retryWithBackoff_default gen) = inr response /\
    text response = Some t /\
    JSON_parse (stripFences t) = Some data /\
    getProp (lit "id") plan = Some (JStr uuid) /\
    getProp (lit "createdAt") plan = Some (JNum (inject_Z now)) /\
    (forall key,
       key <> lit "id" -> key <> lit "createdAt" -> key <> lit "modules" ->
       getProp key plan = getProp key data) /\
    (forall mIdx,
       match moduleAt data mIdx with
       | Some mdl =>
           exists mdl', moduleAt plan mIdx = Some mdl' /\
             forall key, key <> lit "topics" -> getProp key mdl' = getProp key mdl
       | None => moduleAt plan mIdx = None
       end) /\
    (forall mIdx tIdx,
       match topicAt data mIdx tIdx with
       | Some top =>
           exists top', topicAt plan mIdx tIdx = Some top' /\
             getProp (lit "id") top' = Some (JStr (topicId mIdx tIdx)) /\
             forall key, key <> lit "id" -> getProp key top' = getField key (spreadOf top)
       | None => topicAt plan mIdx tIdx = None
       end).
Proof.
  unfold runPlannerAgent.
  destruct (outcome (retryWithBackoff_default gen)) as [error|response]; [done|].
  unfold planFromResponse.
  destruct (text response) as [[|c t]|] eqn:Ht; try done.
  destruct (JSON_parse (stripFences (c :: t))) as [data|] eqn:Hp; [|done].
  destruct data as [|b|q|s|items|fields]; try done. simpl.
  destruct (getField (lit "modules") fields) as [[|b|q|s|mods|fs]|] eqn:Hm; try done.
  destruct (processModules 0 mods) as [e|processed] eqn:Hproc; [done|].
  intros [= <-]. exists response, (c :: t), (JObj fields).
  split; [done|]. split; [done|]. split; [done|].
  assert (Hmods : forall mIdx,
            match mods !! mIdx with
            | Some mdl =>
                exists flds tops,
                  mdl = JObj flds /\ getField (lit "topics") flds = Some (JArr tops) /\
                  processed !! mIdx
                    = Some (JObj (setField (lit "topics")
                                    (JArr (imap (processTopic mIdx) tops)) flds))
            | None => processed !! mIdx = None
            end).
  { intros mIdx. pose proof (processModules_lookup 0 mods processed mIdx Hproc) as Hl.
    destruct (mods !! mIdx) as [mdl|]; [|done].
    destruct Hl as (m' & Hm' & Hpm). simpl in Hpm.
    apply processModule_inv in Hpm as (flds & tops & -> & Htops & ->).
    by exists flds, tops. }
  split; [|split; [|split; [|split]]].
  - simpl. rewrite getField_setField_ne, getField_setField_ne by done.
    apply getField_setField_eq.
  - simpl. rewrite getField_setField_ne by done. apply getField_setField_eq.
  - intros key H1 H2 H3. simpl. by rewrite !getField_setField_ne.
  - intros mIdx. unfold moduleAt. simpl. rewrite getField_setField_eq, Hm.
    specialize (Hmods mIdx). destruct (mods !! mIdx) as [mdl|]; [|done].
    destruct Hmods as (flds & tops & -> & Htops & ->). eexists. split; [done|].
    intros key Hk. simpl. by rewrite getField_setField_ne.
  - intros mIdx tIdx. unfold topicAt, moduleAt. simpl. rewrite getField_setField_eq, Hm.
    specialize (Hmods mIdx). destruct (mods !! mIdx) as [mdl|]; [|by rewrite Hmods].
    destruct Hmods as (flds & tops & -> & Htops & ->). simpl.
    rewrite getField_setField_eq, Htops, list_lookup_imap.
    destruct (tops !! tIdx) as [top|]; [|done]. simpl.
    eexists. split; [done|]. unfold processTopic. simpl. split.
    + apply getField_setField_eq.
    + intros key Hk. by rewrite getField_setField_ne.
Qed.

End PlannerResult.

(** ** Traces of the controller *)

Lemma appAfter_emit (tr : list event) (e : event) :
  appAfter (tr ++ [e]) = dispatch (appAfter tr) e.
Proof. unfold appAfter. by rewrite fold_left_app. Qed.

(** The state of [App] after a run: the last status and the last document. *)
Lemma appAfter_last (tr : list event) :
  appAfter tr = mkApp (default (app_status initialApp) (lastStatus tr)) (lastDocument tr).
Proof.
  induction tr as [|e tr IH] using rev_ind; [done|].
  rewrite appAfter_emit, IH, lastStatus_emit, lastDocument_emit. by destruct e.
Qed.

Section Traces.
Context `{Platform}.
Variable curator : nat -> jsstring -> jsstring -> exn + CuratedContent.

Lemma atCall_trace (prefs : UserPreferences) (plan : Curriculum) (total i : nat)
    (t : Topic) (mi ti : nat) (m m0 : Module) (st : Controller) :
  modules plan !! mi = Some m0 -> module_title m = module_title m0 ->
  trace (atCall i total t mi m prefs st)
    = trace st ++ callEvents prefs plan total i (t, mi, ti) /\
  curatorContext prefs m = contextAt prefs plan mi.
Proof.
  intros Hm0 Htitle. unfold atCall, callEvents, contextAt. rewrite Hm0.
  assert (curatorContext prefs m = curatorContext prefs m0) as ->.
  { unfold curatorContext. by rewrite Htitle. }
  split; [|done]. destruct (0 <? i)%nat; simpl; by rewrite <- ?app_assoc.
Qed.

(** The loop and its events: the heap changes, the titles of the modules do
    not, so the events are those read off the plan. *)
Lemma curationLoop_events (prefs : UserPreferences) (plan : Curriculum) (total : nat) :
  forall d i st,
    (i + d = length (flatten (modules plan)))%nat ->
    sameShape (modules plan) (heap st) ->
    trace (curationLoop curator prefs plan (seq 0 (length (modules plan))) total i
             (drop i (flatten (modules plan))) st).1
      = trace st ++
        (loopEvents curator prefs plan total i (drop i (flatten (modules plan)))).1 /\
    (curationLoop curator prefs plan (seq 0 (length (modules plan))) total i
       (drop i (flatten (modules plan))) st).2
      = (loopEvents curator prefs plan total i (drop i (flatten (modules plan)))).2.
Proof.
  induction d as [|d IH]; intros i st Hid Hshape.
  - assert (i = length (flatten (modules plan))) as -> by lia.
    rewrite drop_all. simpl. by rewrite app_nil_r.
  - destruct (lookup_lt_is_Some_2 (flatten (modules plan)) i) as [[[t mi] ti] Hi]; [lia|].
    rewrite (drop_S _ _ _ Hi).
    pose proof Hi as (m0 & Hm0 & Ht)%flatten_lookup.
    pose proof Hshape as [Hlen Hsh]. destruct (Hsh mi m0 Hm0) as (m & Hm & Htitle & _).
    rewrite (curationLoop_step curator _ _ _ _ _ _ mi ti mi m);
      [| apply lookup_seq_lt; by eapply lookup_lt_Some | done].
    destruct (atCall_trace prefs plan total i t mi ti m m0 st Hm0 Htitle) as [Htr Hctx].
    cbn [loopEvents fst snd]. rewrite Hctx.
    destruct (curator i (topic_title t) (contextAt prefs plan mi)) as [e|content].
    + cbn [fst snd]. by rewrite Htr.
    + destruct (atCall_facts i total t mi m prefs st) as (Hh & _ & _).
      match goal with |- context [curationLoop _ _ _ _ _ (S i) _ ?st5] =>
        destruct (IH (S i) st5) as [Ht5 Hr5]
      end.
      * lia.
      * cbn [emit heap]. rewrite Hh. by apply sameShape_merge.
      * rewrite Ht5, Hr5. cbn [emit trace fst snd]. rewrite Htr.
        split; [|done]. rewrite <- !app_assoc. simpl. done.
Qed.

(** The trace of a run whose planner returned [plan]. *)
Lemma startGeneration_events (prefs : UserPreferences) (plan : Curriculum) :
  trace (startGeneration curator prefs (inr plan))
    = [ SetStatus (mkStatus planning (lit "Planner Agent is designing the syllabus...") 0 None);
        SetCurriculum (published plan);
        SetStatus (mkStatus curating (lit "Curator Agent is finding resources...") 0 None) ] ++
      (loopEvents curator prefs plan (length (flatten (modules plan))) 0
         (flatten (modules plan))).1 ++
      [ SetStatus
          match (loopEvents curator prefs plan (length (flatten (modules plan))) 0
                   (flatten (modules plan))).2 with
          | None => mkStatus complete (lit "Curriculum ready!") 100 None
          | Some _ => errorStatus
          end ].
Proof.
  unfold startGeneration.
  match goal with |- context [curationLoop _ _ _ _ ?total 0 _ ?st] =>
    destruct (curationLoop_events prefs plan total (length (flatten (modules plan))) 0%nat st)
      as [Htr Hr]
  end.
  - lia.
  - apply sameShape_refl.
  - rewrite drop_0 in Htr, Hr.
    destruct (curationLoop _ _ _ _ _ _ _ _) as [st' r]. simpl in Htr, Hr. subst r.
    destruct (loopEvents _ _ _ _ _ _).2; cbn [emit trace]; rewrite Htr; simpl;
      by rewrite <- ?app_assoc.
Qed.

(** *** A run in which every call of the curator returns *)

Lemma loopEvents_complete (prefs : UserPreferences) (plan : Curriculum)
    (c : nat -> CuratedContent) (total : nat) :
  succeedsBefore curator prefs plan c (length (flatten (modules plan))) ->
  forall d i,
    (i + d = length (flatten (modules plan)))%nat ->
    loopEvents curator prefs plan total i (drop i (flatten (modules plan)))
      = (List.concat
           (imap (fun j x => callEvents prefs plan total (i + j) x ++
                             [SetCurriculum (published plan)])
              (drop i (flatten (modules plan)))),
         None).
Proof.
  intros Hsucc. induction d as [|d IH]; intros i Hid.
  - assert (i = length (flatten (modules plan))) as -> by lia. by rewrite drop_all.
  - destruct (lookup_lt_is_Some_2 (flatten (modules plan)) i) as [[[t mi] ti] Hi]; [lia|].
    rewrite (drop_S _ _ _ Hi).
    pose proof Hi as (m0 & Hm0 & Ht)%flatten_lookup.
    cbn [loopEvents fst snd]. unfold contextAt at 1. rewrite Hm0.
    rewrite (Hsucc i t mi ti m0); [|lia|done|done].
    rewrite (IH (S i)) by lia. cbn [fst snd imap]. simpl List.concat.
    rewrite Nat.add_0_r. f_equal. rewrite <- app_assoc. simpl. do 2 f_equal.
    f_equal. apply imap_ext. intros j x _. simpl. by rewrite Nat.add_succ_r.
Qed.

(** When the curator returns for every topic, the run does exactly this, in
    this order: the planning status, the bare plan, the first curating
    status; then for each topic, in flattening order, a wait of 6000 ms
    (not before the first topic), the status that names the module number,
    the rounded percentage and the topic, the call of the curator with the
    topic title and the context string of its module, and the document; and
    last the [complete] status. *)
Theorem startGeneration_trace (prefs : UserPreferences) (plan : Curriculum)
    (c : nat -> CuratedContent) :
  succeedsBefore curator prefs plan c (length (flatten (modules plan))) ->
  trace (startGeneration curator prefs (inr plan)) = completeTrace prefs plan.
Proof.
  intros Hsucc. rewrite startGeneration_events.
  pose proof (loopEvents_complete prefs plan c (length (flatten (modules plan))) Hsucc
                (length (flatten (modules plan))) 0%nat) as Hev.
  rewrite drop_0 in Hev. rewrite Hev by lia. reflexivity.
Qed.

(** *** Throttling, whatever the curator does *)

Lemma sleeps_app (a b : list event) : sleeps (a ++ b) = sleeps a ++ sleeps b.
Proof. unfold sleeps. by rewrite omap_app. Qed.

Lemma waitsBeforeCalls_status (pending : list Z) (tr : list event) (s : AgentStatus) :
  waitsBeforeCalls pending (tr ++ [SetStatus s]) = waitsBeforeCalls pending tr.
Proof.
  revert pending; induction tr as [|e tr IH]; intros pending; [done|].
  destruct e; simpl; by rewrite IH.
Qed.

Lemma loopEvents_throttled (prefs : UserPreferences) (plan : Curriculum) (total : nat)
    (todo : list (Topic * nat * nat)) :
  forall i,
    (0 < i)%nat ->
    sleeps (loopEvents curator prefs plan total i todo).1
      = replicate (length (curatorCalls (loopEvents curator prefs plan total i todo).1)) 6000%Z /\
    waitsBeforeCalls [] (loopEvents curator prefs plan total i todo).1
      = replicate (length (curatorCalls (loopEvents curator prefs plan total i todo).1))
          [6000%Z].
Proof.
  induction todo as [|[[t mi] ti] todo IH]; intros i Hi; [done|].
  cbn [loopEvents fst snd]. unfold callEvents.
  destruct (Nat.ltb_spec 0 i) as [_|]; [|lia].
  destruct (curator i (topic_title t) (contextAt prefs plan mi)) as [e|content]; [done|].
  destruct (IH (S i)) as [Hs Hw]; [lia|].
  cbn [fst snd]. simpl. rewrite Hw. unfold sleeps in *. simpl. by rewrite Hs.
Qed.

(** For every plan and every behaviour of the curator: the first call of the
    curator is not preceded by a wait, every later call is preceded by
    exactly one wait of 6000 ms since the call before it, and there is no
    other wait (none after the last call, none when the planner fails). *)
Theorem startGeneration_throttled (prefs : UserPreferences) (planner : exn + Curriculum) :
  waitsBeforeCalls [] (trace (startGeneration curator prefs planner))
    = take (length (curatorCalls (trace (startGeneration curator prefs planner))))
        ([] :: replicate
                 (length (curatorCalls (trace (startGeneration curator prefs planner))) - 1)
                 [6000%Z]) /\
  sleeps (trace (startGeneration curator prefs planner))
    = replicate (length (curatorCalls (trace (startGeneration curator prefs planner))) - 1)
        6000%Z.
Proof.
  destruct planner as [e|plan]; [done|].
  rewrite startGeneration_events.
  set (total := length (flatten (modules plan))).
  set (final := match _ with None => _ | Some _ => _ end).
  change ([?a; ?b; ?c] ++ ?evs ++ [SetStatus final]) with (a :: b :: c :: (evs ++ [SetStatus final])).
  cbn [waitsBeforeCalls]. rewrite waitsBeforeCalls_status.
  unfold sleeps at 1, curatorCalls. cbn [omap list_omap]. 
  fold (sleeps ((loopEvents curator prefs plan total 0 (flatten (modules plan))).1
             ++ [SetStatus final])).
  fold (curatorCalls ((loopEvents curator prefs plan total 0 (flatten (modules plan))).1
             ++ [SetStatus final])).
  rewrite sleeps_app, curatorCalls_emit, !app_nil_r.
  destruct (flatten (modules plan)) as [|[[t mi] ti] todo]; [done|].
  cbn [loopEvents fst snd]. unfold callEvents. simpl (0 <? 0)%nat. cbn iota.
  destruct (curator 0 (topic_title t) (contextAt prefs plan mi)) as [e|content]; [done|].
  destruct (loopEvents_throttled prefs plan total todo 1) as [Hs Hw]; [lia|].
  cbn [fst snd]. simpl. rewrite Hw, Nat.sub_0_r. unfold sleeps in *. simpl.
  rewrite Hs. split; [|done].
  f_equal. by rewrite take_ge by (by rewrite length_replicate).
Qed.

End Traces.

(** ** Partial and complete results *)

(** The slot of a topic after the merge: it holds the curated content, and
    the other fields of the topic as the planner gave them. *)
Lemma withContent_fields (t : Topic) (content : CuratedContent) :
  curatedContent (withContent t content) = Some content /\
  topic_id (withContent t content) = topic_id t /\
  topic_title (withContent t content) = topic_title t /\
  topic_description (withContent t content) = topic_description t /\
  actionableStep (withContent t content) = actionableStep t.
Proof. by repeat split. Qed.

Section Results.
Context `{Platform}.
Variable curator : nat -> jsstring -> jsstring -> exn + CuratedContent.

Lemma callEvents_callFor (prefs : UserPreferences) (plan : Curriculum) (total i : nat)
    (x : Topic * nat * nat) :
  curatorCalls (callEvents prefs plan total i x) = [callFor prefs plan x].
Proof. destruct x as [[t mi] ti]. unfold callEvents. by destruct (0 <? i)%nat. Qed.

(** Whatever the curator does, the calls of the loop are the calls for a
    prefix of its list of topics, in the order of the list. *)
Lemma loopEvents_calls (prefs : UserPreferences) (plan : Curriculum) (total : nat)
    (todo : list (Topic * nat * nat)) :
  forall i,
    curatorCalls (loopEvents curator prefs plan total i todo).1
      = List.map (callFor prefs plan)
          (take (length (curatorCalls (loopEvents curator prefs plan total i todo).1)) todo).
Proof.
  induction todo as [|x todo IH]; intros i; [done|].
  cbn [loopEvents].
  destruct (curator i (topic_title x.1.1) (contextAt prefs plan x.1.2)) as [e|content];
    cbn [fst snd].
  - by rewrite callEvents_callFor.
  - change (?a ++ ?e :: ?b) with (a ++ [e] ++ b).
    rewrite !curatorCalls_app, callEvents_callFor. cbn [app length take List.map].
    f_equal. apply IH.
Qed.

Lemma startGeneration_calls (prefs : UserPreferences) (plan : Curriculum) :
  curatorCalls (trace (startGeneration curator prefs (inr plan)))
    = List.map (callFor prefs plan)
        (take (length (curatorCalls (trace (startGeneration curator prefs (inr plan)))))
           (flatten (modules plan))).
Proof.
  rewrite (startGeneration_events curator).
  rewrite !curatorCalls_app. cbn [curatorCalls omap list_omap app].
  rewrite app_nil_r. apply loopEvents_calls.
Qed.

(** C9: when the curator returns for the topics before [k] and throws for
    topic [k], the controller has called the curator for the topics [0] to
    [k], in that order, and no more; its last published status is the error
    status; and in the document it published last, read after the run, the
    slot of every topic [j] before [k] holds a topic whose [curatedContent]
    is what the curator returned for it, with the id, title, description and
    actionable step of the plan. *)
Theorem startGeneration_keeps_partial_results (prefs : UserPreferences)
    (plan : Curriculum) (c : nat -> CuratedContent) (k : nat) (e : exn) :
  succeedsBefore curator prefs plan c k ->
  throwsAt curator prefs plan k e ->
  curatorCalls (trace (startGeneration curator prefs (inr plan)))
    = List.map (callFor prefs plan) (take (S k) (flatten (modules plan))) /\
  length (curatorCalls (trace (startGeneration curator prefs (inr plan)))) = S k /\
  (stage <$> lastStatus (trace (startGeneration curator prefs (inr plan)))) = Some error /\
  exists d,
    lastDocument (trace (startGeneration curator prefs (inr plan))) = Some d /\
    forall j t mi ti,
      (j < k)%nat ->
      flatten (modules plan) !! j = Some (t, mi, ti) ->
      exists m topic,
        observe (heap (startGeneration curator prefs (inr plan))) d !! mi = Some m /\
        topics m !! ti = Some topic /\
        curatedContent topic = Some (c j) /\
        topic_id topic = topic_id t /\
        topic_title topic = topic_title t /\
        topic_description topic = topic_description t /\
        actionableStep topic = actionableStep t.
Proof.
  intros Hsucc Hthrow.
  destruct (startGeneration_throws_run curator prefs plan c k e Hsucc Hthrow)
    as (Hlen & Hstatus & d & Hd & Hslots).
  split; [|split; [exact Hlen|split; [exact Hstatus|]]].
  - rewrite startGeneration_calls. by rewrite Hlen.
  - exists d. split; [exact Hd|]. intros j t mi ti Hj Hl.
    destruct (Hslots j t mi ti Hj Hl) as (m & Hm & Ht).
    exists m, (withContent t (c j)). split; [exact Hm|]. split; [exact Ht|].
    apply withContent_fields.
Qed.

(** When the curator returns for every topic, the controller has called it
    once per topic, in flattening order, each time with the title of the
    topic and the context string of its module; the run ends with the
    status [complete], progress 100; and in the document published last,
    read after the run, the slot of every topic [j] holds a topic whose
    [curatedContent] is what the curator returned for it, with the id,
    title, description and actionable step of the plan. *)
Theorem startGeneration_completes (prefs : UserPreferences) (plan : Curriculum)
    (c : nat -> CuratedContent) :
  succeedsBefore curator prefs plan c (length (flatten (modules plan))) ->
  curatorCalls (trace (startGeneration curator prefs (inr plan)))
    = List.map (callFor prefs plan) (flatten (modules plan)) /\
  lastStatus (trace (startGeneration curator prefs (inr plan)))
    = Some (mkStatus complete (lit "Curriculum ready!") 100 None) /\
  exists d,
    lastDocument (trace (startGeneration curator prefs (inr plan))) = Some d /\
    forall j t mi ti,
      flatten (modules plan) !! j = Some (t, mi, ti) ->
      exists m topic,
        observe (heap (startGeneration curator prefs (inr plan))) d !! mi = Some m /\
        topics m !! ti = Some topic /\
        curatedContent topic = Some (c j) /\
        topic_id topic = topic_id t /\
        topic_title topic = topic_title t /\
        topic_description topic = topic_description t /\
        actionableStep topic = actionableStep t.
Proof.
  intros Hsucc.
  destruct (startGeneration_returns_run curator prefs plan c Hsucc)
    as (Hlen & Hstatus & d & Hd & Hslots).
  split; [|split; [exact Hstatus|]].
  - rewrite startGeneration_calls. rewrite Hlen. by rewrite firstn_all.
  - exists d. split; [exact Hd|]. intros j t mi ti Hl.
    destruct (Hslots j t mi ti Hl) as (m & Hm & Ht).
    exists m, (withContent t (c j)). split; [exact Hm|]. split; [exact Ht|].
    apply withContent_fields.
Qed.

End Results.

(** ** What the page shows, and the plan object *)

Lemma documents_app (a b : list event) : documents (a ++ b) = documents a ++ documents b.
Proof. unfold documents. by rewrite omap_app. Qed.

Section Pages.
Context `{Platform}.
Variable curator : nat -> jsstring -> jsstring -> exn + CuratedContent.

Lemma loopEvents_documents (prefs : UserPreferences) (plan : Curriculum) (total : nat)
    (todo : list (Topic * nat * nat)) (i : nat) :
  Forall (fun d => d = published plan)
    (documents (loopEvents curator prefs plan total i todo).1).
Proof.
  revert i; induction todo as [|[[t mi] ti] todo IH]; intros i; [constructor|].
  cbn [loopEvents fst snd]. unfold callEvents.
  destruct (curator i (topic_title t) (contextAt prefs plan mi)) as [e|content]; cbn [fst].
  - destruct (0 <? i)%nat; constructor.
  - rewrite documents_app. apply Forall_app. split.
    + destruct (0 <? i)%nat; constructor.
    + constructor; [done | apply IH].
Qed.

(** Every document of a run is the plan with its module objects, and the
    first one is published before the curator is called. *)
Lemma startGeneration_documents (prefs : UserPreferences) (plan : Curriculum) :
  Forall (fun d => d = published plan)
    (documents (trace (startGeneration curator prefs (inr plan)))) /\
  exists rest,
    trace (startGeneration curator prefs (inr plan))
      = SetStatus (mkStatus planning (lit "Planner Agent is designing the syllabus...") 0 None)
        :: SetCurriculum (published plan) :: rest /\
    curatorCalls (trace (startGeneration curator prefs (inr plan))) = curatorCalls rest.
Proof.
  rewrite (startGeneration_events curator). split.
  - rewrite !documents_app. apply Forall_app. split; [by repeat constructor|].
    apply Forall_app. split; [apply loopEvents_documents | constructor].
  - by eexists.
Qed.

(** The plan object is updated in place.  When the curator returns for every
    topic, the document published first (the bare plan, published before the
    first call of the curator) and every document published after it show,
    when they are read after the run, the curated content of every topic:
    the slot of topic [j] holds a topic whose [curatedContent] is what the
    curator returned for it, with the id, title, description and actionable
    step of the plan. *)
Theorem startGeneration_updates_in_place (prefs : UserPreferences) (plan : Curriculum)
    (c : nat -> CuratedContent) :
  succeedsBefore curator prefs plan c (length (flatten (modules plan))) ->
  (exists d0 rest,
     trace (startGeneration curator prefs (inr plan))
       = SetStatus (mkStatus planning (lit "Planner Agent is designing the syllabus...") 0 None)
         :: SetCurriculum d0 :: rest /\
     curatorCalls (trace (startGeneration curator prefs (inr plan))) = curatorCalls rest) /\
  forall d,
    In d (documents (trace (startGeneration curator prefs (inr plan)))) ->
    forall j t mi ti,
      flatten (modules plan) !! j = Some (t, mi, ti) ->
      exists m topic,
        observe (heap (startGeneration curator prefs (inr plan))) d !! mi = Some m /\
        topics m !! ti = Some topic /\
        curatedContent topic = Some (c j) /\
        topic_id topic = topic_id t /\
        topic_title topic = topic_title t /\
        topic_description topic = topic_description t /\
        actionableStep topic = actionableStep t.
Proof.
  intros Hsucc.
  destruct (startGeneration_documents prefs plan) as [Hdocs (rest & Htr & Hcalls)].
  split; [by exists (published plan), rest|].
  intros d Hd j t mi ti Hl.
  rewrite Forall_forall in Hdocs. rewrite (Hdocs d) by (by apply list_elem_of_In).
  clear Hdocs Htr Hcalls Hd. unfold startGeneration.
  match goal with |- context [curationLoop _ _ _ _ ?total 0 _ ?st] =>
    destruct (curationLoop_completes curator prefs plan c total Hsucc
                (length (flatten (modules plan))) 0%nat st)
      as (st' & Hrun & [Hlen Hshape] & Hmerged & _ & _)
  end.
  - lia.
  - apply sameShape_refl.
  - intros j' t' mi' ti' Hj. lia.
  - cbn [emit trace]. by rewrite !lastDocument_emit.
  - rewrite drop_0 in Hrun. rewrite Hrun. cbn [emit heap].
    unfold published. rewrite <- Hlen, observe_all.
    destruct (Hmerged j t mi ti) as (m & Hm & Ht); [by eapply lookup_lt_Some | done |].
    exists m, (withContent t (c j)). split; [exact Hm|]. split; [exact Ht|].
    apply withContent_fields.
Qed.

(** What the page shows when a run is over.  When the planner throws: the
    input form with the error box.  When the curator returns for every
    topic: the curriculum view.  When the curator throws for a topic, after
    the plan was saved: none of the three blocks, neither the error box nor
    the curriculum with the results so far, since the form needs an absent
    curriculum and the curriculum view needs the stage [complete]. *)
Theorem startGeneration_final_page (prefs : UserPreferences) :
  (forall e,
     render (appAfter (trace (startGeneration curator prefs (inl e))))
       = [FormPanel (Some (message errorStatus))]) /\
  (forall plan c,
     succeedsBefore curator prefs plan c (length (flatten (modules plan))) ->
     render (appAfter (trace (startGeneration curator prefs (inr plan))))
       = [CurriculumPanel (published plan)]) /\
  (forall plan c k e,
     succeedsBefore curator prefs plan c k ->
     throwsAt curator prefs plan k e ->
     appAfter (trace (startGeneration curator prefs (inr plan)))
       = mkApp errorStatus (Some (published plan)) /\
     render (appAfter (trace (startGeneration curator prefs (inr plan)))) = []).
Proof.
  split; [done|]. split.
  - intros plan c Hsucc. rewrite appAfter_last. unfold startGeneration.
    match goal with |- context [curationLoop _ _ _ _ ?total 0 _ ?st] =>
      destruct (curationLoop_completes curator prefs plan c total Hsucc
                  (length (flatten (modules plan))) 0%nat st)
        as (st' & Hrun & _ & _ & _ & Hdoc)
    end.
    + lia.
    + apply sameShape_refl.
    + intros j' t' mi' ti' Hj. lia.
    + cbn [emit trace]. by rewrite !lastDocument_emit.
    + rewrite drop_0 in Hrun. rewrite Hrun. cbn [emit trace].
      by rewrite lastStatus_emit, lastDocument_emit, Hdoc.
  - intros plan c k e Hsucc Hthrow.
    assert (appAfter (trace (startGeneration curator prefs (inr plan)))
            = mkApp errorStatus (Some (published plan))) as ->; [|done].
    rewrite appAfter_last. unfold startGeneration.
    match goal with |- context [curationLoop _ _ _ _ ?total 0 _ ?st] =>
      destruct (curationLoop_throws curator prefs plan c k e total Hsucc Hthrow k 0%nat st)
        as (st' & Hrun & _ & _ & _ & Hdoc)
    end.
    + lia.
    + apply sameShape_refl.
    + intros j' t' mi' ti' Hj. lia.
    + cbn [emit trace]. by rewrite !lastDocument_emit.
    + rewrite drop_0 in Hrun. rewrite Hrun. cbn [emit trace].
      by rewrite lastStatus_emit, lastDocument_emit, Hdoc.
Qed.

End Pages.

Lemma startGeneration_final_page_witness :
  render (appAfter (trace (startGeneration (H := refPlatform) demoCurator demoPrefs
                             (inr demoPlan)))) = [].
Proof.
  refine (proj2 (proj2 (proj2 (startGeneration_final_page (H := refPlatform) demoCurator
                                 demoPrefs))
                   demoPlan (fun _ => demoContent) 1%nat URIError _ _)).
  - intros j t mi ti m0 Hj Hl Hm. destruct j as [|j]; [|lia].
    vm_compute in Hl. injection Hl as <- <- <-.
    vm_compute in Hm. injection Hm as <-.
    vm_compute. reflexivity.
  - exists (mkTopic (lit "m0-t1") [55296] (lit "Grouping rows") (lit "Write a GROUP BY") None),
           0%nat, 1%nat,
           (mkModule (lit "Queries")
              [ mkTopic (lit "m0-t0") (lit "SQL joins") (lit "Joining tables")
                  (lit "Write a join") None;
                mkTopic (lit "m0-t1") [55296] (lit "Grouping rows")
                  (lit "Write a GROUP BY") None ]).
    split; [reflexivity|]. split; [reflexivity|]. vm_compute. reflexivity.
Defined.

(** ** The input form *)

(** [handleSubmit] calls [onSubmit] exactly when the goal holds a code unit
    that is not white space, and then passes the goal as it was typed, with
    the white space around it. *)
Theorem handleSubmit_submits (goal : jsstring) (skillLevel : SkillLevel)
    (timeCommitment : TimeCommitment) :
  (notBlank goal ->
   handleSubmit goal skillLevel timeCommitment = Some (mkPrefs goal skillLevel timeCommitment)) /\
  (~ notBlank goal -> handleSubmit goal skillLevel timeCommitment = None).
Proof.
  unfold handleSubmit. pose proof (trim_notBlank goal) as Hiff.
  destruct (trim goal) as [|c r].
  - split; [|done]. intros Hnb. apply Hiff in Hnb. done.
  - split; [done|]. intros Hn. exfalso. apply Hn, Hiff. done.
Qed.

(** ** The curriculum view *)

Lemma toggled_twice {A} {EqA : EqDecision A} {CountA : Countable A} (x : A) (s : gset A) :
  toggled x (toggled x s) = s.
Proof.
  unfold toggled. destruct (decide (x ∈ s)) as [Hin|Hnot].
  - rewrite decide_False by set_solver. apply set_eq. intros y.
    destruct (decide (y = x)); set_solver.
  - rewrite decide_True by set_solver. set_solver.
Qed.

Lemma toggled_size {A} {EqA : EqDecision A} {CountA : Countable A} (x : A) (s : gset A) :
  size (toggled x s) = if decide (x ∈ s) then (size s - 1)%nat else (size s + 1)%nat.
Proof.
  unfold toggled. destruct (decide (x ∈ s)) as [Hin|Hnot].
  - rewrite size_difference by set_solver. by rewrite size_singleton.
  - rewrite size_union by set_solver. by rewrite size_singleton.
Qed.

(** Clicking the same check box, or the same module header, twice restores
    the state; one click changes the number of completed resources by
    exactly one. *)
Theorem toggleResource_twice (uri : jsstring) (index : nat) (v : ViewState) :
  toggleResource uri (toggleResource uri v) = v /\
  toggleModule index (toggleModule index v) = v /\
  size (completedResources (toggleResource uri v))
    = if decide (uri ∈ completedResources v)
      then (size (completedResources v) - 1)%nat
      else (size (completedResources v) + 1)%nat.
Proof.
  destruct v as [ex sel co fa]. unfold toggleResource, toggleModule. simpl.
  rewrite !toggled_twice. split; [done|]. split; [done|]. apply toggled_size.
Qed.

Lemma fold_left_add (f : Topic -> nat) (l : list Topic) (a : nat) :
  fold_left (fun acc t => (acc + f t)%nat) l a = (a + list_sum (List.map f l))%nat.
Proof.
  revert a; induction l as [|t l IH]; intros a; simpl; [lia|]. rewrite IH. lia.
Qed.

Lemma totalResources_length (mods : list Module) :
  totalResources mods = length (resourceList mods).
Proof.
  unfold totalResources, resourceList, topicList.
  assert (Hgen : forall a,
            fold_left
              (fun acc m => (acc + fold_left (fun tAcc topic => tAcc + resourceCount topic)
                                     (topics m) 0)%nat) mods a
            = (a + length (List.concat (List.map topicResources
                                          (List.concat (List.map topics mods)))))%nat).
  { induction mods as [|m mods IH]; intros a; simpl; [lia|].
    rewrite IH, fold_left_add, map_app, concat_app, length_app.
    assert (list_sum (List.map resourceCount (topics m))
            = length (List.concat (List.map topicResources (topics m)))) as ->; [|lia].
    induction (topics m) as [|t l IHl]; simpl; [done|].
    rewrite length_app, IHl. unfold resourceCount, topicResources.
    by destruct (curatedContent t). }
  apply (Hgen 0%nat).
Qed.

Lemma size_list_to_set_le (l : list jsstring) :
  (size (list_to_set (C := gset jsstring) l) <= length l)%nat.
Proof.
  induction l as [|x l IH]; [by rewrite list_to_set_nil, size_empty|].
  rewrite list_to_set_cons. cbn [length]. etrans; [apply Nat.eq_le_incl, size_union_alt|].
  rewrite size_singleton.
  assert (size (list_to_set (C := gset jsstring) l ∖ {[x]})
          <= size (list_to_set (C := gset jsstring) l))%nat; [|lia].
  apply subseteq_size. set_solver.
Qed.

Lemma size_list_to_set_NoDup (l : list jsstring) :
  size (list_to_set (C := gset jsstring) l) = length l -> NoDup l.
Proof.
  induction l as [|x l IH]; [constructor|]. rewrite list_to_set_cons. cbn [length].
  intros Hsize.
  pose proof (size_list_to_set_le l) as Hle.
  destruct (decide (x ∈ l)) as [Hin|Hnot].
  - exfalso.
    assert ({[x]} ∪ list_to_set (C := gset jsstring) l = list_to_set l) as E by set_solver.
    rewrite E in Hsize. lia.
  - constructor; [done|]. apply IH.
    rewrite size_union in Hsize by set_solver. rewrite size_singleton in Hsize. lia.
Qed.

Lemma afterClicks_completed (curriculum : Curriculum) (clicks : list jsstring) :
  Forall (fun uri => In uri (List.map res_uri (resourceList (modules curriculum)))) clicks ->
  completedResources (afterClicks curriculum clicks)
    ⊆ list_to_set (List.map res_uri (resourceList (modules curriculum))).
Proof.
  unfold afterClicks. intros Hclicks.
  assert (Hgen : forall v,
            completedResources v
              ⊆ list_to_set (List.map res_uri (resourceList (modules curriculum))) ->
            completedResources (fold_left (fun v uri => toggleResource uri v) clicks v)
              ⊆ list_to_set (List.map res_uri (resourceList (modules curriculum)))).
  { induction Hclicks as [|uri clicks Huri Hclicks IH]; intros v Hv; [done|].
    simpl. apply IH. unfold toggleResource, toggled. simpl.
    apply list_elem_of_In in Huri. destruct (decide (uri ∈ completedResources v)); set_solver. }
  apply Hgen. simpl. apply empty_subseteq.
Qed.

Section Progress.
Context `{Platform}.

(** The two progress counters, after any sequence of clicks on check boxes
    of resources of the curriculum.  For the selected topic, [current] never
    exceeds [total].  For the course, the number of completed resources (the
    size of a set of URIs) never exceeds the number of resources (which
    counts every entry), and the two can only be equal when no URI occurs
    twice in the curriculum. *)
Theorem progress_after_clicks (curriculum : Curriculum) (clicks : list jsstring) :
  Forall (fun uri => In uri (List.map res_uri (resourceList (modules curriculum)))) clicks ->
  ((getTopicProgress curriculum (afterClicks curriculum clicks)).1
     <= (getTopicProgress curriculum (afterClicks curriculum clicks)).2)%nat /\
  total (getTotalProgress curriculum (afterClicks curriculum clicks))
    = length (resourceList (modules curriculum)) /\
  (completed (getTotalProgress curriculum (afterClicks curriculum clicks))
     <= total (getTotalProgress curriculum (afterClicks curriculum clicks)))%nat /\
  (completed (getTotalProgress curriculum (afterClicks curriculum clicks))
     = total (getTotalProgress curriculum (afterClicks curriculum clicks)) ->
   NoDup (List.map res_uri (resourceList (modules curriculum)))).
Proof.
  intros Hclicks. pose proof (afterClicks_completed curriculum clicks Hclicks) as Hsub.
  set (v := afterClicks curriculum clicks) in *.
  set (uris := List.map res_uri (resourceList (modules curriculum))) in *.
  assert (size (completedResources v) <= size (list_to_set (C := gset jsstring) uris))%nat
    as Hle1 by (by apply subseteq_size).
  pose proof (size_list_to_set_le uris) as Hle2.
  assert (length uris = length (resourceList (modules curriculum))) as Hlen
    by (unfold uris; by rewrite length_map).
  split; [|split; [|split]].
  - unfold getTopicProgress. destruct (getSelectedTopic curriculum v) as [t|]; [|done].
    destruct (curatedContent t) as [content|]; [|done]. simpl.
    apply List.filter_length_le.
  - simpl. apply totalResources_length.
  - simpl. rewrite totalResources_length. lia.
  - simpl. rewrite totalResources_length. intros E.
    apply size_list_to_set_NoDup. lia.
Qed.

End Progress.

Lemma find_app_list {A} (p : A -> bool) (l k : list A) :
  List.find p (l ++ k) = match List.find p l with Some x => Some x | None => List.find p k end.
Proof. induction l as [|x l IH]; simpl; [done|]. by destruct (p x). Qed.

(** The search module after module is the search in the list of all topics. *)
Lemma findTopic_topicList (selected : option jsstring) (mods : list Module) :
  findTopic selected mods = List.find (hasId selected) (topicList mods).
Proof.
  unfold topicList. induction mods as [|m mods IH]; simpl; [done|].
  by rewrite find_app_list, IH.
Qed.

Lemma find_unique_id (l : list Topic) (t : Topic) :
  NoDup (List.map topic_id l) -> In t l ->
  List.find (hasId (Some (topic_id t))) l = Some t.
Proof.
  induction l as [|x l IH]; simpl; [done|].
  intros [Hx Hl]%NoDup_cons [->|Hin].
  - by rewrite jseq_refl.
  - destruct (jseq (topic_id x) (topic_id t)) eqn:E; [|by apply IH].
    exfalso. apply jseq_eq in E. apply Hx. rewrite E.
    apply list_elem_of_In, in_map. done.
Qed.

(** When the topic ids of the curriculum are pairwise different, as the ids
    the planner writes are, selecting the id of a topic makes that topic the
    active one, wherever it stands. *)
Theorem getSelectedTopic_by_id (curriculum : Curriculum) (v : ViewState)
    (mIdx tIdx : nat) (m : Module) (t : Topic) :
  NoDup (List.map topic_id (topicList (modules curriculum))) ->
  modules curriculum !! mIdx = Some m ->
  topics m !! tIdx = Some t ->
  selectedTopicId v = Some (topic_id t) ->
  getSelectedTopic curriculum v = Some t.
Proof.
  intros Hids Hm Ht Hsel. unfold getSelectedTopic.
  rewrite findTopic_topicList, Hsel. apply find_unique_id; [done|].
  unfold topicList. apply in_concat. exists (topics m). split.
  - apply in_map. by apply list_elem_of_In, list_elem_of_lookup_2 with mIdx.
  - by apply list_elem_of_In, list_elem_of_lookup_2 with tIdx.
Qed.

(** ** The agents and the controller together *)



Section WholeRun.
Context `{Platform}.




End WholeRun.


(** ** Runs of the examples *)

Lemma soloCurator_succeeds :
  succeedsBefore soloCurator demoPrefs soloPlan (fun _ => soloContent)
    (length (flatten (modules soloPlan))).
Proof.
  intros j t mi ti m0 Hj Hl Hm. destruct j as [|j]; [|simpl in Hj; lia].
  vm_compute in Hl. injection Hl as <- <- <-.
  vm_compute in Hm. injection Hm as <-.
  vm_compute. reflexivity.
Defined.

Lemma runPlannerAgent_result_witness :
  getProp (lit "id") plannedJson = Some (JStr (lit "uuid-1")) /\
  exists top',
    topicAt plannedJson 0 0 = Some top' /\
    getProp (lit "id") top' = Some (JStr (topicId 0 0)).
Proof.
  assert (runPlannerAgent (H := refPlatform) (lit "uuid-1") 1700000000000
            (answers (mkResponse (Some planText) None)) = inr plannedJson) as Hrun
    by (vm_compute; reflexivity).
  destruct (runPlannerAgent_result (H := refPlatform) _ _ _ _ Hrun)
    as (response & t & data & Ho & Ht & Hp & Hid & _ & _ & _ & Htop).
  split; [exact Hid|].
  vm_compute in Ho. injection Ho as <-.
  vm_compute in Ht. injection Ht as <-.
  vm_compute in Hp. injection Hp as <-.
  specialize (Htop 0%nat 0%nat).
  destruct Htop as (top' & Ht' & Hid' & _). by exists top'.
Defined.

Lemma startGeneration_trace_witness :
  trace (startGeneration (H := refPlatform) soloCurator demoPrefs (inr soloPlan))
    = completeTrace (H := refPlatform) demoPrefs soloPlan.
Proof.
  apply (startGeneration_trace (H := refPlatform) soloCurator demoPrefs soloPlan
           (fun _ => soloContent)).
  apply soloCurator_succeeds.
Defined.

Lemma startGeneration_updates_in_place_witness :
  documents (trace (startGeneration (H := refPlatform) soloCurator demoPrefs (inr soloPlan)))
    = [published soloPlan; published soloPlan] /\
  forall d,
    In d (documents (trace (startGeneration (H := refPlatform) soloCurator demoPrefs
                              (inr soloPlan)))) ->
    forall j t mi ti,
      flatten (modules soloPlan) !! j = Some (t, mi, ti) ->
      exists m topic,
        observe (heap (startGeneration (H := refPlatform) soloCurator demoPrefs
                         (inr soloPlan))) d !! mi = Some m /\
        topics m !! ti = Some topic /\
        curatedContent topic = Some soloContent /\
        topic_id topic = topic_id t /\
        topic_title topic = topic_title t /\
        topic_description topic = topic_description t /\
        actionableStep topic = actionableStep t.
Proof.
  split.
  - vm_compute. reflexivity.
  - apply (proj2 (startGeneration_updates_in_place (H := refPlatform) soloCurator demoPrefs
                    soloPlan (fun _ => soloContent) soloCurator_succeeds)).
Defined.

Lemma demoCurator_succeeds : succeedsBefore demoCurator demoPrefs demoPlan (fun _ => demoContent) 1.
Proof.
  intros j t mi ti m0 Hj Hl Hm. destruct j as [|j]; [|lia].
  vm_compute in Hl. injection Hl as <- <- <-.
  vm_compute in Hm. injection Hm as <-.
  vm_compute. reflexivity.
Defined.

Lemma demoCurator_throws : throwsAt demoCurator demoPrefs demoPlan 1 URIError.
Proof.
  exists (mkTopic (lit "m0-t1") [55296] (lit "Grouping rows") (lit "Write a GROUP BY") None),
         0%nat, 1%nat,
         (mkModule (lit "Queries")
            [ mkTopic (lit "m0-t0") (lit "SQL joins") (lit "Joining tables")
                (lit "Write a join") None;
              mkTopic (lit "m0-t1") [55296] (lit "Grouping rows")
                (lit "Write a GROUP BY") None ]).
  split; [reflexivity|]. split; [reflexivity|]. vm_compute. reflexivity.
Defined.

Lemma startGeneration_keeps_partial_results_witness :
  curatorCalls (trace (startGeneration (H := refPlatform) demoCurator demoPrefs
                         (inr demoPlan)))
    = [ (lit "SQL joins", sqlContext); ([55296], sqlContext) ] /\
  length (curatorCalls (trace (startGeneration (H := refPlatform) demoCurator demoPrefs
                                 (inr demoPlan)))) = 2%nat /\
  (stage <$> lastStatus (trace (startGeneration (H := refPlatform) demoCurator demoPrefs
                                  (inr demoPlan)))) = Some error /\
  exists d,
    lastDocument (trace (startGeneration (H := refPlatform) demoCurator demoPrefs
                           (inr demoPlan))) = Some d /\
    forall j t mi ti,
      (j < 1)%nat ->
      flatten (modules demoPlan) !! j = Some (t, mi, ti) ->
      exists m topic,
        observe (heap (startGeneration (H := refPlatform) demoCurator demoPrefs
                         (inr demoPlan))) d !! mi = Some m /\
        topics m !! ti = Some topic /\
        curatedContent topic = Some demoContent /\
        topic_id topic = topic_id t /\
        topic_title topic = topic_title t /\
        topic_description topic = topic_description t /\
        actionableStep topic = actionableStep t.
Proof.
  apply (startGeneration_keeps_partial_results (H := refPlatform) demoCurator demoPrefs
           demoPlan (fun _ => demoContent) 1 URIError demoCurator_succeeds demoCurator_throws).
Defined.

Lemma duoCurator_succeeds :
  succeedsBefore soloCurator demoPrefs duoPlan duoContent (length (flatten (modules duoPlan))).
Proof.
  intros j t mi ti m0 Hj Hl Hm.
  destruct j as [|[|[|j]]]; [| | |simpl in Hj; lia];
    vm_compute in Hl; injection Hl as <- <- <-;
    vm_compute in Hm; injection Hm as <-;
    vm_compute; reflexivity.
Defined.

Lemma startGeneration_completes_witness :
  curatorCalls (trace (startGeneration (H := refPlatform) soloCurator demoPrefs (inr duoPlan)))
    = [ (lit "SQL joins", lit "Course Goal: Learn SQL basics. Module: Queries");
        (lit "Grouping rows", lit "Course Goal: Learn SQL basics. Module: Aggregates");
        (lit "Counting rows", lit "Course Goal: Learn SQL basics. Module: Aggregates") ] /\
  lastStatus (trace (startGeneration (H := refPlatform) soloCurator demoPrefs (inr duoPlan)))
    = Some (mkStatus complete (lit "Curriculum ready!") 100 None) /\
  exists d,
    lastDocument (trace (startGeneration (H := refPlatform) soloCurator demoPrefs
                           (inr duoPlan))) = Some d /\
    forall j t mi ti,
      flatten (modules duoPlan) !! j = Some (t, mi, ti) ->
      exists m topic,
        observe (heap (startGeneration (H := refPlatform) soloCurator demoPrefs
                         (inr duoPlan))) d !! mi = Some m /\
        topics m !! ti = Some topic /\
        curatedContent topic = Some (duoContent j) /\
        topic_id topic = topic_id t /\
        topic_title topic = topic_title t /\
        topic_description topic = topic_description t /\
        actionableStep topic = actionableStep t.
Proof.
  apply (startGeneration_completes (H := refPlatform) soloCurator demoPrefs duoPlan
           duoContent duoCurator_succeeds).
Defined.

Lemma progress_after_clicks_witness :
  total (getTotalProgress (H := refPlatform) soloCurriculum
           (afterClicks soloCurriculum [lit "https://www.google.com/search?q=SQL%20joins"]))
    = 1%nat /\
  (completed (getTotalProgress (H := refPlatform) soloCurriculum
                (afterClicks soloCurriculum [lit "https://www.google.com/search?q=SQL%20joins"]))
     <= total (getTotalProgress (H := refPlatform) soloCurriculum
                 (afterClicks soloCurriculum
                    [lit "https://www.google.com/search?q=SQL%20joins"])))%nat.
Proof.
  destruct (progress_after_clicks (H := refPlatform) soloCurriculum
              [lit "https://www.google.com/search?q=SQL%20joins"])
    as (_ & Ht & Hc & _).
  - constructor; [|constructor]. left. reflexivity.
  - split; [exact Ht | exact Hc].
Defined.

Lemma getSelectedTopic_by_id_witness :
  getSelectedTopic demoPlan (mkView ∅ (Some (lit "m0-t1")) ∅ ∅)
    = Some (mkTopic (lit "m0-t1") [55296] (lit "Grouping rows") (lit "Write a GROUP BY") None).
Proof.
  apply (getSelectedTopic_by_id demoPlan (mkView ∅ (Some (lit "m0-t1")) ∅ ∅) 0 1
           (mkModule (lit "Queries")
              [ mkTopic (lit "m0-t0") (lit "SQL joins") (lit "Joining tables")
                  (lit "Write a join") None;
                mkTopic (lit "m0-t1") [55296] (lit "Grouping rows")
                  (lit "Write a GROUP BY") None ])).
  - vm_compute. apply NoDup_cons. split; [|apply NoDup_singleton].
    by intros [=]%list_elem_of_singleton.
  - reflexivity.
  - reflexivity.
  - reflexivity.
Defined.
